(** * Crowd-detection pipeline: ROI registry, region extraction, stream
      source, detection loop, Redis helpers, mailer and supervisors

    A shallow embedding of the Python sources [roi_module.py],
    [detection_utils.py], [detection_module.py], [detects.py],
    [redis_utils.py], [send_email.py] and [app.py], with the properties
    of the specification proved (or refuted) over it, followed by
    further properties of the same code.

    Conventions.
    - Python integers are [Z]; list positions produced by [enumerate] are
      [nat]; the sentinel index [-1] keeps fields such as
      [selected_polygon] in [Z].
    - A Python value that may be [None] is an [option].
    - A function that can raise returns its exception explicitly; log
      records written through [logging] are returned as a list.
    - Wall-clock readings ([time.time()]) are rationals. *)

From Stdlib Require Import ZArith QArith Qround Lqa Lia Bool Ascii String List.
From stdpp Require Import base list strings gmap pretty.
Import ListNotations.

Local Open Scope string_scope.
Local Open Scope list_scope.
Local Open Scope Z_scope.

(** ** Exceptions and logging *)

(** The exception classes the modelled code raises or catches.
    [KeyboardInterrupt] derives from [BaseException] only, so a handler
    written [except Exception] lets it through. *)
Inductive exn : Type :=
  | KeyboardInterrupt
  | StopIteration
  | IndexError
  | TypeError
  | ValueError
  | AttributeError
  | ZeroDivisionError
  | FileNotFoundError
  | JSONDecodeError
  | OSError
  | ConnectionError
  | RedisError
  | OtherException (name : string).

(** [isinstance(e, Exception)]. *)
Definition is_Exception (e : exn) : bool :=
  match e with
  | KeyboardInterrupt => false
  | _ => true
  end.

Inductive level : Type := INFO | WARNING | ERROR.

Record log_record : Type := Log { log_level : level; log_msg : string }.

Definition log := list log_record.

Definition level_eqb (a b : level) : bool :=
  match a, b with
  | INFO, INFO | WARNING, WARNING | ERROR, ERROR => true
  | _, _ => false
  end.

Definition has_level (lv : level) (l : log) : bool :=
  existsb (fun r => level_eqb (log_level r) lv) l.

(** ** Python helpers *)

(** [seq[i]] for a sequence of length [len]: negative positions count
    from the end, anything else out of range raises [IndexError]
    ([None] here). *)
Definition py_index (len : nat) (i : Z) : option nat :=
  if 0 <=? i then
    if i <? Z.of_nat len then Some (Z.to_nat i) else None
  else
    if 0 <=? i + Z.of_nat len then Some (Z.to_nat (i + Z.of_nat len)) else None.

(** [sum(l)] over integers. *)
Definition py_sum (l : list Z) : Z := fold_left Z.add l 0.

(** [str.isdigit()] on a one-character ASCII string. *)
Definition isdigit (c : ascii) : bool :=
  let n := nat_of_ascii c in (48 <=? n)%nat && (n <=? 57)%nat.

(** The characters that [int()] strips around a literal, among the code
    points below 256: tab to carriage return, the space, NEL and the
    no-break space.  (The separators 28 to 31 are blanks for
    [str.isspace] but not for [int()].) *)
Definition isspace (c : ascii) : bool :=
  let n := nat_of_ascii c in
  ((9 <=? n)%nat && (n <=? 13)%nat) || (n =? 32)%nat ||
  (n =? 133)%nat || (n =? 160)%nat.

Definition digit_value (c : ascii) : Z := Z.of_nat (nat_of_ascii c) - 48.

Fixpoint lstrip (l : list ascii) : list ascii :=
  match l with
  | c :: l' => if isspace c then lstrip l' else l
  | [] => []
  end.

Definition strip (l : list ascii) : list ascii :=
  rev (lstrip (rev (lstrip l))).

(** Decimal digits with single underscores between them, as accepted by
    [int()]; [after_digit] tells whether the previous character was a
    digit (an underscore needs a digit on both sides). *)
Fixpoint parse_digits (l : list ascii) (acc : Z) (after_digit : bool) : option Z :=
  match l with
  | [] => if after_digit then Some acc else None
  | c :: l' =>
      if isdigit c then parse_digits l' (10 * acc + digit_value c) true
      else if Ascii.eqb c "_"%char then
        (if after_digit then parse_digits l' acc false else None)
      else None
  end.

(** [sys.get_int_max_str_digits()]: the interpreter's default, which the
    program does not change. *)
Definition int_max_str_digits : nat := 4300.

(** [int(s)] in base 10 on a string of code points below 256; [None]
    stands for [ValueError].  A literal with more than
    [int_max_str_digits] digits is refused, whatever its sign, blanks
    and underscores. *)
Definition py_int (s : string) : option Z :=
  match strip (list_ascii_of_string s) with
  | c :: l =>
      let body :=
        if Ascii.eqb c "-"%char || Ascii.eqb c "+"%char then l else c :: l in
      if (int_max_str_digits <? length (List.filter isdigit body))%nat then None
      else if Ascii.eqb c "-"%char then
        option_map Z.opp (parse_digits l 0 false)
      else if Ascii.eqb c "+"%char then parse_digits l 0 false
      else parse_digits (c :: l) 0 false
  | [] => None
  end.

(** [s[:-1]]. *)
Definition drop_last (s : string) : string :=
  string_of_list_ascii (removelast (list_ascii_of_string s)).

(** [chr(key)] for [0 <= key < 256]. *)
Definition chr (key : Z) : ascii := ascii_of_N (Z.to_N key).

(** ** The ROI registry ([roi_module.PolygonROIManager]) *)

(** A vertex is a 2-tuple when it comes from the mouse and a 2-element
    list when it comes from a JSON file; both are read by position. *)
Inductive point : Type :=
  | PTuple (x y : Z)
  | PList (x y : Z).

Definition coords (p : point) : Z * Z :=
  match p with PTuple x y | PList x y => (x, y) end.

Definition polygon := list point.

(** An element of [self.polygons]: what [pending_polygon] held when it
    was appended, a vertex list or [None]. *)
Definition roi_entry := option polygon.

Record roi_manager : Type := Manager {
  polygons : list roi_entry;
  roi_max_thresholds : list Z;
  current_polygon : polygon;
  edit_mode : bool;
  drawing : bool;
  selected_polygon : Z;
  drag_point_index : Z;
  mouse_pos : Z * Z;
  input_mode : bool;
  input_buffer : string;
  input_prompt : string;
  pending_polygon : option polygon
}.

(** [PolygonROIManager.__init__] (the logo fields play no part here). *)
Definition init_manager : roi_manager :=
  {| polygons := []; roi_max_thresholds := []; current_polygon := [];
     edit_mode := false; drawing := false;
     selected_polygon := -1; drag_point_index := -1; mouse_pos := (0, 0);
     input_mode := false; input_buffer := ""; input_prompt := "";
     pending_polygon := None |}.

Definition DEFAULT_THRESHOLD : Z := 50.

(** [cancel_input] *)
Definition cancel_input (m : roi_manager) : roi_manager :=
  {| polygons := polygons m; roi_max_thresholds := roi_max_thresholds m;
     current_polygon := current_polygon m;
     edit_mode := edit_mode m; drawing := drawing m;
     selected_polygon := selected_polygon m;
     drag_point_index := drag_point_index m; mouse_pos := mouse_pos m;
     input_mode := false; input_buffer := ""; input_prompt := "";
     pending_polygon := None |}.

Definition set_input_buffer (b : string) (m : roi_manager) : roi_manager :=
  {| polygons := polygons m; roi_max_thresholds := roi_max_thresholds m;
     current_polygon := current_polygon m;
     edit_mode := edit_mode m; drawing := drawing m;
     selected_polygon := selected_polygon m;
     drag_point_index := drag_point_index m; mouse_pos := mouse_pos m;
     input_mode := input_mode m; input_buffer := b;
     input_prompt := input_prompt m;
     pending_polygon := pending_polygon m |}.

Definition set_rois (ps : list roi_entry) (ts : list Z) (m : roi_manager)
  : roi_manager :=
  {| polygons := ps; roi_max_thresholds := ts;
     current_polygon := current_polygon m;
     edit_mode := edit_mode m; drawing := drawing m;
     selected_polygon := selected_polygon m;
     drag_point_index := drag_point_index m; mouse_pos := mouse_pos m;
     input_mode := input_mode m; input_buffer := input_buffer m;
     input_prompt := input_prompt m;
     pending_polygon := pending_polygon m |}.

(** The threshold computed on Enter:
    [int(buffer) if buffer else 50], with [ValueError] mapped to 50. *)
Definition entered_threshold (buffer : string) : Z :=
  if String.eqb buffer "" then DEFAULT_THRESHOLD
  else match py_int buffer with
       | Some n => n
       | None => DEFAULT_THRESHOLD
       end.

(** [handle_key_input] *)
Definition handle_key_input (key : Z) (m : roi_manager) : roi_manager * log :=
  if negb (input_mode m) then (m, [])
  else if key =? 13 then
    let threshold := entered_threshold (input_buffer m) in
    let ps := polygons m ++ [pending_polygon m] in
    let m1 := set_rois ps (roi_max_thresholds m ++ [threshold]) m in
    (cancel_input m1,
     [Log INFO ("ROI " +:+ pretty (length ps) +:+
                " created with max threshold: " +:+ pretty threshold)])
  else if key =? 8 then
    (set_input_buffer (drop_last (input_buffer m)) m, [])
  else if key =? 27 then
    (cancel_input m, [Log INFO "ROI creation cancelled."])
  else if (32 <=? key) && (key <? 127) then
    let char := chr key in
    if isdigit char then
      (set_input_buffer (input_buffer m +:+ String char "") m, [])
    else (m, [])
  else (m, []).

(** *** Mouse interaction ([mouse_callback]) *)

Inductive mouse_event : Type :=
  | EVENT_LBUTTONDOWN
  | EVENT_RBUTTONDOWN
  | EVENT_MOUSEMOVE
  | EVENT_LBUTTONUP
  | EVENT_OTHER.

(** The inner loop of the drag search: the first vertex of [pts] closer
    than 10 pixels to [(x, y)].  On integers
    [sqrt(dx**2 + dy**2) < 10] is [dx**2 + dy**2 < 100]. *)
Fixpoint find_vertex (x y : Z) (pts : polygon) (j : nat) : option nat :=
  match pts with
  | [] => None
  | p :: rest =>
      let '(px, py) := coords p in
      if (x - px) ^ 2 + (y - py) ^ 2 <? 100 then Some j
      else find_vertex x y rest (S j)
  end.

Inductive hit : Type :=
  | Hit (poly_idx point_idx : nat)
  | NoHit
  | HitRaise (e : exn).

(** The outer loop; iterating over an entry that is [None] raises. *)
Fixpoint find_hit (x y : Z) (ps : list roi_entry) (i : nat) : hit :=
  match ps with
  | [] => NoHit
  | None :: _ => HitRaise TypeError
  | Some pts :: rest =>
      match find_vertex x y pts 0 with
      | Some j => Hit i j
      | None => find_hit x y rest (S i)
      end
  end.

(** [self.polygons[sel][idx] = (x, y)] *)
Definition drag_vertex (sel idx x y : Z) (ps : list roi_entry)
  : list roi_entry + exn :=
  match py_index (length ps) sel with
  | None => inr IndexError
  | Some i =>
      match ps !! i with
      | Some (Some pts) =>
          match py_index (length pts) idx with
          | None => inr IndexError
          | Some j => inl (<[i := Some (<[j := PTuple x y]> pts)]> ps)
          end
      | Some None => inr TypeError
      | None => inr IndexError
      end
  end.

Definition mouse_callback (event : mouse_event) (x y : Z) (m : roi_manager)
  : roi_manager * option exn :=
  let m :=
    {| polygons := polygons m; roi_max_thresholds := roi_max_thresholds m;
       current_polygon := current_polygon m;
       edit_mode := edit_mode m; drawing := drawing m;
       selected_polygon := selected_polygon m;
       drag_point_index := drag_point_index m; mouse_pos := (x, y);
       input_mode := input_mode m; input_buffer := input_buffer m;
       input_prompt := input_prompt m;
       pending_polygon := pending_polygon m |} in
  if negb (edit_mode m) || input_mode m then (m, None)
  else
    match event with
    | EVENT_LBUTTONDOWN =>
        if negb (drawing m) then
          match find_hit x y (polygons m) 0 with
          | Hit i j =>
              ({| polygons := polygons m;
                  roi_max_thresholds := roi_max_thresholds m;
                  current_polygon := current_polygon m;
                  edit_mode := edit_mode m; drawing := drawing m;
                  selected_polygon := Z.of_nat i;
                  drag_point_index := Z.of_nat j; mouse_pos := mouse_pos m;
                  input_mode := input_mode m; input_buffer := input_buffer m;
                  input_prompt := input_prompt m;
                  pending_polygon := pending_polygon m |}, None)
          | HitRaise e => (m, Some e)
          | NoHit =>
              ({| polygons := polygons m;
                  roi_max_thresholds := roi_max_thresholds m;
                  current_polygon := [PTuple x y];
                  edit_mode := edit_mode m; drawing := true;
                  selected_polygon := selected_polygon m;
                  drag_point_index := drag_point_index m;
                  mouse_pos := mouse_pos m;
                  input_mode := input_mode m; input_buffer := input_buffer m;
                  input_prompt := input_prompt m;
                  pending_polygon := pending_polygon m |}, None)
          end
        else
          ({| polygons := polygons m;
              roi_max_thresholds := roi_max_thresholds m;
              current_polygon := current_polygon m ++ [PTuple x y];
              edit_mode := edit_mode m; drawing := drawing m;
              selected_polygon := selected_polygon m;
              drag_point_index := drag_point_index m; mouse_pos := mouse_pos m;
              input_mode := input_mode m; input_buffer := input_buffer m;
              input_prompt := input_prompt m;
              pending_polygon := pending_polygon m |}, None)
    | _ =>
        if match event with EVENT_RBUTTONDOWN => true | _ => false end
           && drawing m && (3 <=? length (current_polygon m))%nat then
          ({| polygons := polygons m;
              roi_max_thresholds := roi_max_thresholds m;
              current_polygon := [];
              edit_mode := edit_mode m; drawing := false;
              selected_polygon := selected_polygon m;
              drag_point_index := drag_point_index m; mouse_pos := mouse_pos m;
              input_mode := true; input_buffer := "";
              input_prompt :=
                "Enter Threshold for ROI #" +:+
                pretty (length (polygons m) + 1)%nat +:+
                " (then press Enter):";
              pending_polygon := Some (current_polygon m) |}, None)
        else if match event with EVENT_MOUSEMOVE => true | _ => false end
                && negb (selected_polygon m =? -1) then
          match drag_vertex (selected_polygon m) (drag_point_index m) x y
                            (polygons m) with
          | inl ps => (set_rois ps (roi_max_thresholds m) m, None)
          | inr e => (m, Some e)
          end
        else if match event with EVENT_LBUTTONUP => true | _ => false end then
          ({| polygons := polygons m;
              roi_max_thresholds := roi_max_thresholds m;
              current_polygon := current_polygon m;
              edit_mode := edit_mode m; drawing := drawing m;
              selected_polygon := -1; drag_point_index := -1;
              mouse_pos := mouse_pos m;
              input_mode := input_mode m; input_buffer := input_buffer m;
              input_prompt := input_prompt m;
              pending_polygon := pending_polygon m |}, None)
        else (m, None)
    end.

(** *** Persistence ([save_config], [load_config]) *)

(** The files that the fields of a registry can hold.  A registry file
    holds an object with the two lists [polygons] and [max_thresholds];
    JSON has no tuples, so a saved vertex comes back as a two-element
    list.  [Garbage] is a file that cannot be read or parsed,
    [JsonNonObject] one that parses to something else than a dict, and
    [JsonObject] a dict whose two entries, where present, are a list of
    polygons (lists of integer pairs, or [null]) and a list of
    integers.  Every other file, such as one with [null] for a list or
    with further keys, is covered by [json_file] and
    [load_config_json] below, which agree with [load_config] on the
    files described here. *)
Definition json_polygon := option (list (Z * Z)).

Inductive file_content : Type :=
  | Garbage
  | JsonNonObject
  | JsonObject (polys : option (list json_polygon))
               (max_thresholds : option (list Z)).

Definition to_json (ps : list roi_entry) : list json_polygon :=
  map (option_map (map coords)) ps.

Definition of_json (ps : list json_polygon) : list roi_entry :=
  map (option_map (map (fun c : Z * Z => PList (fst c) (snd c)))) ps.

(** How the write performed by [save_config] ends: it succeeds, [open]
    raises, or [json.dump] raises after the file was truncated. *)
Inductive write_outcome : Type := WriteOk | OpenFails | DumpFails.

Definition save_config (w : write_outcome) (filename : string)
    (fs : gmap string file_content) (m : roi_manager)
  : gmap string file_content * log :=
  match w with
  | WriteOk =>
      (<[filename := JsonObject (Some (to_json (polygons m)))
                                (Some (roi_max_thresholds m))]> fs,
       [Log INFO ("ROI configuration saved to " +:+ filename)])
  | OpenFails => (fs, [Log ERROR "Failed to save ROI config"])
  | DumpFails =>
      (<[filename := Garbage]> fs, [Log ERROR "Failed to save ROI config"])
  end.

(** [load_config] on the files that [file_content] describes: on these
    nothing raises once the two attributes are assigned. *)
Definition load_config (filename : string)
    (fs : gmap string file_content) (m : roi_manager) : roi_manager * log :=
  match fs !! filename with
  | None =>
      (m, [Log WARNING ("No config file found: " +:+ filename +:+
                        ". Starting with no ROIs.")])
  | Some (JsonObject ps ts) =>
      let polys := of_json (default [] ps) in
      let ths := default [] ts in
      let found :=
        Log INFO ("ROI config loaded from " +:+ filename +:+ ". Found " +:+
                  pretty (length polys) +:+ " polygons.") in
      if negb (length ths =? length polys)%nat then
        (set_rois polys (replicate (length polys) DEFAULT_THRESHOLD) m,
         [Log WARNING
            "Mismatch in loaded ROI config. Resetting all thresholds to 50.";
          found])
      else (set_rois polys ths m, [found])
  | Some _ =>
      (m, [Log ERROR ("Error loading ROI config file '" +:+ filename +:+ "'")])
  end.

(** *** Registry files as [json.load] reads them *)











(** *** Keyboard dispatch of the standalone application
    ([detects.frame_handler], after [cv2.waitKey(1) & 0xFF]) *)

Definition ROI_CONFIG_FILE : string := "roi_config.json".

Definition set_edit_mode (b : bool) (m : roi_manager) : roi_manager :=
  {| polygons := polygons m; roi_max_thresholds := roi_max_thresholds m;
     current_polygon := current_polygon m;
     edit_mode := b; drawing := drawing m;
     selected_polygon := selected_polygon m;
     drag_point_index := drag_point_index m; mouse_pos := mouse_pos m;
     input_mode := input_mode m; input_buffer := input_buffer m;
     input_prompt := input_prompt m;
     pending_polygon := pending_polygon m |}.

Definition clear_rois (m : roi_manager) : roi_manager :=
  {| polygons := []; roi_max_thresholds := []; current_polygon := [];
     edit_mode := edit_mode m; drawing := drawing m;
     selected_polygon := selected_polygon m;
     drag_point_index := drag_point_index m; mouse_pos := mouse_pos m;
     input_mode := input_mode m; input_buffer := input_buffer m;
     input_prompt := input_prompt m;
     pending_polygon := pending_polygon m |}.

Record handled : Type := Handled {
  h_fs : gmap string file_content;
  h_manager : roi_manager;
  h_log : log;
  h_raised : option exn
}.

Definition frame_handler (key : Z) (w : write_outcome)
    (fs : gmap string file_content) (m : roi_manager) : handled :=
  if input_mode m then
    let '(m', l) := handle_key_input key m in Handled fs m' l None
  else if key =? 113 then Handled fs m [] (Some KeyboardInterrupt)
  else if key =? 101 then
    Handled fs (set_edit_mode (negb (edit_mode m)) m)
            [Log INFO (if negb (edit_mode m) then "ROI Edit Mode: ON"
                       else "ROI Edit Mode: OFF")] None
  else if (key =? 115) && edit_mode m then
    let '(fs', l) := save_config w ROI_CONFIG_FILE fs m in
    Handled fs' (set_edit_mode false m)
            (l ++ [Log INFO ("ROI config saved to '" +:+ ROI_CONFIG_FILE +:+
                             "'. Edit mode OFF.")]) None
  else if (key =? 99) && edit_mode m then
    Handled fs (clear_rois m) [Log INFO "All ROIs cleared."] None
  else Handled fs m [] None.

(** *** Sequences of registry operations *)

Inductive registry_op : Type :=
  | OpMouse (event : mouse_event) (x y : Z)
  | OpKey (key : Z) (w : write_outcome)
  | OpSave (filename : string) (w : write_outcome)
  | OpLoad (filename : string)
  | OpToggleEdit
  | OpFileChanged (filename : string) (c : file_content).

(** One operation on the registry and the file store.  [OpSave] and
    [OpToggleEdit] are the web endpoints of [app.py]; [OpFileChanged] is
    a file rewritten from outside the program. *)
Definition apply_op (o : registry_op)
    (s : gmap string file_content * roi_manager)
  : gmap string file_content * roi_manager :=
  let '(fs, m) := s in
  match o with
  | OpMouse ev x y => (fs, fst (mouse_callback ev x y m))
  | OpKey key w =>
      let h := frame_handler key w fs m in (h_fs h, h_manager h)
  | OpSave filename w =>
      (fst (save_config w filename fs m), set_edit_mode false m)
  | OpLoad filename => (fs, fst (load_config filename fs m))
  | OpToggleEdit => (fs, set_edit_mode (negb (edit_mode m)) m)
  | OpFileChanged filename c => (<[filename := c]> fs, m)
  end.

Definition run_ops (ops : list registry_op)
    (s : gmap string file_content * roi_manager)
  : gmap string file_content * roi_manager :=
  fold_left (fun s o => apply_op o s) ops s.

(** ** Polygon containment ([PolygonROIManager.point_in_polygon]) *)

(** Modelled from the spec: part of [cv2.pointPolygonTest] (OpenCV
    library code, not among the sources).  How one contour edge
    [v0 -> v] stands to the query point: the point lies on it, the ray
    from the point crosses it, or neither. *)
Inductive edge_class : Type := OnEdge | Crossing | NoCrossing.

(** Modelled from the spec: the test [cv2.pointPolygonTest] applies to
    one edge.  Edges wholly above, wholly below or wholly to the left of
    the point cannot be crossed and only count when the point lies on
    them; for the others the sign of the cross product tells the side. *)
Definition classify_edge (ip v0 v : Z * Z) : edge_class :=
  let '(ipx, ipy) := ip in
  let '(v0x, v0y) := v0 in
  let '(vx, vy) := v in
  if ((v0y <=? ipy) && (vy <=? ipy)) || ((ipy <? v0y) && (ipy <? vy))
     || ((v0x <? ipx) && (vx <? ipx)) then
    if (ipy =? vy) &&
       ((ipx =? vx) ||
        ((ipy =? v0y) &&
         (((v0x <=? ipx) && (ipx <=? vx)) || ((vx <=? ipx) && (ipx <=? v0x)))))
    then OnEdge else NoCrossing
  else
    let dist := (ipy - v0y) * (vx - v0x) - (ipx - v0x) * (vy - v0y) in
    if dist =? 0 then OnEdge
    else
      let dist := if vy <? v0y then - dist else dist in
      if 0 <? dist then Crossing else NoCrossing.

(** Modelled from the spec: the loop of [cv2.pointPolygonTest] over the
    contour.  [v] is the previous vertex, [counter] the crossings so far;
    a point found on an edge ends the loop with 0. *)
Fixpoint ppt_loop (ip v : Z * Z) (cnt : list (Z * Z)) (counter : Z) : Z :=
  match cnt with
  | [] => if counter mod 2 =? 0 then -1 else 1
  | c :: rest =>
      match classify_edge ip v c with
      | OnEdge => 0
      | Crossing => ppt_loop ip c rest (counter + 1)
      | NoCrossing => ppt_loop ip c rest counter
      end
  end.

(** Modelled from the spec: [cv2.pointPolygonTest] is OpenCV library
    code and is not among the sources.  The spec describes the test as an
    exact polygon-containment test in which the boundary counts as
    inside; the model is the library's test for an integer contour and an
    integer point without distance measurement: a point on an edge gives
    0, otherwise the parity of the edges crossed by a horizontal ray
    gives 1 (inside) or -1 (outside).  The contour is closed by starting
    from its last vertex. *)
Definition pointPolygonTest (cnt : list (Z * Z)) (pt : Z * Z) : Z :=
  match cnt with
  | [] => -1
  | c :: _ => ppt_loop pt (List.last cnt c) cnt 0
  end.

(** [point_in_polygon]: [cv2.pointPolygonTest(...) >= 0]. *)
Definition point_in_polygon (pt : Z * Z) (poly : polygon) : bool :=
  0 <=? pointPolygonTest (map coords poly) pt.

(** ** Frames *)

Definition pixel := (Z * Z * Z)%type.

(** A frame is its rows of BGR pixels. *)
Definition image := list (list pixel).

(** [image.shape[:2]] *)
Definition img_h (im : image) : Z := Z.of_nat (length im).
Definition img_w (im : image) : Z := Z.of_nat (length (hd [] im)).

(** [np.zeros((h, w, 3))] *)
Definition zeros (h w : nat) : image := replicate h (replicate w (0, 0, 0)).

(** [cv2.bitwise_and(image, image, mask=mask)] *)
Definition bitwise_and_mask (im : image) (mask : list (list bool)) : image :=
  zip_with (zip_with (fun (p : pixel) (b : bool) => if b then p else (0, 0, 0)))
           im mask.

(** [a[y:y+h, x:x+w]] for non-negative bounds. *)
Definition crop (im : image) (x y w h : Z) : image :=
  map (fun row => take (Z.to_nat w) (drop (Z.to_nat x) row))
      (take (Z.to_nat h) (drop (Z.to_nat y) im)).

(** [cv2.boundingRect] of a non-empty integer point set: the corner with
    the least coordinates, and extents that include both extreme
    pixels. *)
Definition boundingRect (pts : list (Z * Z)) : Z * Z * Z * Z :=
  match pts with
  | [] => (0, 0, 0, 0)
  | p :: rest =>
      let xmin := fold_left Z.min (map fst rest) (fst p) in
      let xmax := fold_left Z.max (map fst rest) (fst p) in
      let ymin := fold_left Z.min (map snd rest) (snd p) in
      let ymax := fold_left Z.max (map snd rest) (snd p) in
      (xmin, ymin, xmax - xmin + 1, ymax - ymin + 1)
  end.

(** Whether [np.array(polygon, dtype=np.int32)] can hold every
    coordinate; the conversion raises otherwise. *)
Definition fits_int32 (pts : list (Z * Z)) : bool :=
  forallb (fun p : Z * Z =>
             (- 2 ^ 31 <=? fst p) && (fst p <? 2 ^ 31) &&
             (- 2 ^ 31 <=? snd p) && (snd p <? 2 ^ 31)) pts.

(** ** The resilient stream source ([detection_module.FFmpegStreamer]) *)

Record streamer : Type := Streamer {
  width : nat;
  height : nat;
  running : bool;
  latest_frame : option image;
  last_frame_time : Q;
  is_reconnecting : bool
}.

(** [FFmpegStreamer.__init__] *)
Definition FFmpegStreamer (w h : nat) : streamer :=
  {| width := w; height := h; running := false; latest_frame := None;
     last_frame_time := 0%Q; is_reconnecting := false |}.

(** The atomic steps that change a streamer: [start], [stop], and the
    three places where [_reader_thread] writes under the lock (launching
    the decoder, storing a decoded frame, cleaning up after it ended). *)
Inductive streamer_step : streamer -> streamer -> Prop :=
  | step_start s :
      running s = false ->
      streamer_step s
        {| width := width s; height := height s; running := true;
           latest_frame := latest_frame s;
           last_frame_time := last_frame_time s;
           is_reconnecting := is_reconnecting s |}
  | step_stop s :
      streamer_step s
        {| width := width s; height := height s; running := false;
           latest_frame := latest_frame s;
           last_frame_time := last_frame_time s;
           is_reconnecting := is_reconnecting s |}
  | step_launch s now :
      running s = true ->
      streamer_step s
        {| width := width s; height := height s; running := running s;
           latest_frame := latest_frame s;
           last_frame_time := now;
           is_reconnecting := true |}
  | step_frame s f now :
      streamer_step s
        {| width := width s; height := height s; running := running s;
           latest_frame := Some f;
           last_frame_time := now;
           is_reconnecting := false |}
  | step_cleanup s :
      streamer_step s
        {| width := width s; height := height s; running := running s;
           latest_frame := latest_frame s;
           last_frame_time := last_frame_time s;
           is_reconnecting := true |}.

(** The states a streamer created with the given size can be in. *)
Inductive reachable (w h : nat) : streamer -> Prop :=
  | reach_init : reachable w h (FFmpegStreamer w h)
  | reach_step s s' :
      reachable w h s -> streamer_step s s' -> reachable w h s'.

Section StreamSource.

(** The drawing done by [_create_reconnecting_overlay] once it has a
    frame to draw on: darkening, the spinner and the text, all of which
    depend on the clock. *)
Variable draw_reconnecting : Q -> image -> image.

(** [_create_reconnecting_overlay] *)
Definition _create_reconnecting_overlay (s : streamer) (now : Q)
    (frame : option image) : image :=
  let frame :=
    match frame with
    | None => zeros (height s) (width s)
    | Some f => f
    end in
  draw_reconnecting now frame.

(** [read]: the pair [(isLive, frame)]. *)
Definition read (s : streamer) (now : Q) : bool * option image :=
  let is_currently_reconnecting := is_reconnecting s in
  let frame_to_use := latest_frame s in
  if is_currently_reconnecting then
    (false, Some (_create_reconnecting_overlay s now frame_to_use))
  else (true, frame_to_use).

End StreamSource.

(** ** Region extraction and the detection loop *)

(** A detection returned by [detect_in_roi]: [x1, y1, x2, y2]. *)
Definition box := (Q * Q * Q * Q)%type.

(** [int(q)] on a float: truncation towards zero. *)
Definition py_trunc (q : Q) : Z :=
  if Qle_bool 0 q then Qfloor q else Qceiling q.

(** [source.isnumeric() or source.lower().startswith(('rtsp://', ...))],
    on ASCII text. *)
Definition lower_char (c : ascii) : ascii :=
  let n := nat_of_ascii c in
  if (65 <=? n)%nat && (n <=? 90)%nat then ascii_of_nat (n + 32) else c.

Definition lower (s : string) : string :=
  string_of_list_ascii (map lower_char (list_ascii_of_string s)).

Definition isnumeric (s : string) : bool :=
  negb (String.eqb s "") && forallb isdigit (list_ascii_of_string s).

Definition is_webcam (source : string) : bool :=
  isnumeric source ||
  existsb (fun p => String.prefix p (lower source))
          ["rtsp://"; "rtmp://"; "http://"; "https://"].

Record config : Type := Config {
  source : string;
  skip_frames : Z;
  cam_id : Z
}.

Definition ALERT_COOLDOWN_SECONDS : Q := 120.
Definition METADATA_UPDATE_INTERVAL : Q := 1.

(** The variables of [detect] that live across iterations. *)
Record loop_state : Type := LoopState {
  processed_frames : Z;
  last_global_alert_time : Q;
  last_metadata_update_time : Q
}.

Definition loop_init : loop_state :=
  {| processed_frames := 0; last_global_alert_time := 0;
     last_metadata_update_time := 0 |}.

(** What one iteration of [while True] meets: the answers of the frame
    source, the registry as it stands, the clock, and the exceptions, if
    any, that the calls into OpenCV, the screenshot upload, the mailer
    and the output sink raise on this iteration. *)
Record tick : Type := Tick {
  t_read : bool * option image;
  t_next : image + exn;
  t_manager : roi_manager;
  t_now : Q;
  t_fault_detect : option exn;
  t_fault_screenshot : option exn;
  t_fault_email : option exn;
  t_heartbeat_ok : bool;
  t_fault_sink : option exn
}.

Inductive event : Type :=
  | EvLog (lv : level) (msg : string)
  | EvAlert (now : Q) (total_detections total_max_threshold : Z)
  | EvPushAlert (total_detections total_max_threshold : Z)
  | EvEmail (total_detections total_max_threshold : Z)
  | EvCount (total_detections : Z)
  | EvHeartbeat (total_detections : Z)
  | EvFrameOut (live : bool).

Record body_result : Type := Body {
  b_state : loop_state;
  b_events : list event;
  b_raised : option exn
}.

Inductive loop_end : Type :=
  | Running (st : loop_state)
  | Finished
  | Propagated (e : exn).

Inductive init_point : Type :=
  | BeforeDataset
  | StreamerNotBound
  | StreamerBound
  | LoadingImages.

Inductive init_outcome : Type :=
  | InitOk
  | InitRaises (at_point : init_point) (e : exn).

Inductive detect_result : Type :=
  | DetectRunning (st : loop_state)
  | DetectReturned
  | DetectRaised (e : exn).

Section Pipeline.

(** [cv2.fillPoly(mask, [poly], 255)] on a zero mask of the given
    height and width. *)
Variable fillPoly : nat -> nat -> list (Z * Z) -> list (list bool).

(** [detect_in_roi(model, roi_image, ...)] for the loaded model; it
    catches its own failures and returns an empty list then. *)
Variable detect_in_roi : image -> list box.

(** [extract_roi_region]: [None] stands for the pair [(None, None)]. *)
Definition extract_roi_region (im : image) (poly : roi_entry)
  : option (image * (Z * Z)) * log :=
  let failed := (None, [Log ERROR "Error extracting ROI region"]) in
  match poly with
  | None => failed
  | Some pts =>
      if (length pts <? 3)%nat then (None, [])
      else if negb (fits_int32 (map coords pts)) then failed
      else
        let poly_array := map coords pts in
        let '(x, y, w, h) := boundingRect poly_array in
        let x := Z.max 0 x in
        let y := Z.max 0 y in
        let w := Z.min w (img_w im - x) in
        let h := Z.min h (img_h im - y) in
        if (w <=? 0) || (h <=? 0) then (None, [])
        else
          let mask := fillPoly (length im) (length (hd [] im)) poly_array in
          let roi_region := bitwise_and_mask im mask in
          (Some (crop roi_region x y w h, (x, y)), [])
  end.

(** The body of [for det in detections]: the detections whose centre,
    moved by the region offset, falls in the polygon. *)
Definition count_in_roi (im : image) (poly : roi_entry) : Z :=
  match fst (extract_roi_region im poly), poly with
  | Some (roi_region, (ox, oy)), Some pts =>
      Z.of_nat (length (filter
        (fun det : box =>
           let '(x1, y1, x2, y2) := det in
           let center_x := ((x1 + x2) / 2 + inject_Z ox)%Q in
           let center_y := ((y1 + y2) / 2 + inject_Z oy)%Q in
           point_in_polygon (py_trunc center_x, py_trunc center_y) pts = true)
        (detect_in_roi roi_region)))
  | _, _ => 0
  end.

(** [roi_counts] after the loop over [roi_manager_instance.polygons]. *)
Definition roi_counts (im : image) (m : roi_manager) : list Z :=
  map (count_in_roi im) (polygons m).

(** The status of each ROI: overflow when its count reaches its
    threshold, [ok] when it does not or has no threshold. *)
Definition statuses (im : image) (m : roi_manager) : list bool :=
  imap (fun roi_idx count =>
          match roi_max_thresholds m !! roi_idx with
          | Some th => th <=? count
          | None => false
          end) (roi_counts im m).

(** The alert condition of [detect].  The clock is exact here; the
    subtraction of two floats rounds monotonically, so a float
    difference above the cooldown is an exact difference above it. *)
Definition alert_due (total_detections total_max_threshold : Z)
    (current_time last : Q) : bool :=
  (0 <? total_detections) && (0 <? total_max_threshold) &&
  (total_max_threshold <=? total_detections) &&
  negb (Qle_bool (current_time - last) ALERT_COOLDOWN_SECONDS).

(** The [try] block of one iteration, for the frame [im0]. *)
Definition frame_body (cfg : config) (st : loop_state) (t : tick)
    (im0 : image) : body_result :=
  let st :=
    {| processed_frames := processed_frames st + 1;
       last_global_alert_time := last_global_alert_time st;
       last_metadata_update_time := last_metadata_update_time st |} in
  if skip_frames cfg =? 0 then Body st [] (Some ZeroDivisionError)
  else if negb (processed_frames st mod skip_frames cfg =? 0) then
    Body st [] None
  else
    match t_fault_detect t with
    | Some e => Body st [] (Some e)
    | None =>
        let total_detections := py_sum (roi_counts im0 (t_manager t)) in
        let current_time := t_now t in
        let total_max_threshold :=
          py_sum (roi_max_thresholds (t_manager t)) in
        let fire :=
          alert_due total_detections total_max_threshold current_time
                    (last_global_alert_time st) in
        let st :=
          if fire then
            {| processed_frames := processed_frames st;
               last_global_alert_time := current_time;
               last_metadata_update_time := last_metadata_update_time st |}
          else st in
        let fired :=
          if fire then
            [EvAlert current_time total_detections total_max_threshold;
             EvLog WARNING "SYSTEM-WIDE OVERFLOW"]
          else [] in
        match (if fire then t_fault_screenshot t else None) with
        | Some e => Body st fired (Some e)
        | None =>
            let pushed :=
              if fire then
                [EvPushAlert total_detections total_max_threshold]
              else [] in
            match (if fire then t_fault_email t else None) with
            | Some e => Body st (fired ++ pushed) (Some e)
            | None =>
                let mailed :=
                  if fire then
                    [EvEmail total_detections total_max_threshold]
                  else [] in
                let beat :=
                  negb (Qle_bool (current_time - last_metadata_update_time st)
                                 METADATA_UPDATE_INTERVAL) in
                let heartbeat :=
                  if beat then
                    EvHeartbeat total_detections ::
                    (if t_heartbeat_ok t then []
                     else [EvLog WARNING
                             "Failed to update camera metadata heartbeat"])
                  else [] in
                let st :=
                  if beat then
                    {| processed_frames := processed_frames st;
                       last_global_alert_time := last_global_alert_time st;
                       last_metadata_update_time := current_time |}
                  else st in
                let evs :=
                  fired ++ pushed ++ mailed ++
                  [EvCount total_detections] ++ heartbeat ++
                  [EvLog INFO "Frame"] in
                match t_fault_sink t with
                | Some e => Body st evs (Some e)
                | None => Body st (evs ++ [EvFrameOut true]) None
                end
            end
        end
    end.

(** The [while True] loop over the iterations in [ticks].  [Running]
    is the loop still going when [ticks] is used up, [Finished] the
    [break] on exhaustion of a file source, and [Propagated] an
    exception that leaves the loop. *)
Fixpoint detect_loop (cfg : config) (st : loop_state) (ticks : list tick)
  : list event * loop_end :=
  match ticks with
  | [] => ([], Running st)
  | t :: rest =>
      let webcam := is_webcam (source cfg) in
      let continue st evs :=
        let '(evs', r) := detect_loop cfg st rest in (evs ++ evs', r) in
      let process im0 :=
        let b := frame_body cfg st t im0 in
        match b_raised b with
        | None => continue (b_state b) (b_events b)
        | Some e =>
            if is_Exception e then
              continue (b_state b)
                       (b_events b ++ [EvLog ERROR "Error processing frame"])
            else (b_events b, Propagated e)
        end in
      if webcam then
        match t_read t with
        | (_, None) => continue st []
        | (false, Some im0) =>
            match t_fault_sink t with
            | Some e => ([], Propagated e)
            | None => continue st [EvFrameOut false]
            end
        | (true, Some im0) => process im0
        end
      else
        match t_next t with
        | inr StopIteration =>
            ([EvLog INFO "Finished all files."], Finished)
        | inr e => ([], Propagated e)
        | inl im0 => process im0
        end
  end.

(** The handler of the outer [try] of [detect]: an [Exception] is
    logged, the stream source is stopped when [dataset] is bound and
    the source is live, and the exception is raised again.  [bound]
    tells whether the name [dataset] exists, [is_none] whether it still
    holds [None], and [stop_fault] what [dataset.stop()] raises, if
    anything. *)
Definition critical_handler (cfg : config) (bound is_none : bool)
    (stop_fault : option exn) (e : exn) : list event * detect_result :=
  if is_Exception e then
    let logged := [EvLog ERROR "Critical error in detection core"] in
    if bound && is_webcam (source cfg) then
      if is_none then (logged, DetectRaised AttributeError)
      else match stop_fault with
           | Some e' => (logged, DetectRaised e')
           | None => (logged, DetectRaised e)
           end
    else (logged, DetectRaised e)
  else ([], DetectRaised e).

(** [detect] *)
Definition detect (cfg : config) (init : init_outcome)
    (stop_fault : option exn) (ticks : list tick)
  : list event * detect_result :=
  match init with
  | InitRaises BeforeDataset e => critical_handler cfg false false stop_fault e
  | InitRaises StreamerNotBound e => critical_handler cfg true true stop_fault e
  | InitRaises StreamerBound e => critical_handler cfg true false stop_fault e
  | InitRaises LoadingImages e => critical_handler cfg true true stop_fault e
  | InitOk =>
      let '(evs, r) :=
        detect_loop cfg loop_init ticks in
      let evs := EvLog INFO "Starting main detection loop..." :: evs in
      match r with
      | Running st => (evs, DetectRunning st)
      | Finished => (evs, DetectReturned)
      | Propagated e =>
          let '(evs', r') := critical_handler cfg true false stop_fault e in
          (evs ++ evs', r')
      end
  end.

End Pipeline.

(** ** Redis helpers ([redis_utils]) *)

(** What a call into the Redis client library can raise: a lost
    connection, another [RedisError], or some other [Exception]. *)
Inductive redis_fault : Type :=
  | ConnectionLost
  | ServerError
  | Unexpected (name : string).

Definition fault_exn (f : redis_fault) : exn :=
  match f with
  | ConnectionLost => ConnectionError
  | ServerError => RedisError
  | Unexpected name => OtherException name
  end.

Record alert : Type := Alert {
  alert_id : Z;
  alert_cam_id : Z;
  alert_cam_name : string;
  alert_count : Z;
  alert_message : string;
  alert_timestamp : Q;
  alert_level : string;
  alert_screenshot_path : option string;
  alert_threshold : option Z
}.

(** The keys the helpers touch: the counter [alert_counter], the list
    [alerts_queue], and per camera the series [crowd_cam_id_<id>] with
    its expiry and the record [cam_id_<id>]. *)
Record redis_store : Type := Store {
  alert_counter : Z;
  alerts_queue : list alert;
  crowd : gmap Z (list (Q * Z));
  crowd_expire : gmap Z Z;
  camera : gmap Z (Z * string)
}.

Inductive client : Type := RedisClient.

(** The module-level [redis_client] and the server behind it. *)
Record redis_state : Type := RedisState {
  redis_client : option client;
  store : redis_store
}.

(** What the outside world answers during one call of a helper: the
    ping of the cached client, the connection of a fresh one, each
    command, whether the server applied the command of the call that
    raised (its reply may be lost after it took effect), and the
    clock. *)
Record redis_env : Type := RedisEnv {
  env_cached_ping : bool + redis_fault;
  env_connect : option redis_fault;
  env_incr : option redis_fault;
  env_rpush : option redis_fault;
  env_execute : option redis_fault;
  env_set : option redis_fault;
  env_applied : bool;
  env_time : Q;
  env_strftime : string
}.

Definition MAX_ENTRIES : Z := 6000.

(** *** A monad for code that reads and writes the Redis state, logs and
    may raise *)

Definition M (A : Type) : Type := redis_state -> (A + exn) * redis_state * log.

Definition ret {A} (a : A) : M A := fun s => (inl a, s, []).

Definition raise {A} (e : exn) : M A := fun s => (inr e, s, []).

Definition bind {A B} (c : M A) (k : A -> M B) : M B :=
  fun s =>
    match c s with
    | (inl a, s', l) => let '(r, s'', l') := k a s' in (r, s'', l ++ l')
    | (inr e, s', l) => (inr e, s', l)
    end.

Notation "x <- c ;; k" := (bind c (fun x => k))
  (at level 100, c at next level, right associativity).
Notation "c ;;; k" := (bind c (fun _ => k))
  (at level 100, right associativity).

Definition logm (lv : level) (msg : string) : M unit :=
  fun s => (inl tt, s, [Log lv msg]).

Definition get_client : M (option client) :=
  fun s => (inl (redis_client s), s, []).

Definition set_client (c : option client) : M unit :=
  fun s => (inl tt, {| redis_client := c; store := store s |}, []).

(** A command sent to the server.  When the world has a fault in store
    for it the client raises, and nothing says that the server did not
    apply the command first: [applied] tells whether it did.  Otherwise
    the command takes effect and returns.  (A pipeline is sent as one
    transaction, applied as a whole or not at all.) *)
Definition command {A} (fault : option redis_fault) (applied : bool)
    (effect : redis_store -> redis_store * A) : M A :=
  fun s =>
    match fault with
    | Some f =>
        (inr (fault_exn f),
         if applied then
           {| redis_client := redis_client s;
              store := fst (effect (store s)) |}
         else s,
         [])
    | None =>
        let '(st, a) := effect (store s) in
        (inl a, {| redis_client := redis_client s; store := st |}, [])
    end.

(** [try: c  except <classes>: h], where [catches] tells the classes. *)
Definition try_except {A} (catches : exn -> bool) (c : M A)
    (h : exn -> M A) : M A :=
  fun s =>
    match c s with
    | (inr e, s', l) =>
        if catches e then let '(r, s'', l') := h e s' in (r, s'', l ++ l')
        else (inr e, s', l)
    | ok => ok
    end.

Definition is_ConnectionError (e : exn) : bool :=
  match e with ConnectionError => true | _ => false end.

(** *** The helpers *)

(** The second half of [get_redis_client]: connect a fresh client. *)
Definition connect_fresh (env : redis_env) : M (option client) :=
  try_except is_ConnectionError
    (command (env_connect env) false (fun st => (st, tt)) ;;;
     logm INFO "Successfully connected to Redis server" ;;;
     set_client (Some RedisClient) ;;;
     ret (Some RedisClient))
    (fun _ => logm ERROR "Failed to connect to Redis" ;;; ret None).

(** [get_redis_client] *)
Definition get_redis_client (env : redis_env) : M (option client) :=
  cached <- get_client ;;
  match cached with
  | Some c =>
      alive <-
        try_except is_ConnectionError
          (match env_cached_ping env with
           | inl pong => ret pong
           | inr f => raise (fault_exn f)
           end)
          (fun _ =>
             logm WARNING "Redis connection lost. Attempting to reconnect..." ;;;
             set_client None ;;;
             ret false) ;;
      if alive then ret (Some c) else connect_fresh env
  | None => connect_fresh env
  end.

(** [push_alert] *)
Definition push_alert (env : redis_env) (cam : Z) (name : string) (count : Z)
    (message level : string) (screenshot_path : option string)
    (max_threshold_total : option Z) : M bool :=
  try_except is_Exception
    (c <- get_redis_client env ;;
     match c with
     | None => ret false
     | Some _ =>
         let timestamp := env_time env in
         id <- command (env_incr env) (env_applied env)
                 (fun st =>
                    ({| alert_counter := alert_counter st + 1;
                        alerts_queue := alerts_queue st;
                        crowd := crowd st; crowd_expire := crowd_expire st;
                        camera := camera st |}, alert_counter st + 1)) ;;
         let a :=
           {| alert_id := id; alert_cam_id := cam; alert_cam_name := name;
              alert_count := count; alert_message := message;
              alert_timestamp := timestamp; alert_level := level;
              alert_screenshot_path :=
                match screenshot_path with
                | Some p => if String.eqb p "" then None else Some p
                | None => None
                end;
              alert_threshold := max_threshold_total |} in
         command (env_rpush env) (env_applied env)
           (fun st =>
              ({| alert_counter := alert_counter st;
                  alerts_queue := alerts_queue st ++ [a];
                  crowd := crowd st; crowd_expire := crowd_expire st;
                  camera := camera st |}, tt)) ;;;
         logm WARNING "Alert pushed" ;;;
         ret true
     end)
    (fun _ => logm ERROR "Failed to push alert" ;;; ret false).

(** [update_crowd_count] *)
Definition update_crowd_count (env : redis_env) (cam : Z) (count : Z)
  : M bool :=
  try_except is_Exception
    (c <- get_redis_client env ;;
     match c with
     | None => ret false
     | Some _ =>
         let timestamp := env_time env in
         command (env_execute env) (env_applied env)
           (fun st =>
              let series := (timestamp, count) :: default [] (crowd st !! cam) in
              ({| alert_counter := alert_counter st;
                  alerts_queue := alerts_queue st;
                  crowd := <[cam := take (Z.to_nat MAX_ENTRIES) series]> (crowd st);
                  crowd_expire := <[cam := MAX_ENTRIES * 2]> (crowd_expire st);
                  camera := camera st |}, tt)) ;;;
         logm INFO "Updated crowd count" ;;;
         ret true
     end)
    (fun _ => logm ERROR "Failed to update crowd count" ;;; ret false).

(** [insert_camera_data] *)
Definition insert_camera_data (env : redis_env) (cam : Z) (count : Z)
  : M bool :=
  try_except is_Exception
    (c <- get_redis_client env ;;
     match c with
     | None => ret false
     | Some _ =>
         command (env_set env) (env_applied env)
           (fun st =>
              ({| alert_counter := alert_counter st;
                  alerts_queue := alerts_queue st;
                  crowd := crowd st; crowd_expire := crowd_expire st;
                  camera := <[cam := (count, env_strftime env)]> (camera st) |},
               tt)) ;;;
         logm INFO "Inserted metadata" ;;;
         ret true
     end)
    (fun _ => logm ERROR "Failed to insert metadata heartbeat" ;;; ret false).

(** ** The overflow overlay ([PolygonROIManager.draw_overlays]) *)

(** The loop of [draw_overlays] that paints overflowing regions red: the
    positions of the polygons it fills, in order.  The frame blinks when
    there is at least one.  Taking the length of an entry that is [None]
    raises. *)
Fixpoint blink_fills (ps : list roi_entry) (roi_counts ths : list Z)
    (i : nat) : list nat + exn :=
  match ps with
  | [] => inl []
  | None :: _ => inr TypeError
  | Some pts :: rest =>
      let fill :=
        (3 <=? length pts)%nat && (i <? length roi_counts)%nat &&
        (i <? length ths)%nat &&
        match roi_counts !! i, ths !! i with
        | Some count, Some th => th <=? count
        | _, _ => false
        end in
      match blink_fills rest roi_counts ths (S i) with
      | inl filled => inl (if fill then i :: filled else filled)
      | inr e => inr e
      end
  end.

(** ** The mailer ([send_email]) *)

(** The client object that [boto3.client('ses', ...)] returns. *)
Inductive ses_client : Type := SesClient.

(** What a call into AWS raises: a [ClientError] or another
    [Exception]; the mailer logs the two differently. *)
Inductive ses_fault : Type :=
  | ClientError
  | SesException (name : string).

(** What the configuration, AWS and the file system answer during one
    call: whether the two credentials are set, what creating the client
    and asking for the quota raise, whether the screenshot exists, and
    what reading it and sending the message raise. *)
Record mail_env : Type := MailEnv {
  AWS_ACCESS_KEY_ID_set : bool;
  AWS_SECRET_ACCESS_KEY_set : bool;
  ses_create : option ses_fault;
  ses_quota : option ses_fault;
  image_exists : bool;
  image_read : option exn;
  ses_send : option ses_fault
}.

(** The arguments of the mailer. *)
Record mail_args : Type := MailArgs {
  m_location : string;
  m_threshold : Z;
  m_timestamp : string;
  m_image_path : string;
  m_count : Z;
  m_sender_email : string;
  m_recipient_emails : list string
}.

(** The call [client.send_raw_email(Source, Destinations, RawMessage)]:
    the envelope, the [To] header, and what the subject and the body
    are filled with. *)
Record raw_email : Type := RawEmail {
  Source : string;
  Destinations : list string;
  header_To : string;
  subject_location : string;
  body_location : string;
  body_threshold : Z;
  body_count : Z;
  body_timestamp : string;
  attachment : string
}.

(** [sep.join(l)] *)
Fixpoint join (sep : string) (l : list string) : string :=
  match l with
  | [] => ""
  | [x] => x
  | x :: rest => x ++ sep ++ join sep rest
  end.

(** [get_ses_client]: the value returned and the module-level
    [SES_CLIENT] afterwards. *)
Definition get_ses_client (env : mail_env) (SES_CLIENT : option ses_client)
  : option ses_client * option ses_client * log :=
  match SES_CLIENT with
  | Some c => (Some c, Some c, [])
  | None =>
      if negb (AWS_ACCESS_KEY_ID_set env) ||
         negb (AWS_SECRET_ACCESS_KEY_set env) then
        (None, None, [Log ERROR "AWS credentials are not set in config.py."])
      else
        match ses_create env with
        | Some ClientError =>
            (None, None, [Log ERROR "Failed to initialize SES client"])
        | Some (SesException _) =>
            (None, None,
             [Log ERROR "An unexpected error occurred initializing SES client"])
        | None =>
            match ses_quota env with
            | Some ClientError =>
                (None, None, [Log ERROR "Failed to initialize SES client"])
            | Some (SesException _) =>
                (None, None,
                 [Log ERROR
                    "An unexpected error occurred initializing SES client"])
            | None =>
                (Some SesClient, Some SesClient,
                 [Log INFO "Initialized AWS SES client"])
            end
        end
  end.

(** The outcome of a send attempt: the value returned ([None] for a
    bare [return]) or the exception that escapes, [SES_CLIENT]
    afterwards, the log and the messages handed to SES. *)
Record send_outcome : Type := SendOutcome {
  send_result : option bool + exn;
  send_client : option ses_client;
  send_log : log;
  send_sent : list raw_email
}.

(** [_send_email_sync_target] *)
Definition _send_email_sync_target (env : mail_env) (a : mail_args)
    (SES_CLIENT : option ses_client) : send_outcome :=
  let '(client, SES_CLIENT, l) := get_ses_client env SES_CLIENT in
  match client with
  | None =>
      SendOutcome (inl None) SES_CLIENT
        (l ++ [Log ERROR "SES client not available. Cannot send email."]) []
  | Some _ =>
      match m_recipient_emails a with
      | [] =>
          SendOutcome (inl None) SES_CLIENT
            (l ++ [Log WARNING
                     "No recipient emails specified. Skipping email send."]) []
      | _ :: _ =>
          if negb (image_exists env) then
            SendOutcome (inl None) SES_CLIENT
              (l ++ [Log ERROR
                       "Screenshot file not found for email attachment"]) []
          else
            let msg :=
              {| Source := m_sender_email a;
                 Destinations := m_recipient_emails a;
                 header_To := join ", " (m_recipient_emails a);
                 subject_location := m_location a;
                 body_location := m_location a;
                 body_threshold := m_threshold a;
                 body_count := m_count a;
                 body_timestamp := m_timestamp a;
                 attachment := m_image_path a |} in
            match image_read env with
            | Some e =>
                if is_Exception e then
                  SendOutcome (inl (Some false)) SES_CLIENT
                    (l ++ [Log ERROR "Failed to attach image to email"]) []
                else SendOutcome (inr e) SES_CLIENT l []
            | None =>
                match ses_send env with
                | Some ClientError =>
                    SendOutcome (inl (Some false)) SES_CLIENT
                      (l ++ [Log ERROR "SES Error sending email"]) []
                | Some (SesException _) =>
                    SendOutcome (inl (Some false)) SES_CLIENT
                      (l ++ [Log ERROR "Unexpected error sending email"]) []
                | None =>
                    SendOutcome (inl (Some true)) SES_CLIENT
                      (l ++ [Log INFO "Email sent!"]) [msg]
                end
            end
      end
  end.

(** [send_email_with_image]: the arguments of the thread it starts, if
    it starts one.  [start_fault] is what [thread.start()] raises, if
    anything. *)
Definition send_email_with_image (a : mail_args) (start_fault : option exn)
  : (option mail_args * log) + exn :=
  match m_recipient_emails a with
  | [] =>
      inl (None,
           [Log INFO "No email recipients configured. Skipping email send."])
  | _ :: _ =>
      match start_fault with
      | Some e => inr e
      | None => inl (Some a, [Log INFO "Email sending thread started"])
      end
  end.

(** ** The supervisors of [detect] ([detects.main] and
    [app.run_detection_thread]) *)

(** What one call of [detect] meets: how its start-up goes, what
    stopping the stream raises, the iterations of its loop, and the
    answers of [cv2.waitKey] while the standalone program waits for
    [q] after a static source. *)
Record session : Type := Session {
  s_init : init_outcome;
  s_stop_fault : option exn;
  s_ticks : list tick;
  s_keys : list Z
}.

Inductive sup_event : Type :=
  | SupLog (lv : level) (msg : string)
  | SupDetect (evs : list event)
  | SupSleep (seconds : Z).

(** Where a supervisor stands when the sessions are used up: inside a
    call of [detect] that goes on, about to call [detect] again,
    waiting for [q], or past its loop. *)
Inductive sup_end : Type :=
  | SupInDetect (st : loop_state)
  | SupCallsDetect
  | SupWaitsForKey
  | SupExited.

(** [is_live] of [detects.main] *)
Definition is_live_standalone (source : string) : bool :=
  existsb (fun p => String.prefix p (lower source))
          ["rtsp://"; "rtmp://"; "http://"; "https://"] ||
  isnumeric source.

(** [is_live] of [app.run_detection_thread] *)
Definition is_live_web (source : string) : bool :=
  existsb (fun p => String.prefix p (lower source))
          ["rtsp://"; "rtmp://"; "http://"; "https://"].

Section Supervisors.

Variable fillPoly : nat -> nat -> list (Z * Z) -> list (list bool).
Variable detect_in_roi : image -> list box.

(** The [while True] loop of [detects.main]. *)
Fixpoint main_loop (cfg : config) (sessions : list session)
  : list sup_event * sup_end :=
  match sessions with
  | [] => ([], SupCallsDetect)
  | s :: rest =>
      let is_live := is_live_standalone (source cfg) in
      let '(evs, r) :=
        detect fillPoly detect_in_roi cfg (s_init s) (s_stop_fault s)
               (s_ticks s) in
      match r with
      | DetectRunning st => ([SupDetect evs], SupInDetect st)
      | DetectReturned =>
          if negb is_live then
            let finished :=
              SupLog INFO
                "Finished processing static source. Press 'q' to exit." in
            if existsb (fun key => Z.land key 255 =? 113) (s_keys s) then
              ([SupDetect evs; finished; SupLog INFO "Exiting program."],
               SupExited)
            else ([SupDetect evs; finished], SupWaitsForKey)
          else ([SupDetect evs], SupExited)
      | DetectRaised e =>
          if is_Exception e then
            let crashed := SupLog ERROR "Detection process crashed" in
            if is_live then
              let '(evs', r') := main_loop cfg rest in
              ([SupDetect evs; crashed;
                SupLog INFO "Reconnecting in 10 seconds..."; SupSleep 10]
                 ++ evs', r')
            else ([SupDetect evs; crashed], SupExited)
          else ([SupDetect evs; SupLog INFO "Exiting program."], SupExited)
      end
  end.

(** The [while True] loop of [app.run_detection_thread]. *)
Fixpoint detection_thread_loop (cfg : config) (sessions : list session)
  : list sup_event * sup_end :=
  match sessions with
  | [] => ([], SupCallsDetect)
  | s :: rest =>
      let attempt := SupLog INFO "Attempting to start detection on source" in
      let '(evs, r) :=
        detect fillPoly detect_in_roi cfg (s_init s) (s_stop_fault s)
               (s_ticks s) in
      match r with
      | DetectRunning st => ([attempt; SupDetect evs], SupInDetect st)
      | DetectReturned =>
          let '(evs', r') := detection_thread_loop cfg rest in
          ([attempt; SupDetect evs] ++ evs', r')
      | DetectRaised e =>
          if is_Exception e then
            let crashed := SupLog ERROR "Detection thread crashed" in
            let is_live := is_live_web (source cfg) in
            if is_live then
              let '(evs', r') := detection_thread_loop cfg rest in
              ([attempt; SupDetect evs; crashed;
                SupLog INFO
                  "Live stream connection lost. Retrying in 10 seconds...";
                SupSleep 10] ++ evs', r')
            else
              ([attempt; SupDetect evs; crashed;
                SupLog ERROR
                  "Error processing static source. Stopping thread."],
               SupExited)
          else
            ([attempt; SupDetect evs;
              SupLog INFO "Detection thread stopped by user."], SupExited)
      end
  end.

(** [run_detection_thread] *)
Definition run_detection_thread (cfg : config) (sessions : list session)
  : list sup_event * sup_end :=
  let '(evs, r) := detection_thread_loop cfg sessions in
  (SupLog INFO "Detection thread starting..." :: evs, r).

End Supervisors.

(** ** Sample inputs *)

(** A registry in numeric-input mode: a triangle awaits its threshold
    and nothing has been typed yet. *)
Definition awaiting_threshold : roi_manager :=
  {| polygons := []; roi_max_thresholds := []; current_polygon := [];
     edit_mode := true; drawing := false;
     selected_polygon := -1; drag_point_index := -1; mouse_pos := (0, 0);
     input_mode := true; input_buffer := "";
     input_prompt := "Enter Threshold for ROI #1 (then press Enter):";
     pending_polygon := Some [PTuple 0 0; PTuple 10 0; PTuple 10 10] |}.

(** The square of the specification's scenarios with threshold 3. *)
Definition square : polygon :=
  [PTuple 0 0; PTuple 10 0; PTuple 10 10; PTuple 0 10].

Definition one_square : roi_manager :=
  {| polygons := [Some square]; roi_max_thresholds := [3];
     current_polygon := [];
     edit_mode := false; drawing := false;
     selected_polygon := -1; drag_point_index := -1; mouse_pos := (0, 0);
     input_mode := false; input_buffer := ""; input_prompt := "";
     pending_polygon := None |}.

(** A mask that keeps every pixel, a detector that finds nothing, and
    one that finds four people in the square. *)
Definition full_mask (h w : nat) (_ : list (Z * Z)) : list (list bool) :=
  replicate h (replicate w true).

Definition no_detections (_ : image) : list box := [].

Definition four_detections (_ : image) : list box :=
  [(1, 1, 3, 3); (4, 4, 6, 6); (2, 6, 4, 8); (7, 1, 9, 3)]%Q.

(** [config.config_standalone]: the webcam, every frame processed. *)
Definition config_standalone : config :=
  {| source := "0"; skip_frames := 1; cam_id := 99 |}.

(** An iteration on a live 20 x 20 frame at time [now], in which the
    output sink raises [sink]. *)
Definition live_tick (now : Q) (sink : option exn) : tick :=
  {| t_read := (true, Some (zeros 20 20)); t_next := inr StopIteration;
     t_manager := one_square; t_now := now;
     t_fault_detect := None; t_fault_screenshot := None;
     t_fault_email := None; t_heartbeat_ok := true;
     t_fault_sink := sink |}.

(** The Redis server answers every call. *)
Definition redis_up : redis_env :=
  {| env_cached_ping := inl true; env_connect := None; env_incr := None;
     env_rpush := None; env_execute := None; env_set := None;
     env_applied := false;
     env_time := 1000; env_strftime := "2025-01-01T00:00:00" |}.

(** The Redis server refuses connections. *)
Definition redis_down : redis_env :=
  {| env_cached_ping := inr ConnectionLost;
     env_connect := Some ConnectionLost; env_incr := Some ConnectionLost;
     env_rpush := Some ConnectionLost; env_execute := Some ConnectionLost;
     env_set := Some ConnectionLost; env_applied := false;
     env_time := 1000; env_strftime := "2025-01-01T00:00:00" |}.

Definition redis_fresh : redis_state :=
  {| redis_client := None;
     store := {| alert_counter := 0; alerts_queue := []; crowd := ∅;
                 crowd_expire := ∅; camera := ∅ |} |}.

(** ** Notions used in the statements *)

(** The string consists of ASCII digits. *)
Definition all_digits (s : string) : bool :=
  forallb isdigit (list_ascii_of_string s).

(** [handle_key_input] called on each key in turn. *)
Definition handle_keys (keys : list Z) (m : roi_manager) : roi_manager :=
  fold_left (fun m key => fst (handle_key_input key m)) keys m.

(** The number that a string of digits spells. *)
Definition decimal_of (s : string) : Z :=
  fold_left (fun acc c => 10 * acc + digit_value c) (list_ascii_of_string s) 0.

(** A character that no integer literal contains: neither a digit, a
    blank, a sign nor an underscore. *)
Definition outside_literal (c : ascii) : bool :=
  negb (isdigit c || isspace c || Ascii.eqb c "+" || Ascii.eqb c "-" ||
        Ascii.eqb c "_").


(** The edges the loop of [pointPolygonTest] visits, given the vertex it
    starts from. *)
Fixpoint edges_from (v : Z * Z) (cnt : list (Z * Z))
  : list ((Z * Z) * (Z * Z)) :=
  match cnt with
  | [] => []
  | c :: rest => (v, c) :: edges_from c rest
  end.

(** The edges of the closed contour, in the order [pointPolygonTest]
    visits them: from the last vertex to the first, then along the
    list. *)
Definition closing_edges (cnt : list (Z * Z)) : list ((Z * Z) * (Z * Z)) :=
  match cnt with
  | [] => []
  | c :: _ => edges_from (List.last cnt c) cnt
  end.

(** The point lies on the edge; the ray from the point crosses the
    edge; the number of edges crossed. *)
Definition on_edge (ip : Z * Z) (e : (Z * Z) * (Z * Z)) : bool :=
  match classify_edge ip (fst e) (snd e) with OnEdge => true | _ => false end.

Definition crosses (ip : Z * Z) (e : (Z * Z) * (Z * Z)) : bool :=
  match classify_edge ip (fst e) (snd e) with Crossing => true | _ => false end.

Definition crossings (ip : Z * Z) (es : list ((Z * Z) * (Z * Z))) : Z :=
  Z.of_nat (length (List.filter (crosses ip) es)).

(** The reader thread has written the health state at least once: the
    source is flagged as reconnecting or holds a decoded frame. *)
Definition primed (s : streamer) : Prop :=
  is_reconnecting s = true \/ latest_frame s <> None.

(** The alerts a trace holds, oldest first: time, count, threshold. *)
Definition fired_alerts (evs : list event) : list (Q * Z * Z) :=
  flat_map (fun ev => match ev with
                      | EvAlert now total thr => [(now, total, thr)]
                      | _ => []
                      end) evs.

(** When an alert fired. *)
Definition alert_time (a : Q * Z * Z) : Q := fst (fst a).

(** Each alert met its condition against the time of the alert before
    it, [last] for the first one. *)
Fixpoint alerts_ok (last : Q) (alerts : list (Q * Z * Z)) : Prop :=
  match alerts with
  | [] => True
  | (now, total_detections, total_max_threshold) :: rest =>
      0 < total_detections /\ 0 < total_max_threshold /\
      total_max_threshold <= total_detections /\
      (ALERT_COOLDOWN_SECONDS < now - last)%Q /\
      alerts_ok now rest
  end.

(** The frame an iteration goes on to process, if any. *)
Definition frame_of (cfg : config) (t : tick) : option image :=
  if is_webcam (source cfg) then
    match t_read t with
    | (true, Some im0) => Some im0
    | _ => None
    end
  else
    match t_next t with
    | inl im0 => Some im0
    | inr _ => None
    end.

(** The claim that whatever the [try] block raises on the frame [im0]
    is logged and the loop resumes with the next iteration. *)
Definition frame_exception_contained
    (fillPoly : nat -> nat -> list (Z * Z) -> list (list bool))
    (detect_in_roi : image -> list box)
    (cfg : config) (st : loop_state)
    (t : tick) (im0 : image) (rest : list tick) : Prop :=
  forall e,
    b_raised (frame_body fillPoly detect_in_roi cfg st t im0) = Some e ->
    let b := frame_body fillPoly detect_in_roi cfg st t im0 in
    let resumed := detect_loop fillPoly detect_in_roi cfg (b_state b) rest in
    detect_loop fillPoly detect_in_roi cfg st (t :: rest) =
      ((b_events b ++ [EvLog ERROR "Error processing frame"])
         ++ fst resumed, snd resumed).

(** [get_redis_client] returned a client. *)
Definition client_obtained (env : redis_env) (s : redis_state) : bool :=
  match get_redis_client env s with
  | (inl (Some _), _, _) => true
  | _ => false
  end.

(** A helper returned the boolean [b]: it did not raise; if [b] is
    [False] an error was logged; and [b] is [True] exactly when the client
    was obtained and the commands, whose faults are [faults], all
    succeeded. *)
Definition best_effort (env : redis_env) (s : redis_state)
    (faults : list (option redis_fault))
    (outcome : (bool + exn) * redis_state * log) : Prop :=
  exists b s' l,
    outcome = (inl b, s', l) /\
    (b = false -> has_level ERROR l = true) /\
    (b = true <->
     client_obtained env s = true /\ Forall (fun f => f = None) faults).

(** The registry is between two interactions or in one of them
    consistently: a pending numeric input has a polygon of at least
    three vertices waiting, and excludes drawing. *)
Definition interaction_consistent (m : roi_manager) : Prop :=
  input_mode m = true ->
  drawing m = false /\
  exists p, pending_polygon m = Some p /\ (3 <= length p)%nat.

(** Operations that numeric-input mode does not act on: mouse events,
    and keys other than Enter and Escape. *)
Definition passive_in_input_mode (o : registry_op) : Prop :=
  match o with
  | OpMouse _ _ _ => True
  | OpKey key _ => key <> 13 /\ key <> 27
  | _ => False
  end.

(** The keys of the digits [ds], and the number they spell. *)
Definition digit_keys (ds : list Z) : list Z := map (fun d => 48 + d) ds.

Definition decimal (ds : list Z) : Z :=
  fold_left (fun acc d => 10 * acc + d) ds 0.

(** The string that the digits [ds] spell. *)
Definition digit_string (ds : list Z) : string :=
  string_of_list_ascii (map (fun d => chr (48 + d)) ds).

(** The vertex is closer than 10 pixels to [(x, y)]. *)
Definition near (x y : Z) (p : point) : Prop :=
  (x - fst (coords p)) ^ 2 + (y - snd (coords p)) ^ 2 < 100.

(** No vertex of any polygon is closer than 10 pixels to [(x, y)]. *)
Definition far_from_all (x y : Z) (ps : list roi_entry) : Prop :=
  Forall (fun e => exists pts, e = Some pts /\
                               Forall (fun p => ~ near x y p) pts) ps.

(** Vertex [j] of polygon [i] is the first one, in the order of the
    registry, closer than 10 pixels to [(x, y)]. *)
Definition first_near (x y : Z) (ps : list roi_entry) (i j : nat) : Prop :=
  exists pts p,
    ps !! i = Some (Some pts) /\ pts !! j = Some p /\ near x y p /\
    Forall (fun p' => ~ near x y p') (take j pts) /\
    far_from_all x y (take i ps).

(** Left clicks on the given positions. *)
Definition clicks (cs : list (Z * Z)) : list registry_op :=
  map (fun c => OpMouse EVENT_LBUTTONDOWN (fst c) (snd c)) cs.

(** The given digits typed on the keyboard of the standalone
    application. *)
Definition typed (ds : list Z) (w : write_outcome) : list registry_op :=
  map (fun d => OpKey (48 + d) w) ds.

(** Every row of the frame is as long as the first. *)
Definition rectangular (im : image) : Prop :=
  Forall (fun row => length row = length (hd [] im)) im.

(** [fillPoly] returns a mask of the height and width it was given. *)
Definition mask_shaped
    (fillPoly : nat -> nat -> list (Z * Z) -> list (list bool)) : Prop :=
  forall h w pts,
    length (fillPoly h w pts) = h /\
    Forall (fun row => length row = w) (fillPoly h w pts).

(** How many alerts were fired, pushed to Redis and mailed in a
    trace. *)
Definition count_alerts (evs : list event) : nat :=
  length (List.filter (fun ev => match ev with EvAlert _ _ _ => true
                                          | _ => false end) evs).

Definition count_pushes (evs : list event) : nat :=
  length (List.filter (fun ev => match ev with EvPushAlert _ _ => true
                                          | _ => false end) evs).

Definition count_emails (evs : list event) : nat :=
  length (List.filter (fun ev => match ev with EvEmail _ _ => true
                                          | _ => false end) evs).

(** Every exception the iteration may meet derives from [Exception],
    and the sink accepts a placeholder frame. *)
Definition survivable (t : tick) : Prop :=
  (forall e, t_fault_detect t = Some e \/ t_fault_screenshot t = Some e \/
             t_fault_email t = Some e \/ t_fault_sink t = Some e ->
             is_Exception e = true) /\
  (forall im, t_read t = (false, Some im) -> t_fault_sink t = None).

(** The iteration reads a live frame from the stream source. *)
Definition live_frame (t : tick) : bool :=
  match t_read t with
  | (true, Some _) => true
  | _ => false
  end.

(** The stream source is down at the iteration: no frame, or a
    placeholder that the sink accepts. *)
Definition outage (t : tick) : Prop :=
  fst (t_read t) = false /\ t_fault_sink t = None \/ snd (t_read t) = None.

(** The placeholder frames an outage sends to the sink. *)
Definition placeholders (ticks : list tick) : list event :=
  flat_map (fun t => match snd (t_read t) with
                     | Some _ => [EvFrameOut false]
                     | None => []
                     end) ticks.

(** The iteration analyses its frame: the stride lets it through and
    nothing raises before the alert decision. *)
Definition analysed (cfg : config) (st : loop_state) (t : tick) : bool :=
  negb (skip_frames cfg =? 0) &&
  ((processed_frames st + 1) mod skip_frames cfg =? 0) &&
  match t_fault_detect t with None => true | Some _ => false end.

(** Two squares with thresholds 1 and 10, and an iteration on a live
    120 x 120 frame showing them. *)
Definition two_squares : roi_manager :=
  set_rois
    [Some square;
     Some [PTuple 100 100; PTuple 110 100; PTuple 110 110; PTuple 100 110]]
    [1; 10] init_manager.

Definition two_squares_tick (now : Q) : tick :=
  {| t_read := (true, Some (zeros 120 120)); t_next := inr StopIteration;
     t_manager := two_squares; t_now := now;
     t_fault_detect := None; t_fault_screenshot := None;
     t_fault_email := None; t_heartbeat_ok := true;
     t_fault_sink := None |}.

(** An iteration on the square in which saving the screenshot fails. *)
Definition failed_screenshot_tick (now : Q) : tick :=
  {| t_read := (true, Some (zeros 20 20)); t_next := inr StopIteration;
     t_manager := one_square; t_now := now;
     t_fault_detect := None; t_fault_screenshot := Some OSError;
     t_fault_email := None; t_heartbeat_ok := true;
     t_fault_sink := None |}.

(** An iteration during an outage: the source hands out a placeholder. *)
Definition placeholder_tick : tick :=
  {| t_read := (false, Some (zeros 2 2)); t_next := inr StopIteration;
     t_manager := one_square; t_now := 1000;
     t_fault_detect := None; t_fault_screenshot := None;
     t_fault_email := None; t_heartbeat_ok := true;
     t_fault_sink := None |}.

(** A call of one of the Redis helpers, with what the world answers
    during it. *)
Inductive redis_call : Type :=
  | CallPushAlert (env : redis_env) (cam : Z) (name : string) (count : Z)
      (message level : string) (screenshot_path : option string)
      (max_threshold_total : option Z)
  | CallUpdateCrowdCount (env : redis_env) (cam count : Z)
  | CallInsertCameraData (env : redis_env) (cam count : Z).

(** The state a call leaves behind. *)
Definition after_call (c : redis_call) (s : redis_state) : redis_state :=
  match c with
  | CallPushAlert env cam name count message level shot thr =>
      snd (fst (push_alert env cam name count message level shot thr s))
  | CallUpdateCrowdCount env cam count =>
      snd (fst (update_crowd_count env cam count s))
  | CallInsertCameraData env cam count =>
      snd (fst (insert_camera_data env cam count s))
  end.

Definition after_calls (cs : list redis_call) (s : redis_state) : redis_state :=
  fold_left (fun s c => after_call c s) cs s.

(** The identifiers of the queued alerts grow strictly along the queue
    and none exceeds the counter. *)
Definition ids_in_order (st : redis_store) : Prop :=
  (forall (i j : nat) (a b : alert),
      (i < j)%nat -> alerts_queue st !! i = Some a ->
      alerts_queue st !! j = Some b -> alert_id a < alert_id b) /\
  Forall (fun a => alert_id a <= alert_counter st) (alerts_queue st).

(** What a helper returned, [None] if it raised. *)
Definition returned {A} (r : (A + exn) * redis_state * log) : option A :=
  match fst (fst r) with
  | inl a => Some a
  | inr _ => None
  end.

(** What the world answers during a call. *)
Definition call_env (c : redis_call) : redis_env :=
  match c with
  | CallPushAlert env _ _ _ _ _ _ _ => env
  | CallUpdateCrowdCount env _ _ => env
  | CallInsertCameraData env _ _ => env
  end.

(** What a call returned, [None] if it raised. *)
Definition call_result (c : redis_call) (s : redis_state) : option bool :=
  match c with
  | CallPushAlert env cam name count message level shot thr =>
      returned (push_alert env cam name count message level shot thr s)
  | CallUpdateCrowdCount env cam count =>
      returned (update_crowd_count env cam count s)
  | CallInsertCameraData env cam count =>
      returned (insert_camera_data env cam count s)
  end.

(** A store holding two alerts queued by earlier calls. *)
Definition redis_two_alerts : redis_state :=
  after_calls
    [CallPushAlert redis_up 7 "Gate" 12 "High crowd density" "warning"
       (Some "http://host/uploads/a.jpg") (Some 10);
     CallUpdateCrowdCount redis_up 7 12;
     CallPushAlert redis_up 7 "Gate" 15 "High crowd density" "warning"
       None (Some 10)]
    redis_fresh.

(** The reader thread has written to the streamer at least once: it
    has stored a frame or announced a reconnection. *)
Definition written (s : streamer) : Prop :=
  is_reconnecting s = true \/ latest_frame s <> None.

(** A streamer whose reader has stored a first frame. *)
Definition streamer_with_frame : streamer :=
  {| width := 2; height := 2; running := true;
     latest_frame := Some (zeros 2 2); last_frame_time := 5%Q;
     is_reconnecting := false |}.

(** A call of [get_ses_client] with no cached client gets one: both
    credentials are set and AWS accepts them. *)
Definition ses_initialises (env : mail_env) : bool :=
  AWS_ACCESS_KEY_ID_set env && AWS_SECRET_ACCESS_KEY_set env &&
  match ses_create env, ses_quota env with
  | None, None => true
  | _, _ => false
  end.

(** A send attempt has a client to work with. *)
Definition ses_available (env : mail_env) (SES_CLIENT : option ses_client)
  : bool :=
  match SES_CLIENT with
  | Some _ => true
  | None => ses_initialises env
  end.

(** [SES_CLIENT] after a series of send attempts. *)
Definition client_after (attempts : list (mail_env * mail_args))
    (SES_CLIENT : option ses_client) : option ses_client :=
  fold_left
    (fun c (at_ : mail_env * mail_args) =>
       send_client (_send_email_sync_target (fst at_) (snd at_) c))
    attempts SES_CLIENT.

(** An alert mail for two recipients, and a world in which everything
    works. *)
Definition sample_mail : mail_args :=
  {| m_location := "Gate"; m_threshold := 10;
     m_timestamp := "2025-01-01 00:00:00";
     m_image_path := "screenshots/alert_cam_99.jpg"; m_count := 12;
     m_sender_email := "alerts@example.org";
     m_recipient_emails := ["a@example.org"; "b@example.org"] |}.

Definition mail_up : mail_env :=
  {| AWS_ACCESS_KEY_ID_set := true; AWS_SECRET_ACCESS_KEY_set := true;
     ses_create := None; ses_quota := None; image_exists := true;
     image_read := None; ses_send := None |}.
(** The string holds ASCII characters only. *)
Definition is_ascii (s : string) : bool :=
  forallb (fun c => (nat_of_ascii c <? 128)%nat) (list_ascii_of_string s).

(** The calls of [detect] a supervisor made, and the seconds it slept
    between them. *)
Definition runs (evs : list sup_event) : nat :=
  length (List.filter (fun e => match e with SupDetect _ => true | _ => false end)
                 evs).

Definition slept (evs : list sup_event) : Z :=
  fold_right (fun e acc => match e with SupSleep n => n + acc | _ => acc end)
             0 evs.

(** A session in which [detect] raises an [Exception], and one in
    which it returns. *)
Definition crashes (fillPoly : nat -> nat -> list (Z * Z) -> list (list bool))
    (detect_in_roi : image -> list box) (cfg : config) (s : session) : Prop :=
  exists e,
    snd (detect fillPoly detect_in_roi cfg (s_init s) (s_stop_fault s)
           (s_ticks s)) = DetectRaised e /\
    is_Exception e = true.

Definition returns (fillPoly : nat -> nat -> list (Z * Z) -> list (list bool))
    (detect_in_roi : image -> list box) (cfg : config) (s : session) : Prop :=
  snd (detect fillPoly detect_in_roi cfg (s_init s) (s_stop_fault s)
         (s_ticks s)) = DetectReturned.

(** A network camera, a video file, a camera that cannot be opened and
    a file that has been read to its end. *)
Definition config_rtsp : config :=
  {| source := "rtsp://10.0.0.5/stream"; skip_frames := 1; cam_id := 99 |}.

Definition config_file : config :=
  {| source := "crowd.mp4"; skip_frames := 1; cam_id := 99 |}.

Definition failing_session : session :=
  {| s_init := InitRaises BeforeDataset OSError; s_stop_fault := None;
     s_ticks := []; s_keys := [] |}.

Definition finished_session : session :=
  {| s_init := InitOk; s_stop_fault := None;
     s_ticks := [live_tick 1000 None]; s_keys := [] |}.

(** The messages that a call of [send_email_with_image] gets handed to
    SES once its thread has run. *)
Definition mailed (env : mail_env) (a : mail_args) (start_fault : option exn)
    (SES_CLIENT : option ses_client) : list raw_email :=
  match send_email_with_image a start_fault with
  | inl (Some job, _) => send_sent (_send_email_sync_target env job SES_CLIENT)
  | _ => []
  end.







(** * Properties *)

(** ** Strings of digits *)

Lemma list_ascii_of_string_app (s1 s2 : string) :
  list_ascii_of_string (s1 +:+ s2) =
  list_ascii_of_string s1 ++ list_ascii_of_string s2.
Proof.
  induction s1 as [|c s1 IH]; simpl; [reflexivity | now rewrite IH].
Qed.

Lemma all_digits_app (s1 s2 : string) :
  all_digits (s1 +:+ s2) = all_digits s1 && all_digits s2.
Proof.
  unfold all_digits. rewrite list_ascii_of_string_app. apply forallb_app.
Qed.

Lemma forallb_removelast {A} (f : A -> bool) (l : list A) :
  forallb f l = true -> forallb f (removelast l) = true.
Proof.
  induction l as [|a [|b l] IH]; simpl; intros H; try reflexivity.
  apply andb_true_iff in H as [Ha Hl]. rewrite Ha. simpl. apply IH, Hl.
Qed.

Lemma all_digits_drop_last (s : string) :
  all_digits s = true -> all_digits (drop_last s) = true.
Proof.
  unfold all_digits, drop_last. rewrite list_ascii_of_string_of_list_ascii.
  apply forallb_removelast.
Qed.

Lemma drop_last_snoc (s : string) (c : ascii) :
  drop_last (s +:+ String c "") = s.
Proof.
  unfold drop_last. rewrite list_ascii_of_string_app. simpl.
  rewrite removelast_last. apply string_of_list_ascii_of_string.
Qed.

Lemma isdigit_not_space (c : ascii) : isdigit c = true -> isspace c = false.
Proof.
  unfold isdigit, isspace. cbv zeta. intros H.
  apply andb_true_iff in H as [H1 H2].
  apply Nat.leb_le in H1. apply Nat.leb_le in H2.
  assert (E1 : (nat_of_ascii c <=? 13)%nat = false)
    by (apply Nat.leb_gt; lia).
  assert (E2 : (nat_of_ascii c =? 32)%nat = false)
    by (apply Nat.eqb_neq; lia).
  assert (E3 : (nat_of_ascii c =? 133)%nat = false)
    by (apply Nat.eqb_neq; lia).
  assert (E4 : (nat_of_ascii c =? 160)%nat = false)
    by (apply Nat.eqb_neq; lia).
  rewrite E1, E2, E3, E4, andb_false_r. reflexivity.
Qed.

Lemma lstrip_digits (l : list ascii) :
  forallb isdigit l = true -> lstrip l = l.
Proof.
  destruct l as [|c l]; simpl; [reflexivity|].
  intros H. apply andb_true_iff in H as [Hc _].
  now rewrite (isdigit_not_space c Hc).
Qed.

Lemma strip_digits (l : list ascii) :
  forallb isdigit l = true -> strip l = l.
Proof.
  intros H. unfold strip. rewrite (lstrip_digits l H).
  rewrite lstrip_digits.
  - apply rev_involutive.
  - rewrite forallb_forall in *. intros x Hx. apply H. now apply in_rev.
Qed.

Lemma parse_digits_value (l : list ascii) :
  forallb isdigit l = true ->
  forall acc b, l <> [] \/ b = true ->
    parse_digits l acc b =
    Some (fold_left (fun acc c => 10 * acc + digit_value c) l acc).
Proof.
  induction l as [|c l IH]; simpl; intros H acc b Hne.
  - destruct Hne as [Hne | ->]; [congruence | reflexivity].
  - apply andb_true_iff in H as [Hc Hl]. rewrite Hc.
    apply IH; [exact Hl | now right].
Qed.

Lemma isdigit_not_sign (c : ascii) :
  isdigit c = true -> Ascii.eqb c "-" = false /\ Ascii.eqb c "+" = false.
Proof.
  intros H. split; apply Ascii.eqb_neq; intros ->; vm_compute in H; discriminate.
Qed.

Lemma filter_all {A} (f : A -> bool) (l : list A) :
  forallb f l = true -> List.filter f l = l.
Proof.
  induction l as [|a l IH]; simpl; [reflexivity|].
  intros H. apply andb_true_iff in H as [Ha Hl]. rewrite Ha.
  now rewrite IH.
Qed.

Lemma length_list_ascii_of_string (s : string) :
  length (list_ascii_of_string s) = String.length s.
Proof. induction s as [|c s IH]; simpl; [reflexivity | now rewrite IH]. Qed.

(** On a string of ASCII digits [int] looks at the number of digits
    only: it refuses more than 4300 of them. *)
Lemma py_int_on_digits (s : string) :
  all_digits s = true -> s <> "" ->
  py_int s =
  if (int_max_str_digits <? String.length s)%nat then None
  else Some (decimal_of s).
Proof.
  unfold all_digits, py_int, decimal_of. intros H Hne.
  rewrite (strip_digits _ H).
  rewrite <- (length_list_ascii_of_string s).
  destruct s as [|c s]; [congruence|].
  change (list_ascii_of_string (String c s))
    with (c :: list_ascii_of_string s) in *.
  pose proof H as H'. simpl in H'. apply andb_true_iff in H' as [Hc Hs].
  destruct (isdigit_not_sign c Hc) as [-> ->].
  cbn [orb]. rewrite (filter_all _ _ H).
  destruct (int_max_str_digits <? length (c :: list_ascii_of_string s))%nat;
    [reflexivity|].
  apply parse_digits_value; [exact H | now left].
Qed.

(** [int] succeeds on every non-empty string of at most 4300 ASCII
    digits, with the number the digits spell. *)
Lemma py_int_digits (s : string) :
  all_digits s = true -> s <> "" ->
  (String.length s <= int_max_str_digits)%nat ->
  py_int s = Some (decimal_of s).
Proof.
  intros H Hne Hlen. rewrite (py_int_on_digits s H Hne).
  apply Nat.ltb_ge in Hlen. now rewrite Hlen.
Qed.

(** [int] raises on more than 4300 digits. *)
Lemma py_int_too_long (s : string) :
  all_digits s = true ->
  (int_max_str_digits < String.length s)%nat ->
  py_int s = None.
Proof.
  intros H Hlen.
  assert (Hne : s <> "") by (intros ->; simpl in Hlen; lia).
  rewrite (py_int_on_digits s H Hne).
  apply Nat.ltb_lt in Hlen. now rewrite Hlen.
Qed.

Lemma lstrip_keeps (c : ascii) (l : list ascii) :
  In c l -> isspace c = false -> In c (lstrip l).
Proof.
  induction l as [|x l IH]; simpl; [tauto|].
  intros [-> | Hin] Hc.
  - rewrite Hc. now left.
  - destruct (isspace x); [now apply IH | now right].
Qed.

Lemma strip_keeps (c : ascii) (l : list ascii) :
  In c l -> isspace c = false -> In c (strip l).
Proof.
  intros Hin Hc. unfold strip. apply -> in_rev.
  apply lstrip_keeps; [|exact Hc]. apply -> in_rev.
  now apply lstrip_keeps.
Qed.

Lemma parse_digits_outside (c : ascii) (l : list ascii) :
  In c l -> isdigit c = false -> Ascii.eqb c "_" = false ->
  forall acc b, parse_digits l acc b = None.
Proof.
  intros Hin Hd Hu. induction l as [|x l IH]; [contradiction|].
  intros acc b. simpl. destruct Hin as [-> | Hin].
  - now rewrite Hd, Hu.
  - destruct (isdigit x); [now apply IH|].
    destruct (Ascii.eqb x "_"); [|reflexivity].
    destruct b; [now apply IH | reflexivity].
Qed.

(** [int] raises on a string that holds a character which is neither a
    digit, a blank, a sign nor an underscore. *)
Lemma py_int_outside (s : string) (c : ascii) :
  In c (list_ascii_of_string s) -> outside_literal c = true ->
  py_int s = None.
Proof.
  unfold outside_literal. intros Hin Hout.
  apply negb_true_iff in Hout.
  repeat (apply orb_false_iff in Hout as [Hout ?]).
  rename Hout into Hd.
  pose proof (strip_keeps c _ Hin ltac:(assumption)) as Hin'.
  unfold py_int.
  destruct (strip (list_ascii_of_string s)) as [|c0 l0]; [reflexivity|].
  assert (Hl0 : Ascii.eqb c0 "-" || Ascii.eqb c0 "+" = true -> In c l0).
  { intros Hs. destruct Hin' as [<- | Hin']; [|exact Hin'].
    apply orb_true_iff in Hs as [Hs | Hs]; congruence. }
  cbv zeta.
  destruct (_ <? _)%nat; [reflexivity|].
  destruct (Ascii.eqb c0 "-") eqn:Em.
  { rewrite (parse_digits_outside c l0); auto. }
  destruct (Ascii.eqb c0 "+") eqn:Ep.
  { apply (parse_digits_outside c l0); auto. }
  apply (parse_digits_outside c (c0 :: l0)); auto.
Qed.

(** ** The ROI registry *)

Lemma handle_key_input_all_digits (key : Z) (m : roi_manager) :
  all_digits (input_buffer m) = true ->
  all_digits (input_buffer (fst (handle_key_input key m))) = true.
Proof.
  intros H. unfold handle_key_input.
  destruct (input_mode m); simpl; [|exact H].
  destruct (key =? 13); [reflexivity|].
  destruct (key =? 8); [now apply all_digits_drop_last|].
  destruct (key =? 27); [reflexivity|].
  destruct ((32 <=? key) && (key <? 127)); [|exact H].
  destruct (isdigit (chr key)) eqn:Hd; [|exact H].
  simpl. rewrite all_digits_app, H. unfold all_digits. simpl. now rewrite Hd.
Qed.

Lemma handle_keys_all_digits (keys : list Z) (m : roi_manager) :
  all_digits (input_buffer m) = true ->
  all_digits (input_buffer (handle_keys keys m)) = true.
Proof.
  revert m. induction keys as [|k keys IH]; intros m H; simpl; [exact H|].
  apply IH, handle_key_input_all_digits, H.
Qed.

Lemma entered_threshold_spec (buffer : string) :
  entered_threshold buffer = default DEFAULT_THRESHOLD (py_int buffer).
Proof.
  unfold entered_threshold.
  destruct (String.eqb_spec buffer "") as [-> | _]; [reflexivity|].
  now destruct (py_int buffer).
Qed.

Lemma chr_digit (key : Z) : 48 <= key <= 57 -> isdigit (chr key) = true.
Proof.
  intros H.
  assert (Hk : key = 48 \/ key = 49 \/ key = 50 \/ key = 51 \/ key = 52 \/
               key = 53 \/ key = 54 \/ key = 55 \/ key = 56 \/ key = 57) by lia.
  repeat (destruct Hk as [-> | Hk]; [reflexivity|]). now subst.
Qed.

Lemma digit_key_char (d : Z) :
  0 <= d <= 9 ->
  isdigit (chr (48 + d)) = true /\ digit_value (chr (48 + d)) = d.
Proof.
  intros H.
  assert (Hd : d = 0 \/ d = 1 \/ d = 2 \/ d = 3 \/ d = 4 \/ d = 5 \/ d = 6 \/
               d = 7 \/ d = 8 \/ d = 9) by lia.
  repeat (destruct Hd as [-> | Hd]; [split; reflexivity|]).
  subst. split; reflexivity.
Qed.

Lemma digit_key_step (m : roi_manager) (d : Z) :
  input_mode m = true -> 0 <= d <= 9 ->
  let m' := fst (handle_key_input (48 + d) m) in
  input_buffer m' = input_buffer m +:+ String (chr (48 + d)) "" /\
  input_mode m' = true /\
  polygons m' = polygons m /\
  roi_max_thresholds m' = roi_max_thresholds m /\
  pending_polygon m' = pending_polygon m.
Proof.
  intros Hmode Hd.
  assert (Hk : (48 + d =? 13) = false /\ (48 + d =? 8) = false /\
               (48 + d =? 27) = false /\
               (32 <=? 48 + d) && (48 + d <? 127) = true)
    by (repeat split; lia).
  destruct Hk as (H13 & H8 & H27 & Hrange).
  unfold handle_key_input.
  rewrite Hmode, H13, H8, H27, Hrange, (proj1 (digit_key_char d Hd)). simpl.
  rewrite Hmode. auto.
Qed.

Lemma handle_keys_app (l1 l2 : list Z) (m : roi_manager) :
  handle_keys (l1 ++ l2) m = handle_keys l2 (handle_keys l1 m).
Proof. unfold handle_keys. apply fold_left_app. Qed.

Lemma string_app_assoc (a b c : string) : (a +:+ b) +:+ c = a +:+ (b +:+ c).
Proof.
  induction a as [|x a IH]; [reflexivity|].
  change (String x ((a +:+ b) +:+ c) = String x (a +:+ (b +:+ c))).
  now f_equal.
Qed.

Lemma string_app_empty (a : string) : a +:+ "" = a.
Proof.
  induction a as [|x a IH]; [reflexivity|].
  change (String x (a +:+ "") = String x a). now f_equal.
Qed.

(** Typing digits in input mode only grows the buffer. *)
Lemma handle_keys_digits (ds : list Z) :
  Forall (fun d => 0 <= d <= 9) ds ->
  forall m, input_mode m = true ->
    let m' := handle_keys (digit_keys ds) m in
    input_buffer m' = input_buffer m +:+ digit_string ds /\
    input_mode m' = true /\
    polygons m' = polygons m /\
    roi_max_thresholds m' = roi_max_thresholds m /\
    pending_polygon m' = pending_polygon m.
Proof.
  unfold digit_string.
  induction 1 as [|d ds Hd Hds IH]; intros m Hmode.
  - simpl. now rewrite string_app_empty.
  - destruct (digit_key_step m d Hmode Hd) as (Hb & Hm & Hp & Ht & Hq).
    specialize (IH _ Hm). simpl in *.
    destruct IH as (IHb & IHm & IHp & IHt & IHq).
    rewrite IHb, Hb, string_app_assoc. simpl.
    repeat split; congruence.
Qed.

Lemma digit_string_all_digits (ds : list Z) :
  Forall (fun d => 0 <= d <= 9) ds -> all_digits (digit_string ds) = true.
Proof.
  intros Hds. unfold all_digits, digit_string.
  rewrite list_ascii_of_string_of_list_ascii.
  apply forallb_forall. intros c Hc. apply in_map_iff in Hc as (d & <- & Hd).
  rewrite List.Forall_forall in Hds. now apply digit_key_char, Hds.
Qed.

Lemma digit_string_length (ds : list Z) :
  String.length (digit_string ds) = length ds.
Proof.
  unfold digit_string. rewrite <- length_list_ascii_of_string.
  rewrite list_ascii_of_string_of_list_ascii. apply length_map.
Qed.

Lemma decimal_of_digit_string (ds : list Z) :
  Forall (fun d => 0 <= d <= 9) ds -> decimal_of (digit_string ds) = decimal ds.
Proof.
  intros Hds. unfold decimal_of, digit_string, decimal.
  rewrite list_ascii_of_string_of_list_ascii.
  generalize 0. induction Hds as [|d ds Hd Hds IH]; intros acc;
    [reflexivity|].
  simpl. rewrite (proj2 (digit_key_char d Hd)). apply IH.
Qed.

(** [int] of the string that at most 4300 digits spell is the number
    they spell. *)
Lemma py_int_decimal (ds : list Z) :
  Forall (fun d => 0 <= d <= 9) ds -> ds <> [] ->
  (length ds <= int_max_str_digits)%nat ->
  py_int (digit_string ds) = Some (decimal ds).
Proof.
  intros Hds Hne Hlen.
  rewrite py_int_digits.
  - now rewrite decimal_of_digit_string.
  - now apply digit_string_all_digits.
  - destruct ds; [congruence | discriminate].
  - now rewrite digit_string_length.
Qed.

(** C9: starting from an empty buffer, whatever keys [handle_key_input]
    processes, the buffer holds ASCII digits only.  So when Enter finds
    it non-empty and of at most 4300 digits, [int] returns the number
    the digits spell and the [ValueError] fallback is not taken; beyond
    4300 digits [int] raises and the fallback gives the default. *)
Theorem C9_buffer_digits_only (m : roi_manager) (keys : list Z) :
  input_buffer m = "" ->
  let m' := handle_keys keys m in
  all_digits (input_buffer m') = true /\
  (input_buffer m' <> "" ->
   (String.length (input_buffer m') <= int_max_str_digits)%nat ->
   py_int (input_buffer m') = Some (decimal_of (input_buffer m')) /\
   entered_threshold (input_buffer m') = decimal_of (input_buffer m')) /\
  ((int_max_str_digits < String.length (input_buffer m'))%nat ->
   py_int (input_buffer m') = None /\
   entered_threshold (input_buffer m') = DEFAULT_THRESHOLD).
Proof.
  intros Hempty m'.
  assert (Hd : all_digits (input_buffer m') = true).
  { apply handle_keys_all_digits. now rewrite Hempty. }
  split; [exact Hd|]. split.
  - intros Hne Hlen. pose proof (py_int_digits _ Hd Hne Hlen) as Hn.
    split; [exact Hn|]. now rewrite entered_threshold_spec, Hn.
  - intros Hlen. pose proof (py_int_too_long _ Hd Hlen) as Hn.
    split; [exact Hn|]. now rewrite entered_threshold_spec, Hn.
Qed.

(** The witness of C9: the keys 1, 2, backspace, 5 typed after a
    polygon was closed leave the buffer [15]. *)
Lemma C9_buffer_digits_only_witness :
  let m' := handle_keys [49; 50; 8; 53] awaiting_threshold in
  input_buffer awaiting_threshold = "" /\
  all_digits (input_buffer m') = true /\
  entered_threshold (input_buffer m') = 15.
Proof.
  destruct (C9_buffer_digits_only awaiting_threshold [49; 50; 8; 53] eq_refl)
    as (Hd & Hshort & _).
  split; [reflexivity|]. split; [exact Hd|].
  exact (proj2 (Hshort ltac:(discriminate) ltac:(vm_compute; lia))).
Defined.

(** The counterexample to C9 as stated: after the key 1 typed 4301
    times the buffer is non-empty and all digits, yet [int] raises on
    it and Enter appends the default threshold. *)
Lemma C9_too_many_digits_take_the_fallback :
  let m' := handle_keys (digit_keys (repeat 1 4301)) awaiting_threshold in
  input_buffer awaiting_threshold = "" /\
  all_digits (input_buffer m') = true /\
  input_buffer m' <> "" /\
  py_int (input_buffer m') = None /\
  roi_max_thresholds (fst (handle_key_input 13 m')) = [DEFAULT_THRESHOLD].
Proof.
  assert (Hds : Forall (fun d => 0 <= d <= 9) (repeat 1 4301)).
  { apply List.Forall_forall. intros d Hd. apply repeat_spec in Hd. lia. }
  destruct (handle_keys_digits _ Hds awaiting_threshold eq_refl)
    as (Hb & Hm & _ & Ht & _).
  cbv zeta. set (m' := handle_keys _ awaiting_threshold) in *.
  change (input_buffer awaiting_threshold) with "" in Hb.
  change ("" +:+ digit_string (repeat 1 4301))
    with (digit_string (repeat 1 4301)) in Hb.
  assert (Hall : all_digits (input_buffer m') = true)
    by (rewrite Hb; now apply digit_string_all_digits).
  assert (Hlen : String.length (input_buffer m') = 4301%nat)
    by (rewrite Hb, digit_string_length; apply repeat_length).
  assert (Hnone : py_int (input_buffer m') = None).
  { apply py_int_too_long; [exact Hall|].
    rewrite Hlen. unfold int_max_str_digits. apply Nat.ltb_lt. reflexivity. }
  split; [reflexivity|]. split; [exact Hall|]. split.
  { intros E. rewrite E in Hlen. discriminate Hlen. }
  split; [exact Hnone|].
  unfold handle_key_input. rewrite Hm. cbn [negb Z.eqb fst].
  change (13 =? 13) with true. cbv iota.
  cbn [fst cancel_input set_rois roi_max_thresholds].
  rewrite Ht, entered_threshold_spec, Hnone. reflexivity.
Qed.

(** C7: in numeric-input mode a digit key is appended to the buffer,
    backspace removes the last character of the buffer, Enter appends
    the pending polygon and a threshold and leaves input mode, and
    Escape leaves input mode with polygons and thresholds as they were.
    The threshold is what [int] makes of the buffer, and 50 when [int]
    raises: it is 50 for the empty buffer, the number spelt for a
    buffer of 1 to 4300 digits, 50 for more digits than that, and 50
    for a buffer holding a character no integer literal contains. *)
Theorem C7_handle_key_input (m : roi_manager) :
  input_mode m = true ->
  (forall key, 48 <= key <= 57 ->
     let m' := fst (handle_key_input key m) in
     input_buffer m' = input_buffer m +:+ String (chr key) "" /\
     input_mode m' = true /\
     polygons m' = polygons m /\
     roi_max_thresholds m' = roi_max_thresholds m /\
     pending_polygon m' = pending_polygon m) /\
  (let m' := fst (handle_key_input 8 m) in
     input_buffer m' = drop_last (input_buffer m) /\
     (forall s c, input_buffer m = s +:+ String c "" -> input_buffer m' = s) /\
     input_mode m' = true /\
     polygons m' = polygons m /\
     roi_max_thresholds m' = roi_max_thresholds m /\
     pending_polygon m' = pending_polygon m) /\
  (let m' := fst (handle_key_input 13 m) in
     polygons m' = polygons m ++ [pending_polygon m] /\
     input_mode m' = false /\
     exists threshold,
       roi_max_thresholds m' = roi_max_thresholds m ++ [threshold] /\
       (forall n, py_int (input_buffer m) = Some n -> threshold = n) /\
       (py_int (input_buffer m) = None -> threshold = 50) /\
       (input_buffer m = "" -> threshold = 50) /\
       (all_digits (input_buffer m) = true -> input_buffer m <> "" ->
        (String.length (input_buffer m) <= 4300)%nat ->
        threshold = decimal_of (input_buffer m)) /\
       (all_digits (input_buffer m) = true ->
        (4300 < String.length (input_buffer m))%nat -> threshold = 50) /\
       (forall c, In c (list_ascii_of_string (input_buffer m)) ->
                  outside_literal c = true -> threshold = 50)) /\
  (let m' := fst (handle_key_input 27 m) in
     input_mode m' = false /\
     polygons m' = polygons m /\
     roi_max_thresholds m' = roi_max_thresholds m).
Proof.
  intros Hmode. split; [|split; [|split]].
  - intros key Hkey.
    assert (Hk : (key =? 13) = false /\ (key =? 8) = false /\
                 (key =? 27) = false /\ (32 <=? key) && (key <? 127) = true)
      by (repeat split; lia).
    destruct Hk as (H13 & H8 & H27 & Hrange).
    unfold handle_key_input.
    rewrite Hmode, H13, H8, H27, Hrange, (chr_digit key Hkey). simpl.
    rewrite Hmode. auto.
  - unfold handle_key_input. rewrite Hmode. simpl. rewrite Hmode.
    repeat split. intros s c ->. apply drop_last_snoc.
  - unfold handle_key_input. rewrite Hmode. simpl.
    split; [reflexivity|]. split; [reflexivity|].
    exists (entered_threshold (input_buffer m)).
    split; [reflexivity|]. rewrite entered_threshold_spec.
    split; [intros n ->; reflexivity|].
    split; [intros ->; reflexivity|].
    split; [intros ->; reflexivity|].
    split; [intros Hd Hne Hlen; now rewrite (py_int_digits _ Hd Hne Hlen)|].
    split; [intros Hd Hlen; now rewrite (py_int_too_long _ Hd Hlen)|].
    intros c Hin Hout. now rewrite (py_int_outside _ c Hin Hout).
  - unfold handle_key_input. rewrite Hmode. simpl. auto.
Qed.

(** The witness of C7: the key 7 and then Enter, on the registry
    awaiting a threshold, append the triangle with threshold 7. *)
Lemma C7_handle_key_input_witness :
  let m1 := fst (handle_key_input 55 awaiting_threshold) in
  input_mode m1 = true /\
  input_buffer m1 = "7" /\
  polygons (fst (handle_key_input 13 m1)) =
    [Some [PTuple 0 0; PTuple 10 0; PTuple 10 10]] /\
  roi_max_thresholds (fst (handle_key_input 13 m1)) = [7].
Proof.
  cbv zeta. set (m1 := fst (handle_key_input 55 awaiting_threshold)).
  assert (Hmode : input_mode m1 = true) by reflexivity.
  split; [exact Hmode|]. split; [reflexivity|].
  destruct (C7_handle_key_input m1 Hmode)
    as (_ & _ & (Hp & _ & th & Ht & _ & _ & _ & Hdigits & _) & _).
  split; [exact Hp|].
  rewrite Ht, (Hdigits eq_refl ltac:(discriminate) ltac:(vm_compute; lia)).
  reflexivity.
Defined.

(** *** The two lists stay parallel *)



(** Case analysis on every test of a conditional in the goal. *)
Ltac case_tests :=
  repeat match goal with
         | |- context [if ?c then _ else _] => destruct c eqn:?; simpl
         | |- context [match ?c with _ => _ end] =>
             is_var c; destruct c; simpl
         end.















(** *** Saving and loading *)

Lemma coords_of_json_to_json (ps : list roi_entry) :
  map (option_map (map coords)) (of_json (to_json ps)) =
  map (option_map (map coords)) ps.
Proof.
  unfold of_json, to_json.
  induction ps as [|entry l IH]; simpl; [reflexivity|].
  f_equal; [|exact IH].
  destruct entry as [pts|]; simpl; [|reflexivity].
  f_equal. induction pts as [|p pts IHp]; simpl; [reflexivity|].
  f_equal; [now destruct p | exact IHp].
Qed.

(** C6: when the two lists have the same length, saving the registry to
    a file and loading that file, into any registry, gives back the same
    polygons in the same order, vertex by vertex with the same
    coordinates, and the same thresholds in the same order. *)
Theorem C6_save_load_roundtrip (filename : string)
    (fs : gmap string file_content) (m m0 : roi_manager) :
  length (polygons m) = length (roi_max_thresholds m) ->
  let fs' := fst (save_config WriteOk filename fs m) in
  let m' := fst (load_config filename fs' m0) in
  map (option_map (map coords)) (polygons m') =
    map (option_map (map coords)) (polygons m) /\
  roi_max_thresholds m' = roi_max_thresholds m.
Proof.
  intros Hlen. simpl. unfold load_config. rewrite lookup_insert_eq. simpl.
  assert (Heq : (length (roi_max_thresholds m) =?
                 length (of_json (to_json (polygons m))))%nat = true).
  { apply Nat.eqb_eq. unfold of_json, to_json. now rewrite !length_map. }
  rewrite Heq. simpl. split; [apply coords_of_json_to_json | reflexivity].
Qed.

(** The witness of C6: the registry holding the square with threshold 3
    is saved into an empty store and loaded into a fresh registry. *)
Lemma C6_save_load_roundtrip_witness :
  let fs' := fst (save_config WriteOk "roi_config.json" ∅ one_square) in
  let m' := fst (load_config "roi_config.json" fs' init_manager) in
  map (option_map (map coords)) (polygons m') =
    [Some [(0, 0); (10, 0); (10, 10); (0, 10)]] /\
  roi_max_thresholds m' = [3].
Proof.
  exact (C6_save_load_roundtrip "roi_config.json" ∅ one_square init_manager
           eq_refl).
Defined.

(** ** Polygon containment does not depend on the starting vertex *)

(** The result of the loop only depends on which edges it meets, not on
    their order. *)
Lemma ppt_loop_edges (ip : Z * Z) (cnt : list (Z * Z)) :
  forall v counter,
    ppt_loop ip v cnt counter =
    if existsb (on_edge ip) (edges_from v cnt) then 0
    else if (counter + crossings ip (edges_from v cnt)) mod 2 =? 0 then -1
         else 1.
Proof.
  unfold crossings.
  induction cnt as [|c rest IH]; intros v counter; simpl.
  - now rewrite Z.add_0_r.
  - unfold on_edge, crosses at 1. simpl.
    destruct (classify_edge ip v c); simpl; [reflexivity | |].
    + rewrite IH. destruct (existsb _ _); [reflexivity|].
      now replace (counter + 1 + Z.of_nat (length (List.filter (crosses ip)
                     (edges_from c rest))))
        with (counter + Z.of_nat (S (length (List.filter (crosses ip)
                     (edges_from c rest))))) by lia.
    + apply IH.
Qed.

Lemma last_default_irrelevant {A} (l : list A) (d d' : A) :
  l <> [] -> List.last l d = List.last l d'.
Proof.
  induction l as [|a [|b l] IH]; intros Hne; [congruence | reflexivity |].
  change (List.last (b :: l) d = List.last (b :: l) d'). now apply IH.
Qed.

Lemma last_app_nonempty {A} (l1 l2 : list A) (d : A) :
  l2 <> [] -> List.last (l1 ++ l2) d = List.last l2 d.
Proof.
  intros Hne. induction l1 as [|a l1 IH]; [reflexivity|].
  simpl. rewrite IH. destruct (l1 ++ l2) eqn:E; [|reflexivity].
  apply app_eq_nil in E as [_ ->]. congruence.
Qed.

Lemma edges_from_app (v : Z * Z) (l1 l2 : list (Z * Z)) :
  edges_from v (l1 ++ l2) = edges_from v l1 ++ edges_from (List.last l1 v) l2.
Proof.
  revert v. induction l1 as [|a l1 IH]; intros v; [reflexivity|].
  simpl edges_from. rewrite IH. simpl. f_equal. f_equal.
  destruct l1 as [|b l1]; [reflexivity|].
  f_equal. now apply last_default_irrelevant.
Qed.

(** Moving a prefix of the contour to its end permutes the edges. *)
Lemma closing_edges_swap (l1 l2 : list (Z * Z)) :
  Permutation (closing_edges (l1 ++ l2)) (closing_edges (l2 ++ l1)).
Proof.
  destruct l1 as [|a l1]; [now rewrite app_nil_r|].
  destruct l2 as [|b l2]; [now rewrite app_nil_r|].
  unfold closing_edges.
  change ((a :: l1) ++ b :: l2) with (a :: l1 ++ b :: l2) at 1.
  change ((b :: l2) ++ a :: l1) with (b :: l2 ++ a :: l1) at 1.
  cbv iota beta.
  change (a :: l1 ++ b :: l2) with ((a :: l1) ++ b :: l2).
  change (b :: l2 ++ a :: l1) with ((b :: l2) ++ a :: l1).
  rewrite !edges_from_app.
  rewrite !last_app_nonempty by discriminate.
  assert (E1 : forall d, List.last (a :: l1) d = List.last (a :: l1) a)
    by (intros d; apply last_default_irrelevant; discriminate).
  assert (E2 : forall d, List.last (b :: l2) d = List.last (b :: l2) b)
    by (intros d; apply last_default_irrelevant; discriminate).
  rewrite (E2 a), (E1 (List.last (b :: l2) b)), (E1 b),
          (E2 (List.last (a :: l1) a)).
  apply Permutation_app_comm.
Qed.

Lemma existsb_Permutation {A} (f : A -> bool) (l l' : list A) :
  Permutation l l' -> existsb f l = existsb f l'.
Proof.
  induction 1; simpl; try congruence.
  now destruct (f x), (f y).
Qed.

Lemma filter_length_Permutation {A} (f : A -> bool) (l l' : list A) :
  Permutation l l' ->
  length (List.filter f l) = length (List.filter f l').
Proof.
  induction 1; simpl; try congruence.
  - destruct (f x); simpl; congruence.
  - destruct (f x), (f y); reflexivity.
Qed.

Lemma pointPolygonTest_edges (cnt : list (Z * Z)) (pt : Z * Z) :
  cnt <> [] ->
  pointPolygonTest cnt pt =
  if existsb (on_edge pt) (closing_edges cnt) then 0
  else if crossings pt (closing_edges cnt) mod 2 =? 0 then -1 else 1.
Proof.
  destruct cnt as [|c rest]; [congruence|]. intros _.
  unfold pointPolygonTest, closing_edges. now rewrite ppt_loop_edges.
Qed.

Lemma pointPolygonTest_rotate (cnt : list (Z * Z)) (pt : Z * Z) (n : nat) :
  pointPolygonTest (rotate n cnt) pt = pointPolygonTest cnt pt.
Proof.
  destruct cnt as [|c rest].
  { unfold rotate. now rewrite drop_nil, take_nil. }
  set (l := c :: rest).
  assert (Hrot : rotate n l <> []).
  { intros E. apply (f_equal length) in E. rewrite length_rotate in E.
    discriminate. }
  rewrite !pointPolygonTest_edges by (assumption || discriminate).
  assert (Hperm : Permutation (closing_edges (rotate n l)) (closing_edges l)).
  { unfold rotate. generalize (n mod length l)%nat. intros k.
    rewrite <- (take_drop k l) at 3.
    apply closing_edges_swap. }
  unfold crossings.
  now rewrite (existsb_Permutation _ _ _ Hperm),
              (filter_length_Permutation _ _ _ Hperm).
Qed.

(** C8: for a polygon of at least three vertices and any query point,
    [point_in_polygon] answers the same on every rotation of the vertex
    list as on the list itself. *)
Theorem C8_point_in_polygon_rotation (poly : polygon) (pt : Z * Z) (n : nat) :
  (3 <= length poly)%nat ->
  point_in_polygon pt (rotate n poly) = point_in_polygon pt poly.
Proof.
  intros _. unfold point_in_polygon.
  replace (map coords (rotate n poly)) with (rotate n (map coords poly)).
  - now rewrite pointPolygonTest_rotate.
  - unfold rotate. rewrite map_app, length_map.
    now rewrite <- fmap_drop, <- fmap_take.
Qed.

(** The witness of C8: the square, started from its third vertex, and a
    point inside it. *)
Lemma C8_point_in_polygon_rotation_witness :
  point_in_polygon (5, 5) [PTuple 10 10; PTuple 0 10; PTuple 0 0; PTuple 10 0]
  = point_in_polygon (5, 5) square.
Proof.
  exact (C8_point_in_polygon_rotation square (5, 5) 2 ltac:(simpl; lia)).
Defined.

(** ** The stream source *)

Lemma primed_step (s s' : streamer) :
  streamer_step s s' -> primed s -> primed s'.
Proof.
  unfold primed. intros Hstep Hp. destruct Hstep; simpl; auto.
Qed.

(** Once primed, [read] hands out a frame: a placeholder while
    reconnecting, the last decoded frame otherwise. *)
Lemma read_frame_when_primed (draw : Q -> image -> image) (s : streamer)
    (now : Q) :
  primed s ->
  exists f, snd (read draw s now) = Some f /\
            (fst (read draw s now) = true -> latest_frame s = Some f).
Proof.
  unfold primed, read. intros [H | H].
  - rewrite H. simpl. eexists. split; [reflexivity | discriminate].
  - destruct (is_reconnecting s); simpl.
    + eexists. split; [reflexivity | discriminate].
    + destruct (latest_frame s) as [f|]; [|congruence].
      exists f. auto.
Qed.

(** C2, on the code: the state a streamer is created in is reachable,
    and there [read] answers live with no frame at all, since
    [is_reconnecting] starts as [False] and [latest_frame] as [None]. *)
Theorem C2_read_before_first_write (draw : Q -> image -> image)
    (w h : nat) (now : Q) :
  reachable w h (FFmpegStreamer w h) /\
  read draw (FFmpegStreamer w h) now = (true, None).
Proof.
  split; [constructor | reflexivity].
Qed.

(** ** Region extraction *)

Lemma fold_min_le (l : list Z) (a : Z) : fold_left Z.min l a <= a.
Proof.
  revert a. induction l as [|b l IH]; intros a; simpl; [lia|].
  specialize (IH (Z.min a b)). lia.
Qed.

Lemma fold_min_ge (l : list Z) (a c : Z) :
  c <= a -> Forall (fun b => c <= b) l -> c <= fold_left Z.min l a.
Proof.
  revert a. induction l as [|b l IH]; intros a Ha Hl; simpl; [exact Ha|].
  inversion Hl; subst. apply IH; [lia | assumption].
Qed.

Lemma boundingRect_x_ge (pts : list (Z * Z)) (c : Z) :
  pts <> [] -> Forall (fun p => c <= fst p) pts ->
  let '(x, _, _, _) := boundingRect pts in c <= x.
Proof.
  destruct pts as [|p rest]; [congruence|]. intros _ Hall. simpl.
  inversion Hall; subst. apply fold_min_ge; [assumption|].
  now apply Forall_map.
Qed.

Lemma boundingRect_y_ge (pts : list (Z * Z)) (c : Z) :
  pts <> [] -> Forall (fun p => c <= snd p) pts ->
  let '(_, y, _, _) := boundingRect pts in c <= y.
Proof.
  destruct pts as [|p rest]; [congruence|]. intros _ Hall. simpl.
  inversion Hall; subst. apply fold_min_ge; [assumption|].
  now apply Forall_map.
Qed.

Section RegionExtraction.

Variable fillPoly : nat -> nat -> list (Z * Z) -> list (list bool).

(** Fewer than three vertices: no region. *)
Lemma extract_roi_region_few_points (im : image) (pts : polygon) :
  (length pts < 3)%nat ->
  extract_roi_region fillPoly im (Some pts) = (None, []).
Proof.
  intros Hlen. unfold extract_roi_region.
  apply Nat.ltb_lt in Hlen. now rewrite Hlen.
Qed.

(** A polygon wholly to the right of the frame or wholly below it: no
    region. *)
Lemma extract_roi_region_right_or_below (im : image) (pts : polygon) :
  Forall (fun p => img_w im <= fst (coords p)) pts \/
  Forall (fun p => img_h im <= snd (coords p)) pts ->
  fst (extract_roi_region fillPoly im (Some pts)) = None.
Proof.
  intros Hout. unfold extract_roi_region.
  destruct (length pts <? 3)%nat eqn:Hlen; [reflexivity|].
  destruct (fits_int32 (map coords pts)); [|reflexivity]. simpl.
  assert (Hne : map coords pts <> []).
  { destruct pts; [discriminate Hlen | discriminate]. }
  pose proof (boundingRect_x_ge (map coords pts) (img_w im) Hne) as Hx.
  pose proof (boundingRect_y_ge (map coords pts) (img_h im) Hne) as Hy.
  destruct (boundingRect (map coords pts)) as [[[x y] w] h].
  assert (Hdead : (Z.min w (img_w im - Z.max 0 x) <=? 0)
                  || (Z.min h (img_h im - Z.max 0 y) <=? 0) = true).
  { apply orb_true_iff.
    destruct Hout as [Hout | Hout]; [left | right]; apply Z.leb_le.
    - assert (img_w im <= x) by (apply Hx; now apply Forall_map). lia.
    - assert (img_h im <= y) by (apply Hy; now apply Forall_map). lia. }
  now rewrite Hdead.
Qed.

(** Whenever a region is returned, the polygon has at least three
    vertices, the region is the masked frame cut to the clamped box,
    and the offset is the corner of that box. *)
Lemma extract_roi_region_some (im : image) (pts : polygon)
    (region : image) (offset : Z * Z) :
  fst (extract_roi_region fillPoly im (Some pts)) = Some (region, offset) ->
  let '(bx, by_, bw, bh) := boundingRect (map coords pts) in
  let x := Z.max 0 bx in
  let y := Z.max 0 by_ in
  let w := Z.min bw (img_w im - x) in
  let h := Z.min bh (img_h im - y) in
  (3 <= length pts)%nat /\ 0 < w /\ 0 < h /\ offset = (x, y) /\
  region =
    crop (bitwise_and_mask im
            (fillPoly (length im) (length (hd [] im)) (map coords pts)))
         x y w h.
Proof.
  unfold extract_roi_region.
  destruct (length pts <? 3)%nat eqn:Hlen; [discriminate|].
  destruct (fits_int32 (map coords pts)); [|discriminate]. simpl.
  destruct (boundingRect (map coords pts)) as [[[bx by_] bw] bh].
  destruct ((Z.min bw (img_w im - Z.max 0 bx) <=? 0)
            || (Z.min bh (img_h im - Z.max 0 by_) <=? 0)) eqn:Hdead;
    [discriminate|].
  simpl. intros [= <- <-].
  apply orb_false_iff in Hdead as [Hw Hh].
  apply Z.leb_gt in Hw, Hh. apply Nat.ltb_ge in Hlen. auto.
Qed.

(** C3, on the code: a triangle wholly to the left of a 100 x 100
    frame is not rejected.  The corner is clamped to 0 while the width
    keeps its full extent, so an 11 x 11 region at offset (0, 0) is
    returned. *)
Theorem C3_polygon_left_of_frame_not_rejected :
  let im := zeros 100 100 in
  let pts := [PTuple (-20) 0; PTuple (-10) 0; PTuple (-10) 10] in
  Forall (fun p => fst (coords p) < 0) pts /\
  extract_roi_region fillPoly im (Some pts) =
    (Some (crop (bitwise_and_mask im
                   (fillPoly 100 100 [(-20, 0); (-10, 0); (-10, 10)]))
                0 0 11 11, (0, 0)), []).
Proof.
  split; [repeat constructor | reflexivity].
Qed.

End RegionExtraction.

(** ** The detection loop *)

Lemma fired_alerts_app (evs evs' : list event) :
  fired_alerts (evs ++ evs') = fired_alerts evs ++ fired_alerts evs'.
Proof. unfold fired_alerts. apply flat_map_app. Qed.

Lemma alert_due_true (total thr : Z) (now last : Q) :
  alert_due total thr now last = true ->
  0 < total /\ 0 < thr /\ thr <= total /\
  (ALERT_COOLDOWN_SECONDS < now - last)%Q.
Proof.
  unfold alert_due. intros H.
  apply andb_true_iff in H as [H Hq].
  apply andb_true_iff in H as [H Hge].
  apply andb_true_iff in H as [Hpos Hthr].
  repeat split; try lia.
  apply negb_true_iff in Hq.
  destruct (Qlt_le_dec ALERT_COOLDOWN_SECONDS (now - last)) as [Hlt | Hle];
    [exact Hlt|].
  apply Qle_bool_iff in Hle. congruence.
Qed.

(** Alerts that each waited for the cooldown after the one before are
    pairwise further apart than the cooldown. *)
Lemma alerts_ok_spaced (alerts : list (Q * Z * Z)) :
  forall last,
    alerts_ok last alerts ->
    Forall (fun a => (ALERT_COOLDOWN_SECONDS < alert_time a - last)%Q) alerts /\
    ForallOrdPairs
      (fun a b => (ALERT_COOLDOWN_SECONDS < alert_time b - alert_time a)%Q)
      alerts.
Proof.
  unfold ALERT_COOLDOWN_SECONDS.
  induction alerts as [|[[now total] thr] rest IH]; intros last Hok.
  - split; constructor.
  - simpl in Hok. destruct Hok as (_ & _ & _ & Hnow & Hrest).
    destruct (IH now Hrest) as [Hall Hpairs].
    split.
    + constructor; [exact Hnow|].
      eapply List.Forall_impl; [|exact Hall].
      intros a Ha. simpl in *. unfold ALERT_COOLDOWN_SECONDS in *. lra.
    + constructor; [exact Hall | exact Hpairs].
Qed.

Section LoopProperties.

Variable fillPoly : nat -> nat -> list (Z * Z) -> list (list bool).
Variable detect_in_roi : image -> list box.

Local Abbreviation frame_body := (frame_body fillPoly detect_in_roi).
Local Abbreviation detect_loop := (detect_loop fillPoly detect_in_roi).
Local Abbreviation detect := (detect fillPoly detect_in_roi).

(** One iteration that processes a frame. *)
Lemma detect_loop_frame (cfg : config) (st : loop_state) (t : tick)
    (rest : list tick) (im0 : image) :
  frame_of cfg t = Some im0 ->
  detect_loop cfg st (t :: rest) =
  let b := frame_body cfg st t im0 in
  let resumed := detect_loop cfg (b_state b) rest in
  match b_raised b with
  | None => (b_events b ++ fst resumed, snd resumed)
  | Some e =>
      if is_Exception e then
        ((b_events b ++ [EvLog ERROR "Error processing frame"])
           ++ fst resumed, snd resumed)
      else (b_events b, Propagated e)
  end.
Proof.
  unfold frame_of. intros Hframe. simpl.
  destruct (is_webcam (source cfg)).
  - destruct (t_read t) as [[|] [im|]]; try discriminate.
    injection Hframe as ->.
    destruct (b_raised (frame_body cfg st t im0)) as [e|];
      [destruct (is_Exception e)|];
      try destruct (detect_loop cfg _ rest); reflexivity.
  - destruct (t_next t) as [im|]; [|discriminate].
    injection Hframe as ->.
    destruct (b_raised (frame_body cfg st t im0)) as [e|];
      [destruct (is_Exception e)|];
      try destruct (detect_loop cfg _ rest); reflexivity.
Qed.

(** One iteration that processes no frame: it ends the loop or goes
    on without having touched the loop state, and fires no alert. *)
Lemma detect_loop_no_frame (cfg : config) (st : loop_state) (t : tick)
    (rest : list tick) :
  frame_of cfg t = None ->
  fired_alerts (fst (detect_loop cfg st (t :: rest))) = [] \/
  fired_alerts (fst (detect_loop cfg st (t :: rest))) =
    fired_alerts (fst (detect_loop cfg st rest)).
Proof.
  unfold frame_of. intros Hframe. simpl.
  destruct (is_webcam (source cfg)).
  - destruct (t_read t) as [[|] [im|]]; try discriminate.
    + right. now destruct (detect_loop cfg st rest).
    + destruct (t_fault_sink t); [now left|].
      right. now destruct (detect_loop cfg st rest).
    + right. now destruct (detect_loop cfg st rest).
  - destruct (t_next t) as [im|e]; [discriminate|].
    left. now destruct e.
Qed.

(** What the [try] block does to the alert state: nothing, or one
    alert that met its condition and whose time is remembered. *)
Lemma frame_body_alert (cfg : config) (st : loop_state) (t : tick)
    (im0 : image) :
  let b := frame_body cfg st t im0 in
  (fired_alerts (b_events b) = [] /\
   last_global_alert_time (b_state b) = last_global_alert_time st) \/
  (exists total thr,
     fired_alerts (b_events b) = [(t_now t, total, thr)] /\
     last_global_alert_time (b_state b) = t_now t /\
     alerts_ok (last_global_alert_time st) [(t_now t, total, thr)]).
Proof.
  unfold frame_body.
  destruct (skip_frames cfg =? 0); [now left|].
  destruct (negb _); [now left|].
  destruct (t_fault_detect t); [now left|].
  cbv zeta. simpl last_global_alert_time.
  destruct (alert_due _ _ _ _) eqn:Hdue.
  - right. apply alert_due_true in Hdue.
    exists (py_sum (roi_counts fillPoly detect_in_roi im0 (t_manager t))),
           (py_sum (roi_max_thresholds (t_manager t))).
    assert (Hok : alerts_ok (last_global_alert_time st)
              [(t_now t, py_sum (roi_counts fillPoly detect_in_roi im0
                                   (t_manager t)),
                py_sum (roi_max_thresholds (t_manager t)))])
      by (simpl; tauto).
    destruct (t_fault_screenshot t);
      [split; [reflexivity | split; [reflexivity | exact Hok]]|].
    destruct (t_fault_email t);
      [split; [reflexivity | split; [reflexivity | exact Hok]]|].
    destruct (negb (Qle_bool _ _)), (t_fault_sink t), (t_heartbeat_ok t);
      (split; [reflexivity | split; [reflexivity | exact Hok]]).
  - left.
    destruct (negb (Qle_bool _ _)), (t_fault_sink t), (t_heartbeat_ok t);
      split; reflexivity.
Qed.

Lemma detect_loop_alerts_ok (cfg : config) (ticks : list tick) :
  forall st,
    alerts_ok (last_global_alert_time st)
              (fired_alerts (fst (detect_loop cfg st ticks))).
Proof.
  induction ticks as [|t rest IH]; intros st; [exact I|].
  destruct (frame_of cfg t) as [im0|] eqn:Hframe.
  - rewrite (detect_loop_frame cfg st t rest im0 Hframe). cbv zeta.
    pose proof (IH (b_state (frame_body cfg st t im0))) as Hrest.
    destruct (frame_body_alert cfg st t im0)
      as [[Hnone Hlast] | (total & thr & Hone & Hlast & Hok)];
      rewrite Hlast in Hrest.
    + destruct (b_raised _) as [e|]; [destruct (is_Exception e)|]; simpl fst;
        rewrite ?fired_alerts_app, Hnone; try exact Hrest; exact I.
    + simpl in Hok.
      destruct (b_raised _) as [e|]; [destruct (is_Exception e)|]; simpl fst;
        rewrite ?fired_alerts_app, Hone; simpl; tauto.
  - destruct (detect_loop_no_frame cfg st t rest Hframe) as [-> | ->];
      [exact I | apply IH].
Qed.

Lemma critical_handler_no_alert (cfg : config) (bound is_none : bool)
    (stop_fault : option exn) (e : exn) :
  fired_alerts (fst (critical_handler cfg bound is_none stop_fault e)) = [].
Proof.
  unfold critical_handler.
  destruct (is_Exception e), (bound && is_webcam (source cfg)), is_none,
    stop_fault; reflexivity.
Qed.

Lemma detect_alerts (cfg : config) (init : init_outcome)
    (stop_fault : option exn) (ticks : list tick) :
  fired_alerts (fst (detect cfg init stop_fault ticks)) = [] \/
  fired_alerts (fst (detect cfg init stop_fault ticks)) =
    fired_alerts (fst (detect_loop cfg loop_init ticks)).
Proof.
  unfold detect. destruct init as [|[] e].
  - right. destruct (detect_loop cfg loop_init ticks) as [evs [st| |e]];
      try reflexivity.
    pose proof (critical_handler_no_alert cfg true false stop_fault e) as Hh.
    destruct (critical_handler cfg true false stop_fault e) as [evs' r'].
    simpl in *. rewrite fired_alerts_app, Hh. apply app_nil_r.
  - left. apply critical_handler_no_alert.
  - left. apply critical_handler_no_alert.
  - left. apply critical_handler_no_alert.
  - left. apply critical_handler_no_alert.
Qed.

(** C1: in every run of [detect], each alert fires on a frame with a
    positive total count, a positive sum of thresholds, a count that
    reaches that sum, and more than 120 seconds after the alert before
    it (for the first alert: after time 0, the initial value of
    [last_global_alert_time]); hence any two alerts of the run are more
    than 120 seconds apart, whatever happens on the frames between
    them. *)
Theorem C1_alert_cooldown (cfg : config) (init : init_outcome)
    (stop_fault : option exn) (ticks : list tick) :
  let alerts := fired_alerts (fst (detect cfg init stop_fault ticks)) in
  alerts_ok 0 alerts /\
  ForallOrdPairs
    (fun a b => (ALERT_COOLDOWN_SECONDS < alert_time b - alert_time a)%Q)
    alerts.
Proof.
  intros alerts.
  assert (Hok : alerts_ok 0 alerts).
  { subst alerts.
    destruct (detect_alerts cfg init stop_fault ticks) as [-> | ->];
      [exact I | apply (detect_loop_alerts_ok cfg ticks loop_init)]. }
  split; [exact Hok | exact (proj2 (alerts_ok_spaced alerts 0 Hok))].
Qed.

(** C5, amended: an exception deriving from [Exception] that the [try]
    block of an iteration raises is logged as an error and the loop
    resumes with the next iteration, from the state the block had
    reached; and when the model or the source cannot be set up before
    the loop, [detect] raises to its caller: the failure itself, unless
    stopping the half-built stream source raises in turn. *)
Theorem C5_exceptions_contained_or_propagated
    (cfg : config) (st : loop_state) (t : tick) (rest : list tick)
    (im0 : image) (e : exn)
    (at_point : init_point) (e0 : exn) (stop_fault : option exn)
    (ticks : list tick) :
  (frame_of cfg t = Some im0 ->
   b_raised (frame_body cfg st t im0) = Some e ->
   is_Exception e = true ->
   let b := frame_body cfg st t im0 in
   let resumed := detect_loop cfg (b_state b) rest in
   detect_loop cfg st (t :: rest) =
     ((b_events b ++ [EvLog ERROR "Error processing frame"])
        ++ fst resumed, snd resumed)) /\
  (exists e',
     snd (detect cfg (InitRaises at_point e0) stop_fault ticks)
       = DetectRaised e' /\
     (at_point = BeforeDataset \/ is_webcam (source cfg) = false ->
      e' = e0)).
Proof.
  split.
  - intros Hframe Hraised Hexc.
    rewrite (detect_loop_frame cfg st t rest im0 Hframe). cbv zeta.
    now rewrite Hraised, Hexc.
  - unfold detect, critical_handler.
    destruct at_point, (is_Exception e0), (is_webcam (source cfg)),
      stop_fault; simpl; eexists; (split; [reflexivity|]);
      intros [H | H]; congruence.
Qed.

End LoopProperties.

(** The witness of C5: the output sink raises an OpenCV error on the
    first of two live frames. *)
Lemma C5_exceptions_contained_or_propagated_witness :
  snd (detect_loop full_mask four_detections config_standalone loop_init
         [live_tick 1000 (Some (OtherException "cv2.error"));
          live_tick 1001 None])
  = Running {| processed_frames := 2; last_global_alert_time := 1000;
               last_metadata_update_time := 1000 |}.
Proof.
  destruct (C5_exceptions_contained_or_propagated
              full_mask four_detections config_standalone loop_init
              (live_tick 1000 (Some (OtherException "cv2.error")))
              [live_tick 1001 None] (zeros 20 20)
              (OtherException "cv2.error")
              BeforeDataset OSError None []) as [Hloop _].
  rewrite (Hloop eq_refl eq_refl eq_refl). reflexivity.
Defined.

(** C5 as stated fails: the standalone sink raises [KeyboardInterrupt]
    when the user presses [q]; raised inside the [try] block, it is not
    an [Exception], so it is neither logged nor followed by another
    iteration, and [detect] raises it to its caller. *)
Lemma C5_keyboard_interrupt_leaves_loop :
  let t := live_tick 1000 (Some KeyboardInterrupt) in
  let rest := [live_tick 1001 None] in
  b_raised (frame_body full_mask four_detections config_standalone loop_init t
              (zeros 20 20)) = Some KeyboardInterrupt /\
  snd (detect_loop full_mask four_detections config_standalone loop_init
         (t :: rest)) = Propagated KeyboardInterrupt /\
  snd (detect full_mask four_detections config_standalone InitOk None
         (t :: rest)) = DetectRaised KeyboardInterrupt /\
  ~ frame_exception_contained full_mask four_detections config_standalone
      loop_init t (zeros 20 20) rest.
Proof.
  intros t rest. repeat split.
  intros Hclaim. specialize (Hclaim KeyboardInterrupt eq_refl).
  apply (f_equal snd) in Hclaim. vm_compute in Hclaim. discriminate.
Qed.

(** ** The Redis helpers *)

Lemma fault_exn_is_Exception (f : redis_fault) :
  is_Exception (fault_exn f) = true.
Proof. now destruct f. Qed.

(** Case analysis on everything the world can answer. *)
Ltac all_answers env s :=
  destruct env as [ping connect incr rpush execute set_ applied now strftime];
  destruct s as [[[]|] st];
  destruct ping as [[|]|[| |?]];
  destruct connect as [[| |?]|];
  destruct applied.

Ltac settle :=
  do 3 eexists; split; [reflexivity|]; split;
  [ intros Hb; first [discriminate Hb | reflexivity]
  | split;
    [ intros Hb;
      first [ discriminate Hb
            | split; [reflexivity | repeat constructor] ]
    | intros [Hc Hf];
      repeat match goal with
             | H : Forall _ (_ :: _) |- _ => inversion H; subst; clear H
             end;
      first [reflexivity | congruence] ] ].

Lemma push_alert_best_effort (env : redis_env) (s : redis_state)
    (cam : Z) (name : string) (count : Z) (message level : string)
    (screenshot_path : option string) (max_threshold_total : option Z) :
  best_effort env s [env_incr env; env_rpush env]
    (push_alert env cam name count message level screenshot_path
                max_threshold_total s).
Proof.
  unfold best_effort, client_obtained.
  all_answers env s;
    destruct incr as [[| |?]|]; destruct rpush as [[| |?]|];
    cbn; settle.
Qed.

Lemma update_crowd_count_best_effort (env : redis_env) (s : redis_state)
    (cam count : Z) :
  best_effort env s [env_execute env] (update_crowd_count env cam count s).
Proof.
  unfold best_effort, client_obtained.
  all_answers env s; destruct execute as [[| |?]|]; cbn; settle.
Qed.

Lemma insert_camera_data_best_effort (env : redis_env) (s : redis_state)
    (cam count : Z) :
  best_effort env s [env_set env] (insert_camera_data env cam count s).
Proof.
  unfold best_effort, client_obtained.
  all_answers env s; destruct set_ as [[| |?]|]; cbn; settle.
Qed.

(** C10: whatever the Redis server and the client library do, each of
    [push_alert], [update_crowd_count] and [insert_camera_data] returns
    a boolean and raises nothing; it returns [False], with an error in
    the log, when no client could be obtained or a command failed, and
    [True] otherwise. *)
Theorem C10_redis_helpers_best_effort (env : redis_env) (s : redis_state)
    (cam : Z) (name : string) (count : Z) (message level : string)
    (screenshot_path : option string) (max_threshold_total : option Z) :
  best_effort env s [env_incr env; env_rpush env]
    (push_alert env cam name count message level screenshot_path
                max_threshold_total s) /\
  best_effort env s [env_execute env] (update_crowd_count env cam count s) /\
  best_effort env s [env_set env] (insert_camera_data env cam count s).
Proof.
  split; [apply push_alert_best_effort|].
  split; [apply update_crowd_count_best_effort
         | apply insert_camera_data_best_effort].
Qed.

(** The witness of C10: with the server refusing connections,
    [push_alert] returns [False] and an error is logged. *)
Lemma C10_redis_helpers_best_effort_witness :
  exists s' l,
    push_alert redis_down 99 "Standalone Test" 4
               "High crowd density detected at Standalone Test" "critical"
               None (Some 3) redis_fresh = (inl false, s', l) /\
    has_level ERROR l = true.
Proof.
  destruct (C10_redis_helpers_best_effort redis_down redis_fresh 99
              "Standalone Test" 4
              "High crowd density detected at Standalone Test" "critical"
              None (Some 3)) as [(b & s' & l & Heq & Herr & Htrue) _].
  destruct b.
  - destruct (proj1 Htrue eq_refl) as [Hc _]. discriminate Hc.
  - exists s', l. split; [exact Heq | exact (Herr eq_refl)].
Defined.

(** ** The scenarios of the specification, run on the model *)

(** One square with threshold 3 and four centroids inside: the ROI
    overflows, the totals are 4 against 3, and over three frames at
    times 1000, 1001 and 1121 the alert fires on the first and, the
    cooldown over, on the third. *)
Example scenario_overflow :
  statuses full_mask four_detections (zeros 20 20) one_square = [true] /\
  fired_alerts
    (fst (detect full_mask four_detections config_standalone InitOk None
            [live_tick 1000 None; live_tick 1001 None; live_tick 1121 None]))
  = [(1000%Q, 4, 3); (1121%Q, 4, 3)].
Proof. split; reflexivity. Qed.

(** The same square with nobody in it: status [ok], no alert. *)
Example scenario_quiet :
  statuses full_mask no_detections (zeros 20 20) one_square = [false] /\
  fired_alerts
    (fst (detect full_mask no_detections config_standalone InitOk None
            [live_tick 1000 None; live_tick 1001 None]))
  = [].
Proof. split; reflexivity. Qed.

(** * Further properties of the registry *)

Lemma handle_key_input_consistent (key : Z) (m : roi_manager) :
  interaction_consistent m ->
  interaction_consistent (fst (handle_key_input key m)).
Proof.
  unfold interaction_consistent, handle_key_input. intros H.
  destruct (input_mode m) eqn:Hmode; simpl; [|now rewrite Hmode].
  destruct (key =? 13); [discriminate|].
  destruct (key =? 8); [simpl; now rewrite Hmode|].
  destruct (key =? 27); [discriminate|].
  destruct ((32 <=? key) && (key <? 127)); simpl; [|now rewrite Hmode].
  destruct (isdigit (chr key)); simpl; now rewrite Hmode.
Qed.

Lemma mouse_callback_consistent (ev : mouse_event) (x y : Z)
    (m : roi_manager) :
  interaction_consistent m ->
  interaction_consistent (fst (mouse_callback ev x y m)).
Proof.
  unfold interaction_consistent, mouse_callback. intros H. simpl.
  destruct (input_mode m) eqn:Hmode.
  { rewrite orb_true_r. simpl. intros _. now apply H. }
  rewrite orb_false_r.
  destruct (edit_mode m); simpl; [|discriminate].
  destruct (drag_vertex (selected_polygon m) (drag_point_index m) x y
                        (polygons m));
    destruct (find_hit x y (polygons m) 0);
    destruct ev, (drawing m) eqn:Hdraw; simpl; try discriminate;
      repeat match goal with
             | |- context [if ?c then _ else _] => destruct c eqn:?; simpl
             end;
      try discriminate;
      intros _; (split; [reflexivity|]); eexists; (split; [reflexivity|]);
      now apply Nat.leb_le.
Qed.

Lemma frame_handler_consistent (key : Z) (w : write_outcome)
    (fs : gmap string file_content) (m : roi_manager) :
  interaction_consistent m ->
  interaction_consistent (h_manager (frame_handler key w fs m)).
Proof.
  intros H. unfold frame_handler.
  destruct (input_mode m) eqn:Hmode.
  { pose proof (handle_key_input_consistent key m H) as H'.
    now destruct (handle_key_input key m). }
  unfold interaction_consistent.
  destruct (key =? 113); [simpl; congruence|].
  destruct (key =? 101); [simpl; congruence|].
  destruct ((key =? 115) && edit_mode m).
  { destruct (save_config w ROI_CONFIG_FILE fs m). simpl. congruence. }
  destruct ((key =? 99) && edit_mode m); simpl; congruence.
Qed.

Lemma apply_op_consistent (o : registry_op)
    (s : gmap string file_content * roi_manager) :
  interaction_consistent (snd s) ->
  interaction_consistent (snd (apply_op o s)).
Proof.
  destruct s as [fs m]. simpl. intros H.
  destruct o; simpl; auto using mouse_callback_consistent,
    frame_handler_consistent.
  unfold interaction_consistent, load_config in *.
  destruct (fs !! filename) as [[| |ps ts]|]; try exact H.
  destruct (negb _); exact H.
Qed.

Lemma run_ops_consistent (ops : list registry_op)
    (s : gmap string file_content * roi_manager) :
  interaction_consistent (snd s) ->
  interaction_consistent (snd (run_ops ops s)).
Proof.
  revert s. induction ops as [|o ops IH]; intros s H; simpl; [exact H|].
  apply IH, apply_op_consistent, H.
Qed.

(** X1: whatever operations the registry went through since it was
    created, when it waits for a threshold it holds a pending polygon of
    at least three vertices and is not drawing; so Enter never appends
    [None] or a degenerate polygon. *)
Theorem X1_pending_polygon_valid (ops : list registry_op)
    (fs : gmap string file_content) :
  let m := snd (run_ops ops (fs, init_manager)) in
  input_mode m = true ->
  drawing m = false /\
  exists p, pending_polygon m = Some p /\ (3 <= length p)%nat /\
            polygons (fst (handle_key_input 13 m)) = polygons m ++ [Some p].
Proof.
  intros m Hmode.
  assert (H : interaction_consistent m).
  { apply run_ops_consistent. intros Hf. discriminate Hf. }
  destruct (H Hmode) as (Hdraw & p & Hp & Hlen).
  split; [exact Hdraw|]. exists p. repeat split; try assumption.
  unfold handle_key_input. rewrite Hmode. simpl. now rewrite Hp.
Qed.

(** The witness of X1: a triangle is clicked and closed. *)
Lemma X1_pending_polygon_valid_witness :
  exists p,
    pending_polygon
      (snd (run_ops [OpToggleEdit; OpMouse EVENT_LBUTTONDOWN 0 0;
                     OpMouse EVENT_LBUTTONDOWN 40 0;
                     OpMouse EVENT_LBUTTONDOWN 40 40;
                     OpMouse EVENT_RBUTTONDOWN 40 40] (∅, init_manager)))
    = Some p /\ (3 <= length p)%nat.
Proof.
  destruct (X1_pending_polygon_valid
              [OpToggleEdit; OpMouse EVENT_LBUTTONDOWN 0 0;
               OpMouse EVENT_LBUTTONDOWN 40 0;
               OpMouse EVENT_LBUTTONDOWN 40 40;
               OpMouse EVENT_RBUTTONDOWN 40 40] ∅ eq_refl)
    as (_ & p & Hp & Hlen & _).
  exists p. split; [exact Hp | exact Hlen].
Defined.

(** X2: in input mode with an empty buffer, typing the digits of a
    number, at most 4300 of them, and pressing Enter appends the
    pending polygon with exactly that number as its threshold, and ends
    input mode. *)
Theorem X2_typed_threshold (m : roi_manager) (ds : list Z) :
  input_mode m = true ->
  input_buffer m = "" ->
  Forall (fun d => 0 <= d <= 9) ds -> ds <> [] ->
  (length ds <= 4300)%nat ->
  let m' := handle_keys (digit_keys ds ++ [13]) m in
  polygons m' = polygons m ++ [pending_polygon m] /\
  roi_max_thresholds m' = roi_max_thresholds m ++ [decimal ds] /\
  input_mode m' = false /\ input_buffer m' = "".
Proof.
  intros Hmode Hbuf Hds Hne Hlen m'. subst m'. rewrite handle_keys_app.
  destruct (handle_keys_digits ds Hds m Hmode) as (Hb & Hm & Hp & Ht & Hq).
  set (m1 := handle_keys (digit_keys ds) m) in *.
  simpl. unfold handle_key_input. rewrite Hm. simpl.
  rewrite Hb, Hbuf, Hp, Ht, Hq.
  change ("" +:+ digit_string ds) with (digit_string ds).
  rewrite entered_threshold_spec, (py_int_decimal ds Hds Hne Hlen). auto.
Qed.

(** The witness of X2: 1, 2, 5 and Enter after a triangle was closed. *)
Lemma X2_typed_threshold_witness :
  roi_max_thresholds (handle_keys [49; 50; 53; 13] awaiting_threshold) = [125].
Proof.
  destruct (X2_typed_threshold awaiting_threshold [1; 2; 5] eq_refl eq_refl
              ltac:(repeat constructor; lia) ltac:(discriminate)
              ltac:(simpl; lia))
    as (_ & Ht & _).
  exact Ht.
Defined.

Lemma apply_op_passive (o : registry_op) (fs : gmap string file_content)
    (m : roi_manager) :
  passive_in_input_mode o -> input_mode m = true ->
  let s' := apply_op o (fs, m) in
  fst s' = fs /\ input_mode (snd s') = true /\
  polygons (snd s') = polygons m /\
  roi_max_thresholds (snd s') = roi_max_thresholds m /\
  pending_polygon (snd s') = pending_polygon m /\
  current_polygon (snd s') = current_polygon m /\
  drawing (snd s') = drawing m.
Proof.
  intros Hpassive Hmode. destruct o; simpl in Hpassive; try contradiction.
  - simpl. unfold mouse_callback. simpl. rewrite Hmode, orb_true_r. simpl.
    auto 10.
  - destruct Hpassive as [H13 H27].
    apply Z.eqb_neq in H13, H27.
    simpl. unfold frame_handler. rewrite Hmode.
    unfold handle_key_input. rewrite Hmode, H13, H27. simpl.
    destruct (key =? 8); simpl; [auto 10|].
    destruct ((32 <=? key) && (key <? 127)); simpl; [|auto 10].
    destruct (isdigit (chr key)); simpl; auto 10.
Qed.

(** X3: while a threshold is awaited, mouse events and keys other than
    Enter and Escape change neither the polygons, nor the thresholds,
    nor the pending polygon, nor the drawing state, nor any file; the
    registry keeps waiting. *)
Theorem X3_input_mode_holds (ops : list registry_op)
    (fs : gmap string file_content) (m : roi_manager) :
  Forall passive_in_input_mode ops ->
  input_mode m = true ->
  let s' := run_ops ops (fs, m) in
  fst s' = fs /\ input_mode (snd s') = true /\
  polygons (snd s') = polygons m /\
  roi_max_thresholds (snd s') = roi_max_thresholds m /\
  pending_polygon (snd s') = pending_polygon m /\
  current_polygon (snd s') = current_polygon m /\
  drawing (snd s') = drawing m.
Proof.
  intros Hops. revert m.
  induction Hops as [|o ops Ho Hops IH]; intros m Hmode; [simpl; auto 10|].
  change (run_ops (o :: ops) (fs, m)) with (run_ops ops (apply_op o (fs, m))).
  destruct (apply_op_passive o fs m Ho Hmode)
    as (Hfs & Hm & Hp & Ht & Hq & Hc & Hd).
  destruct (apply_op o (fs, m)) as [fs1 m1]. simpl in Hfs, Hm, Hp, Ht, Hq, Hc, Hd.
  subst fs1. cbv zeta.
  destruct (IH m1 Hm) as (IH1 & IH2 & IH3 & IH4 & IH5 & IH6 & IH7).
  rewrite IH1, IH2, IH3, IH4, IH5, IH6, IH7. auto 10.
Qed.

(** The witness of X3: after a triangle was closed, the mouse is
    clicked and moved and letters and digits are typed. *)
Lemma X3_input_mode_holds_witness :
  pending_polygon
    (snd (run_ops [OpMouse EVENT_LBUTTONDOWN 3 3; OpKey 99 WriteOk;
                   OpKey 55 WriteOk; OpMouse EVENT_MOUSEMOVE 9 9;
                   OpKey 8 WriteOk] (∅, awaiting_threshold)))
  = Some [PTuple 0 0; PTuple 10 0; PTuple 10 10].
Proof.
  destruct (X3_input_mode_holds
              [OpMouse EVENT_LBUTTONDOWN 3 3; OpKey 99 WriteOk;
               OpKey 55 WriteOk; OpMouse EVENT_MOUSEMOVE 9 9;
               OpKey 8 WriteOk] ∅ awaiting_threshold
              ltac:(repeat constructor; lia) eq_refl)
    as (_ & _ & _ & _ & Hq & _).
  exact Hq.
Defined.

(** ** Clicking, dragging and drawing *)

Lemma near_dec (x y : Z) (p : point) :
  ((x - fst (coords p)) ^ 2 + (y - snd (coords p)) ^ 2 <? 100) = true <->
  near x y p.
Proof. unfold near. apply Z.ltb_lt. Qed.

Lemma find_vertex_none (x y : Z) (pts : polygon) (k : nat) :
  find_vertex x y pts k = None <-> Forall (fun p => ~ near x y p) pts.
Proof.
  revert k. induction pts as [|p pts IH]; intros k; simpl.
  - split; [constructor | reflexivity].
  - pose proof (near_dec x y p) as Hn. destruct (coords p) as [px py].
    simpl in Hn.
    destruct ((x - px) ^ 2 + (y - py) ^ 2 <? 100) eqn:E.
    + split; [discriminate|]. intros H. inversion H; subst.
      exfalso. tauto.
    + rewrite IH. split.
      * intros H. constructor; [|exact H]. rewrite <- Hn. discriminate.
      * intros H. now inversion H.
Qed.

Lemma find_vertex_some (x y : Z) (pts : polygon) (k j : nat) :
  find_vertex x y pts k = Some j <->
  exists p, (k <= j)%nat /\ pts !! (j - k)%nat = Some p /\ near x y p /\
            Forall (fun p' => ~ near x y p') (take (j - k) pts).
Proof.
  revert k. induction pts as [|p pts IH]; intros k; simpl.
  - split; [discriminate|]. intros (p & _ & Hp & _). discriminate Hp.
  - pose proof (near_dec x y p) as Hn. destruct (coords p) as [px py].
    simpl in Hn.
    destruct ((x - px) ^ 2 + (y - py) ^ 2 <? 100) eqn:E.
    + split.
      * intros [= <-]. exists p. rewrite Nat.sub_diag. simpl.
        repeat split; [lia | tauto | constructor].
      * intros (q & Hle & Hq & Hnear & Hfar).
        destruct (j - k)%nat as [|d] eqn:Hd.
        -- f_equal. lia.
        -- simpl in Hfar. inversion Hfar; subst. exfalso. tauto.
    + rewrite IH. split.
      * intros (q & Hle & Hq & Hnear & Hfar). exists q.
        replace (j - k)%nat with (S (j - S k)) by lia. simpl.
        repeat split; try assumption; [lia|].
        constructor; [|exact Hfar]. rewrite <- Hn. discriminate.
      * intros (q & Hle & Hq & Hnear & Hfar).
        destruct (j - k)%nat as [|d] eqn:Hd.
        -- assert (q = p) by (simpl in Hq; congruence). subst q.
           apply Hn in Hnear. discriminate.
        -- exists q. replace (j - S k)%nat with d by lia.
           simpl in Hq, Hfar. inversion Hfar; subst.
           repeat split; try assumption. lia.
Qed.

Lemma find_hit_nohit (x y : Z) (ps : list roi_entry) (k : nat) :
  find_hit x y ps k = NoHit <-> far_from_all x y ps.
Proof.
  unfold far_from_all. revert k.
  induction ps as [|[pts|] ps IH]; intros k; simpl.
  - split; [constructor | reflexivity].
  - destruct (find_vertex x y pts 0) as [j|] eqn:E.
    + split; [discriminate|]. intros H. inversion H as [|? ? (q & [= ->] & Hq) ?].
      apply (proj2 (find_vertex_none x y _ 0)) in Hq. congruence.
    + rewrite IH. apply find_vertex_none in E. split.
      * intros H. constructor; [eauto | exact H].
      * intros H. now inversion H.
  - split; [discriminate|]. intros H.
    inversion H as [|? ? (q & Hq & _) ?]. discriminate Hq.
Qed.

Lemma find_hit_hit (x y : Z) (ps : list roi_entry) (k i j : nat) :
  find_hit x y ps k = Hit i j <->
  (k <= i)%nat /\ first_near x y ps (i - k) j.
Proof.
  unfold first_near. revert k.
  induction ps as [|[pts|] ps IH]; intros k; simpl.
  - split; [discriminate|]. intros (_ & pts & p & Hp & _). discriminate Hp.
  - destruct (find_vertex x y pts 0) as [j'|] eqn:E.
    + apply find_vertex_some in E as (p & _ & Hp & Hnear & Hfar).
      rewrite Nat.sub_0_r in Hp, Hfar. split.
      * intros [= <- <-]. split; [lia|]. rewrite Nat.sub_diag.
        exists pts, p. repeat split; try assumption. constructor.
      * intros (Hle & pts' & p' & Hpts & Hp' & Hnear' & Hfar' & Hbefore).
        destruct (i - k)%nat as [|d] eqn:Hd.
        -- simpl in Hpts. injection Hpts as <-.
           assert (j = j'); [|subst; f_equal; lia].
           destruct (Nat.lt_trichotomy j j') as [Hlt | [Heq | Hgt]];
             [exfalso | exact Heq | exfalso].
           ++ rewrite List.Forall_forall in Hfar. apply (Hfar p'); [|exact Hnear'].
              apply list_elem_of_In, list_elem_of_lookup. exists j.
              now rewrite lookup_take_lt.
           ++ rewrite List.Forall_forall in Hfar'. apply (Hfar' p); [|exact Hnear].
              apply list_elem_of_In, list_elem_of_lookup. exists j'.
              now rewrite lookup_take_lt.
        -- exfalso. simpl in Hbefore. unfold far_from_all in Hbefore.
           inversion Hbefore as [|? ? (q & [= ->] & Hq) ?]; subst.
           rewrite List.Forall_forall in Hq. apply (Hq p); [|exact Hnear].
           apply list_elem_of_In, list_elem_of_lookup. eauto.
    + apply find_vertex_none in E. rewrite IH. split.
      * intros (Hle & pts' & p' & Hpts & Hp' & Hnear' & Hfar' & Hbefore).
        split; [lia|]. exists pts', p'.
        replace (i - k)%nat with (S (i - S k)) by lia. simpl.
        repeat split; try assumption.
        unfold far_from_all. constructor; [eauto | exact Hbefore].
      * intros (Hle & pts' & p' & Hpts & Hp' & Hnear' & Hfar' & Hbefore).
        destruct (i - k)%nat as [|d] eqn:Hd.
        -- simpl in Hpts. injection Hpts as <-. exfalso.
           rewrite List.Forall_forall in E. apply (E p'); [|exact Hnear'].
           apply list_elem_of_In, list_elem_of_lookup. eauto.
        -- split; [lia|]. replace (i - S k)%nat with d by lia.
           exists pts', p'. simpl in Hpts, Hbefore.
           unfold far_from_all in Hbefore. inversion Hbefore; subst.
           repeat split; assumption.
  - split; [discriminate|].
    intros (Hle & pts' & p' & Hpts & Hp' & Hnear' & Hfar' & Hbefore).
    destruct (i - k)%nat as [|d] eqn:Hd; [discriminate Hpts|].
    simpl in Hbefore. unfold far_from_all in Hbefore.
    inversion Hbefore as [|? ? (q & Hq & _) ?]. discriminate Hq.
Qed.

(** A left click while idle in edit mode. *)
Lemma left_click_idle (m : roi_manager) (x y : Z) :
  edit_mode m = true -> input_mode m = false -> drawing m = false ->
  let m' := fst (mouse_callback EVENT_LBUTTONDOWN x y m) in
  let raised := snd (mouse_callback EVENT_LBUTTONDOWN x y m) in
  polygons m' = polygons m /\
  roi_max_thresholds m' = roi_max_thresholds m /\
  (far_from_all x y (polygons m) ->
   raised = None /\ drawing m' = true /\ current_polygon m' = [PTuple x y] /\
   selected_polygon m' = selected_polygon m) /\
  (forall i j, first_near x y (polygons m) i j ->
   raised = None /\ drawing m' = false /\
   current_polygon m' = current_polygon m /\
   selected_polygon m' = Z.of_nat i /\ drag_point_index m' = Z.of_nat j).
Proof.
  intros Hedit Hinput Hdraw. unfold mouse_callback. simpl.
  rewrite Hedit, Hinput, Hdraw. simpl.
  split; [now destruct (find_hit x y (polygons m) 0)|].
  split; [now destruct (find_hit x y (polygons m) 0)|].
  split.
  - intros Hfar. apply (find_hit_nohit x y (polygons m) 0) in Hfar.
    rewrite Hfar. auto.
  - intros i j Hnear.
    assert (Hhit : find_hit x y (polygons m) 0 = Hit i j).
    { apply find_hit_hit. rewrite Nat.sub_0_r. split; [lia | exact Hnear]. }
    rewrite Hhit. simpl. auto.
Qed.

(** X4: in edit mode, with no drawing and no input pending, a left
    click further than 10 pixels from every vertex starts a new polygon
    at the click; a click within 10 pixels of a vertex selects the first
    such vertex, in registry order, for dragging instead.  Neither
    changes the polygons or the thresholds. *)
Theorem X4_left_click (m : roi_manager) (x y : Z) :
  edit_mode m = true -> input_mode m = false -> drawing m = false ->
  let m' := fst (mouse_callback EVENT_LBUTTONDOWN x y m) in
  let raised := snd (mouse_callback EVENT_LBUTTONDOWN x y m) in
  polygons m' = polygons m /\
  roi_max_thresholds m' = roi_max_thresholds m /\
  (far_from_all x y (polygons m) ->
   raised = None /\ drawing m' = true /\ current_polygon m' = [PTuple x y] /\
   selected_polygon m' = selected_polygon m) /\
  (forall i j, first_near x y (polygons m) i j ->
   raised = None /\ drawing m' = false /\
   current_polygon m' = current_polygon m /\
   selected_polygon m' = Z.of_nat i /\ drag_point_index m' = Z.of_nat j).
Proof. exact (left_click_idle m x y). Qed.

(** The witness of X4: a click next to the second corner of the
    square. *)
Lemma X4_left_click_witness :
  let m := set_edit_mode true one_square in
  selected_polygon (fst (mouse_callback EVENT_LBUTTONDOWN 12 3 m)) = 0 /\
  drag_point_index (fst (mouse_callback EVENT_LBUTTONDOWN 12 3 m)) = 1.
Proof.
  intros m.
  destruct (X4_left_click m 12 3 eq_refl eq_refl eq_refl) as (_ & _ & _ & H).
  destruct (H 0%nat 1%nat) as (_ & _ & _ & Hs & Hd).
  - exists square, (PTuple 10 0). unfold near, far_from_all. simpl.
    repeat split; try reflexivity; try lia.
    + repeat constructor. simpl. lia.
    + constructor.
  - split; [exact Hs | exact Hd].
Defined.

Lemma py_index_in_range (len i : nat) :
  (i < len)%nat -> py_index len (Z.of_nat i) = Some i.
Proof.
  intros H. unfold py_index.
  destruct (0 <=? Z.of_nat i) eqn:E1; [|lia].
  destruct (Z.of_nat i <? Z.of_nat len) eqn:E2; [|lia].
  now rewrite Nat2Z.id.
Qed.

Lemma mouse_callback_modes (ev : mouse_event) (x y : Z) (m : roi_manager) :
  edit_mode (fst (mouse_callback ev x y m)) = edit_mode m /\
  (ev <> EVENT_RBUTTONDOWN ->
   input_mode (fst (mouse_callback ev x y m)) = input_mode m).
Proof.
  unfold mouse_callback. simpl.
  destruct (drag_vertex (selected_polygon m) (drag_point_index m) x y
                        (polygons m));
    destruct (find_hit x y (polygons m) 0);
    destruct ev; case_tests; simpl; split; congruence.
Qed.

(** Moving the mouse with a vertex selected. *)
Lemma mouse_move_drags (m : roi_manager) (x y : Z) (i j : nat)
    (pts : polygon) :
  edit_mode m = true -> input_mode m = false ->
  selected_polygon m = Z.of_nat i -> drag_point_index m = Z.of_nat j ->
  polygons m !! i = Some (Some pts) -> (j < length pts)%nat ->
  let m' := fst (mouse_callback EVENT_MOUSEMOVE x y m) in
  polygons m' = <[i := Some (<[j := PTuple x y]> pts)]> (polygons m) /\
  roi_max_thresholds m' = roi_max_thresholds m.
Proof.
  intros Hedit Hinput Hsel Hidx Hpts Hj.
  assert (Hi : (i < length (polygons m))%nat) by (eapply lookup_lt_Some; eauto).
  unfold mouse_callback. simpl. rewrite Hedit, Hinput, Hsel, Hidx. simpl.
  assert (Hne : (Z.of_nat i =? -1) = false) by lia. rewrite Hne. simpl.
  unfold drag_vertex. rewrite (py_index_in_range _ _ Hi). cbv iota beta.
  unfold roi_entry, polygon in *. rewrite Hpts. rewrite (py_index_in_range _ _ Hj). simpl. auto.
Qed.

(** Releasing the left button. *)
Lemma button_up_releases (m : roi_manager) (x y : Z) :
  edit_mode m = true -> input_mode m = false ->
  let m' := fst (mouse_callback EVENT_LBUTTONUP x y m) in
  polygons m' = polygons m /\
  roi_max_thresholds m' = roi_max_thresholds m /\
  selected_polygon m' = -1 /\ drag_point_index m' = -1.
Proof.
  intros Hedit Hinput. unfold mouse_callback. simpl.
  rewrite Hedit, Hinput. simpl. auto.
Qed.

(** X5: pressing the left button within 10 pixels of a vertex, moving
    the mouse and releasing the button moves that vertex to where the
    mouse went and nothing else: the other vertices, the other polygons
    and the thresholds stay, and the selection is dropped. *)
Theorem X5_drag_moves_one_vertex (fs : gmap string file_content)
    (m : roi_manager) (x y x' y' x'' y'' : Z) (i j : nat) :
  edit_mode m = true -> input_mode m = false -> drawing m = false ->
  first_near x y (polygons m) i j ->
  let s' := run_ops [OpMouse EVENT_LBUTTONDOWN x y;
                     OpMouse EVENT_MOUSEMOVE x' y';
                     OpMouse EVENT_LBUTTONUP x'' y''] (fs, m) in
  (exists pts,
     polygons m !! i = Some (Some pts) /\
     polygons (snd s') = <[i := Some (<[j := PTuple x' y']> pts)]> (polygons m)) /\
  roi_max_thresholds (snd s') = roi_max_thresholds m /\
  selected_polygon (snd s') = -1 /\ drag_point_index (snd s') = -1 /\
  fst s' = fs.
Proof.
  intros Hedit Hinput Hdraw Hnear.
  destruct (left_click_idle m x y Hedit Hinput Hdraw) as (Hp1 & Ht1 & _ & Hsel).
  destruct (Hsel i j Hnear) as (_ & _ & _ & Hs1 & Hd1).
  destruct Hnear as (pts & p & Hpts & Hp & _).
  assert (Hj : (j < length pts)%nat) by (eapply lookup_lt_Some; eauto).
  set (m1 := fst (mouse_callback EVENT_LBUTTONDOWN x y m)) in *.
  destruct (mouse_callback_modes EVENT_LBUTTONDOWN x y m) as [He1 Hi1].
  specialize (Hi1 ltac:(discriminate)). fold m1 in He1, Hi1.
  rewrite Hedit in He1. rewrite Hinput in Hi1.
  rewrite <- Hp1 in Hpts.
  destruct (mouse_move_drags m1 x' y' i j pts He1 Hi1 Hs1 Hd1 Hpts Hj)
    as [Hp2 Ht2].
  set (m2 := fst (mouse_callback EVENT_MOUSEMOVE x' y' m1)) in *.
  destruct (mouse_callback_modes EVENT_MOUSEMOVE x' y' m1) as [He2 Hi2].
  specialize (Hi2 ltac:(discriminate)). fold m2 in He2, Hi2.
  rewrite He1 in He2. rewrite Hi1 in Hi2.
  destruct (button_up_releases m2 x'' y'' He2 Hi2) as (Hp3 & Ht3 & Hs3 & Hd3).
  change (run_ops [OpMouse EVENT_LBUTTONDOWN x y; OpMouse EVENT_MOUSEMOVE x' y';
                   OpMouse EVENT_LBUTTONUP x'' y''] (fs, m))
    with (fs, fst (mouse_callback EVENT_LBUTTONUP x'' y'' m2)).
  cbv zeta. simpl fst. simpl snd.
  split; [|repeat split; congruence].
  exists pts. rewrite Hp1 in Hpts. split; [exact Hpts | congruence].
Qed.

(** The witness of X5: the second corner of the square is dragged. *)
Lemma X5_drag_moves_one_vertex_witness :
  polygons
    (snd (run_ops [OpMouse EVENT_LBUTTONDOWN 12 3;
                   OpMouse EVENT_MOUSEMOVE 30 5;
                   OpMouse EVENT_LBUTTONUP 30 5]
                  (∅, set_edit_mode true one_square)))
  = [Some [PTuple 0 0; PTuple 30 5; PTuple 10 10; PTuple 0 10]].
Proof.
  destruct (X5_drag_moves_one_vertex ∅ (set_edit_mode true one_square)
              12 3 30 5 30 5 0 1 eq_refl eq_refl eq_refl)
    as ((pts & Hpts & Hps) & _).
  - exists square, (PTuple 10 0). unfold near, far_from_all. simpl.
    repeat split; try reflexivity; try lia.
    + repeat constructor. simpl. lia.
    + constructor.
  - rewrite Hps. simpl in Hpts. injection Hpts as <-. reflexivity.
Defined.

(** While drawing, every left click adds its position to the polygon in
    progress, wherever it falls. *)
Lemma clicks_while_drawing (cs : list (Z * Z)) :
  forall (fs : gmap string file_content) (m : roi_manager),
    edit_mode m = true -> input_mode m = false -> drawing m = true ->
    let s' := run_ops (clicks cs) (fs, m) in
    fst s' = fs /\
    edit_mode (snd s') = true /\ input_mode (snd s') = false /\
    drawing (snd s') = true /\
    current_polygon (snd s') =
      current_polygon m ++ map (fun c => PTuple (fst c) (snd c)) cs /\
    polygons (snd s') = polygons m /\
    roi_max_thresholds (snd s') = roi_max_thresholds m.
Proof.
  induction cs as [|c cs IH]; intros fs m Hedit Hinput Hdraw.
  - simpl. rewrite app_nil_r. auto 10.
  - change (run_ops (clicks (c :: cs)) (fs, m))
      with (run_ops (clicks cs)
              (fs, fst (mouse_callback EVENT_LBUTTONDOWN (fst c) (snd c) m))).
    set (m1 := fst (mouse_callback EVENT_LBUTTONDOWN (fst c) (snd c) m)).
    assert (H1 : edit_mode m1 = true /\ input_mode m1 = false /\
                 drawing m1 = true /\
                 current_polygon m1 =
                   current_polygon m ++ [PTuple (fst c) (snd c)] /\
                 polygons m1 = polygons m /\
                 roi_max_thresholds m1 = roi_max_thresholds m).
    { subst m1. unfold mouse_callback. simpl.
      rewrite Hedit, Hinput, Hdraw. simpl. auto 10. }
    destruct H1 as (He & Hi & Hd & Hc & Hp & Ht).
    destruct (IH fs m1 He Hi Hd) as (I1 & I2 & I3 & I4 & I5 & I6 & I7).
    cbv zeta. rewrite I1, I2, I3, I4, I5, I6, I7, Hc, Hp, Ht.
    rewrite <- app_assoc. auto 10.
Qed.

Lemma handle_keys_drawing (keys : list Z) (m : roi_manager) :
  drawing (handle_keys keys m) = drawing m /\
  current_polygon (handle_keys keys m) = current_polygon m.
Proof.
  revert m. induction keys as [|k keys IH]; intros m; [now split|].
  simpl. destruct (IH (fst (handle_key_input k m))) as [-> ->].
  unfold handle_key_input. case_tests; simpl; now split.
Qed.

(** Digits typed in the standalone application while a threshold is
    awaited go to [handle_key_input]. *)
Lemma typed_digits (ds : list Z) (w : write_outcome) :
  Forall (fun d => 0 <= d <= 9) ds ->
  forall (fs : gmap string file_content) (m : roi_manager),
    input_mode m = true ->
    run_ops (typed ds w) (fs, m) = (fs, handle_keys (digit_keys ds) m).
Proof.
  induction 1 as [|d ds Hd Hds IH]; intros fs m Hmode; [reflexivity|].
  change (run_ops (typed (d :: ds) w) (fs, m))
    with (run_ops (typed ds w) (apply_op (OpKey (48 + d) w) (fs, m))).
  assert (Hstep : apply_op (OpKey (48 + d) w) (fs, m) =
                  (fs, fst (handle_key_input (48 + d) m))).
  { simpl. unfold frame_handler. rewrite Hmode.
    now destruct (handle_key_input (48 + d) m). }
  rewrite Hstep.
  destruct (digit_key_step m d Hmode Hd) as (_ & Hm & _).
  now rewrite (IH fs _ Hm).
Qed.

(** X6: drawing a region from start to end.  In edit mode, with nothing
    in progress, a first left click away from every vertex, at least two
    more left clicks anywhere, a right click, the digits of a number and
    Enter append one polygon, made of the clicked positions in order,
    and that number as its threshold (for a number of at most 4300
    digits); the registry is idle again and no file was touched. *)
Theorem X6_draw_region (fs : gmap string file_content) (m : roi_manager)
    (c : Z * Z) (cs : list (Z * Z)) (rx ry : Z) (ds : list Z)
    (w : write_outcome) :
  edit_mode m = true -> input_mode m = false -> drawing m = false ->
  far_from_all (fst c) (snd c) (polygons m) ->
  (2 <= length cs)%nat ->
  Forall (fun d => 0 <= d <= 9) ds -> ds <> [] ->
  (length ds <= 4300)%nat ->
  let s' := run_ops (clicks (c :: cs) ++
                     [OpMouse EVENT_RBUTTONDOWN rx ry] ++
                     typed ds w ++ [OpKey 13 w]) (fs, m) in
  fst s' = fs /\
  polygons (snd s') =
    polygons m ++ [Some (map (fun c => PTuple (fst c) (snd c)) (c :: cs))] /\
  roi_max_thresholds (snd s') = roi_max_thresholds m ++ [decimal ds] /\
  input_mode (snd s') = false /\ drawing (snd s') = false /\
  current_polygon (snd s') = [].
Proof.
  intros Hedit Hinput Hdraw Hfar Hlen Hds Hne Hshort.
  unfold run_ops. rewrite !fold_left_app. fold run_ops.
  change (fold_left (fun s o => apply_op o s) (clicks (c :: cs)) (fs, m))
    with (run_ops (clicks cs)
            (fs, fst (mouse_callback EVENT_LBUTTONDOWN (fst c) (snd c) m))).
  destruct (left_click_idle m (fst c) (snd c) Hedit Hinput Hdraw)
    as (Hp1 & Ht1 & Hstart & _).
  destruct (Hstart Hfar) as (_ & Hd1 & Hc1 & _).
  destruct (mouse_callback_modes EVENT_LBUTTONDOWN (fst c) (snd c) m)
    as [He1 Hi1].
  specialize (Hi1 ltac:(discriminate)).
  set (m1 := fst (mouse_callback EVENT_LBUTTONDOWN (fst c) (snd c) m)) in *.
  rewrite Hedit in He1. rewrite Hinput in Hi1.
  destruct (clicks_while_drawing cs fs m1 He1 Hi1 Hd1)
    as (F2 & He2 & Hi2 & Hd2 & Hc2 & Hp2 & Ht2).
  destruct (run_ops (clicks cs) (fs, m1)) as [fs2 m2].
  simpl in F2, He2, Hi2, Hd2, Hc2, Hp2, Ht2. subst fs2.
  change (fold_left (fun s o => apply_op o s)
            [OpMouse EVENT_RBUTTONDOWN rx ry] (fs, m2))
    with (fs, fst (mouse_callback EVENT_RBUTTONDOWN rx ry m2)).
  set (m3 := fst (mouse_callback EVENT_RBUTTONDOWN rx ry m2)).
  assert (H3 : input_mode m3 = true /\ input_buffer m3 = "" /\
               pending_polygon m3 = Some (current_polygon m2) /\
               polygons m3 = polygons m2 /\
               roi_max_thresholds m3 = roi_max_thresholds m2 /\
               drawing m3 = false /\ current_polygon m3 = []).
  { subst m3. unfold mouse_callback. simpl.
    rewrite He2, Hi2, Hd2, Hc2, Hc1.
    destruct cs as [|c1 [|c2 cs']]; simpl in Hlen; try lia.
    simpl. auto 10. }
  destruct H3 as (Hi3 & Hb3 & Hq3 & Hp3 & Ht3 & Hd3 & Hc3).
  change (fold_left (fun s o => apply_op o s) (typed ds w) (fs, m3))
    with (run_ops (typed ds w) (fs, m3)).
  rewrite (typed_digits ds w Hds fs m3 Hi3).
  destruct (handle_keys_digits ds Hds m3 Hi3) as (Hb4 & Hi4 & Hp4 & Ht4 & Hq4).
  set (m4 := handle_keys (digit_keys ds) m3) in *.
  simpl fold_left. unfold frame_handler. rewrite Hi4.
  unfold handle_key_input. rewrite Hi4. simpl.
  rewrite Hb4, Hb3, Hp4, Ht4, Hq4, Hq3, Hp3, Ht3, Hp2, Ht2, Hp1, Ht1, Hc2, Hc1.
  change ("" +:+ digit_string ds) with (digit_string ds).
  rewrite entered_threshold_spec, (py_int_decimal ds Hds Hne Hshort).
  destruct (handle_keys_drawing (digit_keys ds) m3) as [Hd4 Hc4].
  fold m4 in Hd4, Hc4. rewrite Hd4, Hc4, Hd3, Hc3. auto 10.
Qed.

(** The witness of X6: a triangle with threshold 25 is added to the
    registry holding the square. *)
Lemma X6_draw_region_witness :
  let s' := run_ops (clicks [(100, 100); (140, 100); (140, 140)] ++
                     [OpMouse EVENT_RBUTTONDOWN 0 0] ++
                     typed [2; 5] WriteOk ++ [OpKey 13 WriteOk])
                    (∅, set_edit_mode true one_square) in
  polygons (snd s') =
    [Some square; Some [PTuple 100 100; PTuple 140 100; PTuple 140 140]] /\
  roi_max_thresholds (snd s') = [3; 25].
Proof.
  destruct (X6_draw_region ∅ (set_edit_mode true one_square) (100, 100)
              [(140, 100); (140, 140)] 0 0 [2; 5] WriteOk
              eq_refl eq_refl eq_refl)
    as (_ & Hp & Ht & _).
  - repeat constructor. exists square. split; [reflexivity|].
    unfold near. repeat constructor; simpl; lia.
  - simpl. lia.
  - repeat constructor; lia.
  - discriminate.
  - simpl. lia.
  - split; [exact Hp | exact Ht].
Defined.

(** ** Loading and saving again *)



(** ** The extracted region *)

Lemma fold_max_ge (l : list Z) (a : Z) : a <= fold_left Z.max l a.
Proof.
  revert a. induction l as [|b l IH]; intros a; simpl; [lia|].
  specialize (IH (Z.max a b)). lia.
Qed.

Lemma fold_max_le (l : list Z) (a c : Z) :
  a <= c -> Forall (fun b => b <= c) l -> fold_left Z.max l a <= c.
Proof.
  revert a. induction l as [|b l IH]; intros a Ha Hl; simpl; [exact Ha|].
  inversion Hl; subst. apply IH; [lia | assumption].
Qed.

Lemma fold_max_bound (l : list Z) (a : Z) :
  Forall (fun b => b <= fold_left Z.max l a) l.
Proof.
  revert a. induction l as [|b l IH]; intros a; simpl; constructor.
  - pose proof (fold_max_ge l (Z.max a b)). lia.
  - apply IH.
Qed.

Lemma fold_min_bound (l : list Z) (a : Z) :
  Forall (fun b => fold_left Z.min l a <= b) l.
Proof.
  revert a. induction l as [|b l IH]; intros a; simpl; constructor.
  - pose proof (fold_min_le l (Z.min a b)). lia.
  - apply IH.
Qed.

Lemma fold_min_attained (l : list Z) (a : Z) :
  In (fold_left Z.min l a) (a :: l).
Proof.
  revert a. induction l as [|b l IH]; intros a; simpl; [now left|].
  destruct (IH (Z.min a b)) as [H | H]; [|now right; right].
  destruct (Z.min_spec a b) as [[_ E] | [_ E]]; rewrite E in *; auto.
Qed.

Lemma fold_max_attained (l : list Z) (a : Z) :
  In (fold_left Z.max l a) (a :: l).
Proof.
  revert a. induction l as [|b l IH]; intros a; simpl; [now left|].
  destruct (IH (Z.max a b)) as [H | H]; [|now right; right].
  destruct (Z.max_spec a b) as [[_ E] | [_ E]]; rewrite E in *; auto.
Qed.

(** The rectangle of [boundingRect] holds every point and touches a
    point on each of its four sides. *)
Lemma boundingRect_tight (pts : list (Z * Z)) :
  pts <> [] ->
  let '(x, y, w, h) := boundingRect pts in
  Forall (fun p => x <= fst p < x + w /\ y <= snd p < y + h) pts /\
  In x (map fst pts) /\ In (x + w - 1) (map fst pts) /\
  In y (map snd pts) /\ In (y + h - 1) (map snd pts).
Proof.
  destruct pts as [|p rest]; [congruence|]. intros _. simpl.
  pose proof (fold_min_le (map fst rest) (fst p)) as Hx0.
  pose proof (fold_max_ge (map fst rest) (fst p)) as Hx1.
  pose proof (fold_min_le (map snd rest) (snd p)) as Hy0.
  pose proof (fold_max_ge (map snd rest) (snd p)) as Hy1.
  pose proof (fold_min_bound (map fst rest) (fst p)) as Bx0.
  pose proof (fold_max_bound (map fst rest) (fst p)) as Bx1.
  pose proof (fold_min_bound (map snd rest) (snd p)) as By0.
  pose proof (fold_max_bound (map snd rest) (snd p)) as By1.
  pose proof (fold_min_attained (map fst rest) (fst p)) as Ax0.
  pose proof (fold_max_attained (map fst rest) (fst p)) as Ax1.
  pose proof (fold_min_attained (map snd rest) (snd p)) as Ay0.
  pose proof (fold_max_attained (map snd rest) (snd p)) as Ay1.
  set (x0 := fold_left Z.min (map fst rest) (fst p)) in *.
  set (x1 := fold_left Z.max (map fst rest) (fst p)) in *.
  set (y0 := fold_left Z.min (map snd rest) (snd p)) in *.
  set (y1 := fold_left Z.max (map snd rest) (snd p)) in *.
  replace (x0 + (x1 - x0 + 1) - 1) with x1 by lia.
  replace (y0 + (y1 - y0 + 1) - 1) with y1 by lia.
  split; [|auto].
  constructor; [lia|].
  rewrite List.Forall_forall in *. intros q Hq.
  specialize (Bx0 (fst q) (in_map fst _ _ Hq)).
  specialize (Bx1 (fst q) (in_map fst _ _ Hq)).
  specialize (By0 (snd q) (in_map snd _ _ Hq)).
  specialize (By1 (snd q) (in_map snd _ _ Hq)).
  lia.
Qed.

Lemma bitwise_and_mask_shape (im : image) (mask : list (list bool)) (w : nat) :
  length mask = length im ->
  Forall (fun row => length row = w) im ->
  Forall (fun row => length row = w) mask ->
  length (bitwise_and_mask im mask) = length im /\
  Forall (fun row => length row = w) (bitwise_and_mask im mask).
Proof.
  unfold bitwise_and_mask. revert mask.
  induction im as [|row im IH]; intros [|mrow mask] Hlen Him Hmask;
    try discriminate; simpl.
  - split; [reflexivity | constructor].
  - inversion Him; subst. inversion Hmask; subst.
    destruct (IH mask) as [IHl IHf]; try assumption; [simpl in Hlen; lia|].
    split; [now rewrite IHl|]. constructor; [|exact IHf].
    rewrite length_zip_with. lia.
Qed.

Section RegionShape.

Variable fillPoly : nat -> nat -> list (Z * Z) -> list (list bool).

(** X8: on a rectangular frame, with masks of the frame's size, a
    region returned by [extract_roi_region] has a non-negative offset, at
    least one row and one column, lies wholly inside the frame when put
    at its offset, and has exactly the rows and columns of its box. *)
Theorem X8_region_within_frame (im : image) (pts : polygon)
    (region : image) (x y : Z) :
  mask_shaped fillPoly -> rectangular im ->
  fst (extract_roi_region fillPoly im (Some pts)) = Some (region, (x, y)) ->
  exists w h : nat,
    (0 < w)%nat /\ (0 < h)%nat /\ 0 <= x /\ 0 <= y /\
    x + Z.of_nat w <= img_w im /\ y + Z.of_nat h <= img_h im /\
    length region = h /\ Forall (fun row => length row = w) region.
Proof.
  intros Hmask Hrect Hsome.
  pose proof (extract_roi_region_some fillPoly im pts region (x, y) Hsome)
    as Hspec.
  destruct (boundingRect (map coords pts)) as [[[bx by_] bw] bh].
  cbv zeta in Hspec. destruct Hspec as (_ & Hw & Hh & [= -> ->] & ->).
  set (x := Z.max 0 bx) in *. set (y := Z.max 0 by_) in *.
  set (w := Z.min bw (img_w im - x)) in *.
  set (h := Z.min bh (img_h im - y)) in *.
  exists (Z.to_nat w), (Z.to_nat h).
  destruct (Hmask (length im) (length (hd [] im)) (map coords pts))
    as [Hml Hmr].
  destruct (bitwise_and_mask_shape im _ _ Hml Hrect Hmr) as [Hl Hr].
  set (masked := bitwise_and_mask im _) in *.
  unfold img_w, img_h in *.
  repeat split; try lia.
  - unfold crop. rewrite length_map, length_take, length_drop, Hl. lia.
  - unfold crop. apply Forall_map.
    apply Forall_take, Forall_drop.
    eapply List.Forall_impl; [|exact Hr].
    intros row Hrow. simpl. rewrite length_take, length_drop, Hrow. lia.
Qed.

(** X9: for a polygon of at least three vertices that lies inside the
    frame, nothing is clipped: the region is cut at the bounding
    rectangle of the vertices, its offset is the corner of that
    rectangle, every vertex falls inside it, and each of its four sides
    passes through a vertex. *)
Theorem X9_polygon_inside_frame (im : image) (pts : polygon) :
  (3 <= length pts)%nat ->
  Forall (fun p => 0 <= fst (coords p) < img_w im /\
                   0 <= snd (coords p) < img_h im) pts ->
  img_w im <= 2 ^ 31 -> img_h im <= 2 ^ 31 ->
  let '(x, y, w, h) := boundingRect (map coords pts) in
  extract_roi_region fillPoly im (Some pts) =
    (Some (crop (bitwise_and_mask im
                   (fillPoly (length im) (length (hd [] im)) (map coords pts)))
                x y w h, (x, y)), []) /\
  Forall (fun p => x <= fst (coords p) < x + w /\
                   y <= snd (coords p) < y + h) pts /\
  In x (map fst (map coords pts)) /\ In (x + w - 1) (map fst (map coords pts)) /\
  In y (map snd (map coords pts)) /\ In (y + h - 1) (map snd (map coords pts)).
Proof.
  intros Hlen Hin Hw Hh.
  assert (Hne : map coords pts <> []) by (destruct pts; [simpl in Hlen; lia | discriminate]).
  pose proof (boundingRect_tight (map coords pts) Hne) as Htight.
  unfold extract_roi_region.
  destruct (boundingRect (map coords pts)) as [[[x y] w] h].
  destruct Htight as (Hall & Hx0 & Hx1 & Hy0 & Hy1).
  assert (Hall' : Forall (fun p => x <= fst (coords p) < x + w /\
                                   y <= snd (coords p) < y + h) pts).
  { rewrite List.Forall_forall in *. intros p Hp.
    apply (Hall (coords p)). now apply in_map. }
  assert (Hbox : 0 <= x /\ 0 <= y /\ x + w <= img_w im /\ y + h <= img_h im /\
                 0 < w /\ 0 < h).
  { rewrite List.Forall_forall in Hin.
    apply in_map_iff in Hx0 as (c0 & E0 & H0).
    apply in_map_iff in H0 as (p0 & <- & H0).
    apply in_map_iff in Hx1 as (c1 & E1 & H1).
    apply in_map_iff in H1 as (p1 & <- & H1).
    apply in_map_iff in Hy0 as (c2 & E2 & H2).
    apply in_map_iff in H2 as (p2 & <- & H2).
    apply in_map_iff in Hy1 as (c3 & E3 & H3).
    apply in_map_iff in H3 as (p3 & <- & H3).
    pose proof (Hin p0 H0). pose proof (Hin p1 H1).
    pose proof (Hin p2 H2). pose proof (Hin p3 H3).
    rewrite List.Forall_forall in Hall'. pose proof (Hall' p0 H0). lia. }
  assert (Hfew : (length pts <? 3)%nat = false) by (apply Nat.ltb_ge; lia).
  assert (Hfits : fits_int32 (map coords pts) = true).
  { unfold fits_int32. apply forallb_forall. intros c Hc.
    apply in_map_iff in Hc as (p & <- & Hp).
    rewrite List.Forall_forall in Hin. pose proof (Hin p Hp).
    repeat (apply andb_true_iff; split); lia. }
  rewrite Hfew, Hfits. simpl.
  replace (Z.max 0 x) with x by lia. replace (Z.max 0 y) with y by lia.
  replace (Z.min w (img_w im - x)) with w by lia.
  replace (Z.min h (img_h im - y)) with h by lia.
  assert (Hpos : (w <=? 0) || (h <=? 0) = false).
  { apply orb_false_iff. split; apply Z.leb_gt; lia. }
  rewrite Hpos. auto 10.
Qed.

End RegionShape.

(** The witness of X8: the square on a black 20 x 20 frame. *)
Lemma X8_region_within_frame_witness :
  let region :=
    crop (bitwise_and_mask (zeros 20 20)
            (full_mask 20 20 (map coords square))) 0 0 11 11 in
  exists w h : nat,
    (0 < w)%nat /\ (0 < h)%nat /\ 0 <= 0 /\ 0 <= 0 /\
    0 + Z.of_nat w <= img_w (zeros 20 20) /\
    0 + Z.of_nat h <= img_h (zeros 20 20) /\
    length region = h /\ Forall (fun row => length row = w) region.
Proof.
  intros region.
  apply (X8_region_within_frame full_mask (zeros 20 20) square region 0 0).
  - intros h w pts. unfold full_mask. rewrite length_replicate.
    split; [reflexivity|]. apply Forall_replicate, length_replicate.
  - unfold rectangular, zeros. simpl hd.
    apply Forall_replicate. reflexivity.
  - reflexivity.
Defined.

(** The witness of X9: the square on a 20 x 20 frame. *)
Lemma X9_polygon_inside_frame_witness :
  fst (extract_roi_region full_mask (zeros 20 20) (Some square)) <> None.
Proof.
  pose proof (X9_polygon_inside_frame full_mask (zeros 20 20) square
                ltac:(simpl; lia)
                ltac:(repeat constructor; simpl; lia)
                ltac:(vm_compute; discriminate)
                ltac:(vm_compute; discriminate)) as H.
  set (b := boundingRect (map coords square)) in H.
  vm_compute in b. subst b. cbv beta iota zeta in H.
  destruct H as [H _]. rewrite H. discriminate.
Defined.

(** ** Counts, statuses and the overflow overlay *)

Lemma py_sum_acc_nonneg (l : list Z) (acc : Z) :
  Forall (fun c => 0 <= c) l -> acc <= fold_left Z.add l acc.
Proof.
  revert acc. induction l as [|c l IH]; intros acc Hl; simpl; [lia|].
  inversion Hl; subst. specialize (IH (acc + c) ltac:(assumption)). lia.
Qed.

Lemma blink_fills_spec (ps : list roi_entry) (counts ths : list Z) :
  Forall (fun e => e <> None) ps ->
  forall k, exists filled,
    blink_fills ps counts ths k = inl filled /\
    forall i, In i filled <->
      (k <= i)%nat /\
      exists pts count th,
        ps !! (i - k)%nat = Some (Some pts) /\ (3 <= length pts)%nat /\
        counts !! i = Some count /\ ths !! i = Some th /\ th <= count.
Proof.
  induction 1 as [|[pts|] ps He Hps IH]; intros k; [| |congruence].
  - exists []. split; [reflexivity|]. intros i. split; [contradiction|].
    intros (_ & pts & c & th & Hp & _). discriminate Hp.
  - destruct (IH (S k)) as (filled & Hf & Hin).
    cbn [blink_fills]. rewrite Hf. cbv zeta.
    eexists. split; [reflexivity|]. intros i.
    assert (Hrest : In i filled <->
              (S k <= i)%nat /\
              exists pts' count th,
                (Some pts :: ps) !! (i - k)%nat = Some (Some pts') /\
                (3 <= length pts')%nat /\
                counts !! i = Some count /\ ths !! i = Some th /\ th <= count).
    { rewrite Hin. split; intros (Hle & pts' & c & th & Hp & Hrest).
      - split; [exact Hle|]. exists pts', c, th.
        replace (i - k)%nat with (S (i - S k)) by lia. now split.
      - split; [exact Hle|]. exists pts', c, th.
        replace (i - k)%nat with (S (i - S k)) in Hp by lia. now split. }
    destruct ((3 <=? length pts)%nat && (k <? length counts)%nat &&
              (k <? length ths)%nat &&
              match counts !! k, ths !! k with
              | Some count, Some th => th <=? count
              | _, _ => false
              end) eqn:Hfill.
    + change (In i (k :: filled)) with (k = i \/ In i filled).
      rewrite Hrest. split.
      * intros [Hki | (Hle & Hex)]; [subst i | split; [lia | exact Hex]].
        split; [lia|]. rewrite Nat.sub_diag.
        apply andb_true_iff in Hfill as [Hfill Hcmp].
        apply andb_true_iff in Hfill as [Hfill _].
        apply andb_true_iff in Hfill as [Hlen _].
        destruct (counts !! k) as [c|]; [|discriminate].
        destruct (ths !! k) as [th|]; [|discriminate].
        exists pts, c, th. apply Nat.leb_le in Hlen. apply Z.leb_le in Hcmp.
        auto.
      * intros (Hle & Hex).
        destruct (Nat.eq_dec k i) as [-> | Hne]; [now left | right].
        split; [lia | exact Hex].
    + rewrite Hrest. split; [intros (Hle & Hex); split; [lia | exact Hex]|].
      intros (Hle & pts' & c & th & Hp & Hlen & Hc & Ht & Hcmp).
      split; [|now exists pts', c, th].
      destruct (Nat.eq_dec k i) as [-> | Hne]; [|lia]. exfalso.
      rewrite Nat.sub_diag in Hp. simpl in Hp. injection Hp as ->.
      rewrite Hc, Ht in Hfill.
      apply lookup_lt_Some in Hc. apply lookup_lt_Some in Ht.
      assert (E1 : (3 <=? length pts')%nat = true) by now apply Nat.leb_le.
      assert (E2 : (i <? length counts)%nat = true) by now apply Nat.ltb_lt.
      assert (E3 : (i <? length ths)%nat = true) by now apply Nat.ltb_lt.
      assert (E4 : (th <=? c) = true) by now apply Z.leb_le.
      rewrite E1, E2, E3, E4 in Hfill. discriminate.
Qed.

Section Counting.

Variable fillPoly : nat -> nat -> list (Z * Z) -> list (list bool).
Variable detect_in_roi : image -> list box.

Local Abbreviation counts_of := (roi_counts fillPoly detect_in_roi).
Local Abbreviation statuses_of := (statuses fillPoly detect_in_roi).

Lemma count_in_roi_nonneg (im : image) (e : roi_entry) :
  0 <= count_in_roi fillPoly detect_in_roi im e.
Proof.
  unfold count_in_roi.
  destruct (fst (extract_roi_region fillPoly im e)) as [[region [ox oy]]|];
    [|lia].
  destruct e; lia.
Qed.

(** X10: a frame gives one count and one status per polygon of the
    registry, in the same order; a count is never negative, and it is
    zero for an entry with fewer than three vertices; so the total is
    never negative either. *)
Theorem X10_counts_per_polygon (im : image) (m : roi_manager) :
  length (counts_of im m) = length (polygons m) /\
  length (statuses_of im m) = length (polygons m) /\
  Forall (fun count => 0 <= count) (counts_of im m) /\
  0 <= py_sum (counts_of im m) /\
  (forall i pts, polygons m !! i = Some (Some pts) -> (length pts < 3)%nat ->
                 counts_of im m !! i = Some 0).
Proof.
  unfold statuses, roi_counts.
  rewrite length_imap, length_map.
  assert (Hnn : Forall (fun count => 0 <= count)
                  (map (count_in_roi fillPoly detect_in_roi im) (polygons m))).
  { apply Forall_map, Forall_forall. intros e _. apply count_in_roi_nonneg. }
  repeat split; try assumption.
  - apply (py_sum_acc_nonneg _ 0 Hnn).
  - intros i pts Hi Hlen.
    change (map (count_in_roi fillPoly detect_in_roi im) (polygons m))
      with (count_in_roi fillPoly detect_in_roi im <$> polygons m).
    pose proof (extract_roi_region_few_points fillPoly im pts Hlen) as Hex.
    rewrite list_lookup_fmap. unfold roi_entry, polygon in *. rewrite Hi.
    simpl. f_equal. unfold count_in_roi.
    unfold roi_entry, polygon in *. now rewrite Hex.
Qed.

(** X11: with the counts of the frame, the overlay paints exactly the
    regions whose status is overflow and whose polygon has at least
    three vertices. *)
Theorem X11_overlay_matches_statuses (im : image) (m : roi_manager) :
  Forall (fun e => e <> None) (polygons m) ->
  exists filled,
    blink_fills (polygons m) (counts_of im m) (roi_max_thresholds m) 0
      = inl filled /\
    forall i, In i filled <->
      statuses_of im m !! i = Some true /\
      exists pts, polygons m !! i = Some (Some pts) /\ (3 <= length pts)%nat.
Proof.
  intros Hsome.
  destruct (blink_fills_spec (polygons m) (counts_of im m)
              (roi_max_thresholds m) Hsome 0) as (filled & Hf & Hin).
  exists filled. split; [exact Hf|]. intros i. rewrite Hin.
  rewrite Nat.sub_0_r.
  unfold statuses. rewrite list_lookup_imap.
  split.
  - intros (_ & pts & c & th & Hp & Hlen & Hc & Ht & Hcmp).
    split; [|eauto]. rewrite Hc. simpl.
    rewrite Ht. f_equal. now apply Z.leb_le.
  - intros (Hst & pts & Hp & Hlen). split; [lia|].
    destruct (counts_of im m !! i) as [c|] eqn:Hc; [|discriminate].
    simpl in Hst.
    destruct (roi_max_thresholds m !! i) as [th|] eqn:Ht; [|discriminate].
    exists pts, c, th. injection Hst as Hst. apply Z.leb_le in Hst. auto.
Qed.

End Counting.

(** The witness of X10: a registry holding a segment. *)
Lemma X10_counts_per_polygon_witness :
  let m := set_rois [Some [PTuple 0 0; PTuple 5 5]] [1] init_manager in
  roi_counts full_mask four_detections (zeros 20 20) m !! 0%nat = Some 0.
Proof.
  intros m.
  destruct (X10_counts_per_polygon full_mask four_detections (zeros 20 20) m)
    as (_ & _ & _ & _ & H).
  apply (H 0%nat [PTuple 0 0; PTuple 5 5]); [reflexivity | simpl; lia].
Defined.

(** The witness of X11: the square with four people in it. *)
Lemma X11_overlay_matches_statuses_witness :
  exists filled,
    blink_fills (polygons one_square)
      (roi_counts full_mask four_detections (zeros 20 20) one_square)
      (roi_max_thresholds one_square) 0 = inl filled /\
    In 0%nat filled.
Proof.
  destruct (X11_overlay_matches_statuses full_mask four_detections
              (zeros 20 20) one_square ltac:(repeat constructor; discriminate))
    as (filled & Hf & Hin).
  exists filled. split; [exact Hf|]. apply Hin.
  split; [reflexivity|]. exists square. split; [reflexivity | simpl; lia].
Defined.

(** ** More on the detection loop *)

Lemma count_alerts_app (a b : list event) :
  count_alerts (a ++ b) = (count_alerts a + count_alerts b)%nat.
Proof. unfold count_alerts. now rewrite List.filter_app, length_app. Qed.

Lemma count_pushes_app (a b : list event) :
  count_pushes (a ++ b) = (count_pushes a + count_pushes b)%nat.
Proof. unfold count_pushes. now rewrite List.filter_app, length_app. Qed.

Lemma count_emails_app (a b : list event) :
  count_emails (a ++ b) = (count_emails a + count_emails b)%nat.
Proof. unfold count_emails. now rewrite List.filter_app, length_app. Qed.

(** Case analysis on every answer an iteration can meet. *)
Ltac frame_cases :=
  unfold frame_body, analysed; simpl;
  repeat match goal with
         | |- context [alert_due ?a ?b ?c ?d] =>
             destruct (alert_due a b c d) eqn:?; simpl
         | |- context [negb ?c] => destruct c eqn:?; simpl
         | |- context [if ?c then _ else _] => destruct c eqn:?; simpl
         | |- context [match ?c with Some _ => _ | None => _ end] =>
             destruct c eqn:?; simpl
         end.

Section LoopExtras.

Variable fillPoly : nat -> nat -> list (Z * Z) -> list (list bool).
Variable detect_in_roi : image -> list box.

Local Abbreviation frame_body := (frame_body fillPoly detect_in_roi).
Local Abbreviation detect_loop := (detect_loop fillPoly detect_in_roi).
Local Abbreviation detect := (detect fillPoly detect_in_roi).
Local Abbreviation total_of :=
  (fun (t : tick) (im0 : image) =>
     py_sum (roi_counts fillPoly detect_in_roi im0 (t_manager t))).
Local Abbreviation threshold_of :=
  (fun t : tick => py_sum (roi_max_thresholds (t_manager t))).

(** What an iteration fires: one alert when it analyses its frame and
    the alert is due, nothing otherwise. *)
Lemma frame_body_fired (cfg : config) (st : loop_state) (t : tick)
    (im0 : image) :
  fired_alerts (b_events (frame_body cfg st t im0)) =
  if analysed cfg st t &&
     alert_due (total_of t im0) (threshold_of t) (t_now t)
               (last_global_alert_time st)
  then [(t_now t, total_of t im0, threshold_of t)]
  else [].
Proof. frame_cases; try reflexivity; simpl in *; congruence. Qed.

(** In an iteration at most one alert fires, it is pushed at most once,
    after it fired, and mailed at most once, after it was pushed. *)
Lemma frame_body_counts (cfg : config) (st : loop_state) (t : tick)
    (im0 : image) :
  let evs := b_events (frame_body cfg st t im0) in
  (count_emails evs <= count_pushes evs)%nat /\
  (count_pushes evs <= count_alerts evs)%nat /\
  (count_alerts evs <= 1)%nat.
Proof.
  frame_cases; unfold count_alerts, count_pushes, count_emails; simpl;
    repeat split; lia.
Qed.

Lemma frame_body_processed (cfg : config) (st : loop_state) (t : tick)
    (im0 : image) :
  processed_frames (b_state (frame_body cfg st t im0)) =
  processed_frames st + 1.
Proof. frame_cases; try reflexivity; simpl in *; congruence. Qed.

Lemma frame_body_raised (cfg : config) (st : loop_state) (t : tick)
    (im0 : image) (e : exn) :
  b_raised (frame_body cfg st t im0) = Some e ->
  e = ZeroDivisionError \/ t_fault_detect t = Some e \/
  t_fault_screenshot t = Some e \/ t_fault_email t = Some e \/
  t_fault_sink t = Some e.
Proof.
  frame_cases; try discriminate; try (intros [= <-]; auto 10);
    simpl in *; congruence.
Qed.

Lemma detect_loop_quiet (cfg : config) (ticks : list tick) :
  (forall t im0, In t ticks -> frame_of cfg t = Some im0 ->
                 total_of t im0 < threshold_of t \/ threshold_of t <= 0) ->
  forall st, fired_alerts (fst (detect_loop cfg st ticks)) = [].
Proof.
  induction ticks as [|t rest IH]; intros Hquiet st; [reflexivity|].
  assert (Hrest : forall st', fired_alerts (fst (detect_loop cfg st' rest)) = []).
  { apply IH. intros t' im0 Hin. apply Hquiet. now right. }
  destruct (frame_of cfg t) as [im0|] eqn:Hframe.
  - rewrite (detect_loop_frame fillPoly detect_in_roi cfg st t rest im0 Hframe).
    cbv zeta.
    assert (Hnone : fired_alerts (b_events (frame_body cfg st t im0)) = []).
    { rewrite frame_body_fired.
      destruct (analysed cfg st t); [|reflexivity]. simpl.
      destruct (alert_due _ _ _ _) eqn:Hdue; [|reflexivity].
      apply alert_due_true in Hdue.
      destruct (Hquiet t im0 (or_introl eq_refl) Hframe); lia. }
    destruct (b_raised _) as [e|]; [destruct (is_Exception e)|]; simpl fst;
      rewrite ?fired_alerts_app, ?Hnone, ?Hrest; reflexivity.
  - destruct (detect_loop_no_frame fillPoly detect_in_roi cfg st t rest Hframe)
      as [-> | ->]; [reflexivity | apply Hrest].
Qed.

(** X12: the alert is gated on the totals alone.  In a run where, on
    every frame processed, the counts of all regions together stay below
    the thresholds of all regions together (or the thresholds sum to
    nothing), no alert fires, even if single regions overflow. *)
Theorem X12_no_alert_below_total_threshold (cfg : config)
    (init : init_outcome) (stop_fault : option exn) (ticks : list tick) :
  (forall t im0, In t ticks -> frame_of cfg t = Some im0 ->
                 total_of t im0 < threshold_of t \/ threshold_of t <= 0) ->
  fired_alerts (fst (detect cfg init stop_fault ticks)) = [].
Proof.
  intros Hquiet.
  destruct (detect_alerts fillPoly detect_in_roi cfg init stop_fault ticks)
    as [-> | ->]; [reflexivity | now apply detect_loop_quiet].
Qed.

(** X13: when an iteration analyses its frame and the alert is due, the
    alert fires whatever its side effects do; it is pushed to Redis if
    the screenshot step does not raise; and if that step raises an
    [Exception], nothing is pushed or mailed for this frame, the error
    is logged, and the loop goes on with the cooldown started. *)
Theorem X13_alert_when_due (cfg : config) (st : loop_state) (t : tick)
    (rest : list tick) (im0 : image) :
  frame_of cfg t = Some im0 ->
  analysed cfg st t = true ->
  alert_due (total_of t im0) (threshold_of t) (t_now t)
            (last_global_alert_time st) = true ->
  let alert := EvAlert (t_now t) (total_of t im0) (threshold_of t) in
  In alert (fst (detect_loop cfg st (t :: rest))) /\
  (t_fault_screenshot t = None ->
   In (EvPushAlert (total_of t im0) (threshold_of t))
      (fst (detect_loop cfg st (t :: rest)))) /\
  (forall e, t_fault_screenshot t = Some e -> is_Exception e = true ->
     let st' := {| processed_frames := processed_frames st + 1;
                   last_global_alert_time := t_now t;
                   last_metadata_update_time :=
                     last_metadata_update_time st |} in
     detect_loop cfg st (t :: rest) =
       ([alert; EvLog WARNING "SYSTEM-WIDE OVERFLOW";
         EvLog ERROR "Error processing frame"]
          ++ fst (detect_loop cfg st' rest),
        snd (detect_loop cfg st' rest))).
Proof.
  intros Hframe Han Hdue alert.
  rewrite (detect_loop_frame fillPoly detect_in_roi cfg st t rest im0 Hframe).
  cbv zeta. subst alert.
  unfold analysed in Han.
  apply andb_true_iff in Han as [Han Hdet].
  apply andb_true_iff in Han as [Hskip Hmod].
  apply negb_true_iff in Hskip.
  destruct (t_fault_detect t) eqn:Hfd; [discriminate|].
  unfold frame_body.
  cbn [processed_frames last_global_alert_time last_metadata_update_time].
  rewrite Hskip, Hmod, Hfd. cbn [negb]. cbv zeta.
  cbn [processed_frames last_global_alert_time last_metadata_update_time].
  rewrite Hdue.
  cbn [processed_frames last_global_alert_time last_metadata_update_time].
  split; [|split].
  - destruct (t_fault_screenshot t) as [e1|]; [|destruct (t_fault_email t) as [e2|];
      [|destruct (t_fault_sink t) as [e3|]]];
      cbn [b_raised b_events b_state];
      repeat match goal with
             | |- context [is_Exception ?e] => destruct (is_Exception e)
             end;
      cbn [fst]; rewrite <- ?app_assoc; now left.
  - intros Hshot. rewrite Hshot.
    destruct (t_fault_email t) as [e2|]; [|destruct (t_fault_sink t) as [e3|]];
      cbn [b_raised b_events b_state];
      repeat match goal with
             | |- context [is_Exception ?e] => destruct (is_Exception e)
             end;
      cbn [fst]; rewrite <- ?app_assoc; right; right; now left.
  - intros e Hshot Hexc. rewrite Hshot.
    cbn [b_raised b_events b_state]. rewrite Hexc. reflexivity.
Qed.


Lemma alerts_ok_lookup (alerts : list (Q * Z * Z)) :
  forall last j b,
    alerts_ok last alerts -> alerts !! j = Some b ->
    (ALERT_COOLDOWN_SECONDS * inject_Z (Z.of_nat (S j))
     < alert_time b - last)%Q.
Proof.
  unfold ALERT_COOLDOWN_SECONDS.
  induction alerts as [|[[now total] thr] rest IH]; intros last j b Hok Hj;
    [discriminate|].
  simpl in Hok. destruct Hok as (_ & _ & _ & Hnow & Hrest).
  unfold ALERT_COOLDOWN_SECONDS in Hnow.
  destruct j as [|j].
  - simpl in Hj. injection Hj as <-.
    change (inject_Z (Z.of_nat 1)) with 1%Q. unfold alert_time. simpl. lra.
  - simpl in Hj. specialize (IH now j b Hrest Hj).
    rewrite (Nat2Z.inj_succ (S j)), <- Z.add_1_r, inject_Z_plus.
    change (inject_Z 1) with 1%Q. lra.
Qed.

Lemma alerts_ok_drop (alerts : list (Q * Z * Z)) :
  forall last i a,
    alerts_ok last alerts -> alerts !! i = Some a ->
    alerts_ok (alert_time a) (drop (S i) alerts).
Proof.
  induction alerts as [|[[now total] thr] rest IH]; intros last i a Hok Hi;
    [discriminate|].
  simpl in Hok. destruct Hok as (_ & _ & _ & _ & Hrest).
  destruct i as [|i].
  - simpl in Hi. injection Hi as <-. exact Hrest.
  - simpl in Hi. simpl. now apply (IH now).
Qed.

(** X14: the alerts of a run are spaced by the cooldown one after the
    other: between the alert at position [i] and a later one at position
    [j] more than [120 * (j - i)] seconds pass.  A run therefore fires
    fewer than [1 + d / 120] alerts in any [d] seconds. *)
Theorem X14_alerts_linearly_spaced (cfg : config) (init : init_outcome)
    (stop_fault : option exn) (ticks : list tick) (i j : nat)
    (a b : Q * Z * Z) :
  let alerts := fired_alerts (fst (detect cfg init stop_fault ticks)) in
  (i < j)%nat -> alerts !! i = Some a -> alerts !! j = Some b ->
  (ALERT_COOLDOWN_SECONDS * inject_Z (Z.of_nat (j - i))
   < alert_time b - alert_time a)%Q.
Proof.
  intros alerts Hij Hi Hj.
  assert (Hok : alerts_ok 0 alerts).
  { subst alerts.
    destruct (detect_alerts fillPoly detect_in_roi cfg init stop_fault ticks)
      as [-> | ->];
      [exact I
      | apply (detect_loop_alerts_ok fillPoly detect_in_roi cfg ticks loop_init)]. }
  pose proof (alerts_ok_drop alerts 0 i a Hok Hi) as Hdrop.
  assert (Hj' : drop (S i) alerts !! (j - S i)%nat = Some b).
  { rewrite lookup_drop. now replace (S i + (j - S i))%nat with j by lia. }
  pose proof (alerts_ok_lookup _ _ _ _ Hdrop Hj') as H.
  now replace (S (j - S i)) with (j - i)%nat in H by lia.
Qed.

Lemma detect_loop_counts (cfg : config) (ticks : list tick) :
  forall st,
    let evs := fst (detect_loop cfg st ticks) in
    (count_emails evs <= count_pushes evs)%nat /\
    (count_pushes evs <= count_alerts evs)%nat.
Proof.
  induction ticks as [|t rest IH]; intros st; [unfold count_emails, count_pushes, count_alerts; simpl; split; lia|].
  destruct (frame_of cfg t) as [im0|] eqn:Hframe.
  - rewrite (detect_loop_frame fillPoly detect_in_roi cfg st t rest im0 Hframe).
    cbv zeta.
    destruct (frame_body_counts cfg st t im0) as (H1 & H2 & _).
    destruct (IH (b_state (frame_body cfg st t im0))) as [I1 I2].
    cbv zeta in I1, I2.
    assert (E1 : count_emails [EvLog ERROR "Error processing frame"] = 0%nat)
      by reflexivity.
    assert (E2 : count_pushes [EvLog ERROR "Error processing frame"] = 0%nat)
      by reflexivity.
    assert (E3 : count_alerts [EvLog ERROR "Error processing frame"] = 0%nat)
      by reflexivity.
    destruct (b_raised _) as [e|]; [destruct (is_Exception e)|]; simpl fst;
      rewrite ?count_emails_app, ?count_pushes_app, ?count_alerts_app,
        ?E1, ?E2, ?E3;
      split; lia.
  - unfold frame_of in Hframe. simpl.
    destruct (is_webcam (source cfg)).
    + destruct (t_read t) as [[|] [im|]]; try discriminate.
      * specialize (IH st). cbv zeta in IH.
        destruct (detect_loop cfg st rest). exact IH.
      * destruct (t_fault_sink t); [unfold count_emails, count_pushes, count_alerts; simpl; split; lia|].
        specialize (IH st). cbv zeta in IH.
        destruct (detect_loop cfg st rest). simpl in *.
        unfold count_emails, count_pushes, count_alerts in *. simpl. exact IH.
      * specialize (IH st). cbv zeta in IH.
        destruct (detect_loop cfg st rest). exact IH.
    + destruct (t_next t) as [im|e]; [discriminate|].
      destruct e; unfold count_emails, count_pushes, count_alerts; simpl;
        split; lia.
Qed.

(** X15: in every run, an alert is pushed to Redis only after it fired
    and mailed only after it was pushed: there are never more pushes
    than alerts, nor more mails than pushes. *)
Theorem X15_pushes_follow_alerts (cfg : config) (init : init_outcome)
    (stop_fault : option exn) (ticks : list tick) :
  let evs := fst (detect cfg init stop_fault ticks) in
  (count_emails evs <= count_pushes evs)%nat /\
  (count_pushes evs <= count_alerts evs)%nat.
Proof.
  unfold detect.
  assert (Hh : forall bound is_none e,
             let evs := fst (critical_handler cfg bound is_none stop_fault e) in
             count_emails evs = 0%nat /\ count_pushes evs = 0%nat /\
             count_alerts evs = 0%nat).
  { intros bound is_none e. unfold critical_handler.
    destruct (is_Exception e), (bound && is_webcam (source cfg)), is_none,
      stop_fault; simpl; repeat split; reflexivity. }
  destruct init as [|[] e];
    try (destruct (Hh false false e) as (-> & -> & ->); split; lia);
    try (destruct (Hh true true e) as (-> & -> & ->); split; lia);
    try (destruct (Hh true false e) as (-> & -> & ->); split; lia).
  destruct (detect_loop_counts cfg ticks loop_init) as [I1 I2].
  cbv zeta in I1, I2.
  destruct (detect_loop cfg loop_init ticks) as [evs [st| |e]]; simpl in *.
  - unfold count_emails, count_pushes, count_alerts in *. simpl. split; lia.
  - unfold count_emails, count_pushes, count_alerts in *. simpl. split; lia.
  - destruct (Hh true false e) as (H1 & H2 & H3). cbv zeta in H1, H2, H3.
    destruct (critical_handler cfg true false stop_fault e) as [evs' r'].
    simpl in *.
    change (EvLog INFO "Starting main detection loop..." :: evs ++ evs')
      with ((EvLog INFO "Starting main detection loop..." :: evs) ++ evs').
    rewrite count_emails_app, count_pushes_app, count_alerts_app, H1, H2, H3.
    unfold count_emails, count_pushes, count_alerts in *. simpl. split; lia.
Qed.


(** X16: on a live source, as long as every exception met derives from
    [Exception] and the sink accepts the placeholder frames, the loop
    never ends: after any number of iterations it is still running, and
    it has counted exactly the live frames it was handed. *)
Theorem X16_loop_keeps_running (cfg : config) (st : loop_state)
    (ticks : list tick) :
  is_webcam (source cfg) = true ->
  Forall survivable ticks ->
  exists st',
    snd (detect_loop cfg st ticks) = Running st' /\
    processed_frames st' =
      processed_frames st + Z.of_nat (length (List.filter live_frame ticks)).
Proof.
  intros Hweb Hall. revert st.
  induction Hall as [|t rest [Hexc Hsink] Hrest IH]; intros st.
  - exists st. split; [reflexivity | simpl; lia].
  - destruct (frame_of cfg t) as [im0|] eqn:Hframe.
    + rewrite (detect_loop_frame fillPoly detect_in_roi cfg st t rest im0 Hframe).
      cbv zeta.
      destruct (IH (b_state (frame_body cfg st t im0))) as (st' & Hrun & Hcount).
      rewrite frame_body_processed in Hcount.
      assert (Hlive : live_frame t = true).
      { unfold frame_of in Hframe. rewrite Hweb in Hframe. unfold live_frame.
        now destruct (t_read t) as [[|] [im|]]. }
      exists st'. simpl List.filter. rewrite Hlive. simpl length.
      destruct (b_raised _) as [e|] eqn:Hraised.
      * assert (He : is_Exception e = true).
        { destruct (frame_body_raised cfg st t im0 e Hraised)
            as [-> | H]; [reflexivity | apply Hexc; tauto]. }
        rewrite He. simpl snd. split; [exact Hrun | lia].
      * simpl snd. split; [exact Hrun | lia].
    + assert (Hlive : live_frame t = false).
      { unfold frame_of in Hframe. rewrite Hweb in Hframe. unfold live_frame.
        now destruct (t_read t) as [[|] [im|]]. }
      destruct (IH st) as (st' & Hrun & Hcount).
      exists st'. simpl List.filter. rewrite Hlive.
      split; [|exact Hcount].
      simpl. rewrite Hweb. unfold frame_of in Hframe. rewrite Hweb in Hframe.
      destruct (t_read t) as [[|] [im|]] eqn:Hread; try discriminate.
      * now destruct (detect_loop cfg st rest).
      * rewrite (Hsink im eq_refl). now destruct (detect_loop cfg st rest).
      * now destruct (detect_loop cfg st rest).
Qed.

(** X17: while the stream source is down, the loop only forwards the
    placeholder frames it is given: it counts nothing, writes nothing
    to Redis, fires nothing, and its state does not move. *)
Theorem X17_outage_only_forwards (cfg : config) (st : loop_state)
    (ticks : list tick) :
  is_webcam (source cfg) = true ->
  Forall outage ticks ->
  detect_loop cfg st ticks = (placeholders ticks, Running st).
Proof.
  intros Hweb Hall.
  induction Hall as [|t rest Hout Hrest IH]; [reflexivity|].
  simpl. rewrite Hweb. unfold placeholders in *. simpl flat_map.
  fold detect_loop. rewrite IH.
  unfold outage in Hout.
  destruct (t_read t) as [[|] [im|]]; simpl in Hout |- *;
    destruct Hout as [[Hf Hs] | Hn]; try congruence.
  now rewrite Hs.
Qed.

End LoopExtras.

(** The witness of X12: four people in each of two squares with
    thresholds 1 and 10: the first region overflows, the total of 8
    stays below 11, and nothing fires. *)
Lemma X12_no_alert_below_total_threshold_witness :
  statuses full_mask four_detections (zeros 120 120) two_squares
    = [true; false] /\
  fired_alerts
    (fst (detect full_mask four_detections config_standalone InitOk None
            [two_squares_tick 1000; two_squares_tick 2000])) = [].
Proof.
  split; [vm_compute; reflexivity|].
  apply X12_no_alert_below_total_threshold.
  intros t im0 [<- | [<- | []]] [= <-]; left; vm_compute; reflexivity.
Defined.

(** The witness of X13: four people in the square with threshold 3 at
    time 1000, and the screenshot cannot be saved. *)
Lemma X13_alert_when_due_witness :
  fst (detect_loop full_mask four_detections config_standalone loop_init
         [failed_screenshot_tick 1000])
  = [EvAlert 1000 4 3; EvLog WARNING "SYSTEM-WIDE OVERFLOW";
     EvLog ERROR "Error processing frame"].
Proof.
  destruct (X13_alert_when_due full_mask four_detections config_standalone
              loop_init (failed_screenshot_tick 1000) [] (zeros 20 20)
              eq_refl eq_refl eq_refl) as (_ & _ & H).
  rewrite (H OSError eq_refl eq_refl). reflexivity.
Defined.

(** The witness of X14: frames at times 1000, 1001 and 1121. *)
Lemma X14_alerts_linearly_spaced_witness :
  (ALERT_COOLDOWN_SECONDS * inject_Z (Z.of_nat (1 - 0))
   < alert_time (1121%Q, 4%Z, 3%Z) - alert_time (1000%Q, 4%Z, 3%Z))%Q.
Proof.
  exact (X14_alerts_linearly_spaced full_mask four_detections
           config_standalone InitOk None
           [live_tick 1000 None; live_tick 1001 None; live_tick 1121 None]
           0 1 (1000%Q, 4%Z, 3%Z) (1121%Q, 4%Z, 3%Z)
           ltac:(lia) eq_refl eq_refl).
Defined.

(** The witness of X16: the sink raises an OpenCV error on the first of
    two live frames. *)
Lemma X16_loop_keeps_running_witness :
  exists st',
    snd (detect_loop full_mask four_detections config_standalone loop_init
           [live_tick 1000 (Some (OtherException "cv2.error"));
            live_tick 1001 None]) = Running st' /\
    processed_frames st' = 2.
Proof.
  destruct (X16_loop_keeps_running full_mask four_detections
              config_standalone loop_init
              [live_tick 1000 (Some (OtherException "cv2.error"));
               live_tick 1001 None] eq_refl) as (st' & Hrun & Hcount).
  - constructor; [split|constructor; [split|constructor]]; simpl.
    + intros e [H | [H | [H | H]]]; try discriminate.
      now injection H as <-.
    + discriminate.
    + intros e [H | [H | [H | H]]]; discriminate.
    + discriminate.
  - exists st'. split; [exact Hrun | exact Hcount].
Defined.

(** The witness of X17: three iterations of an outage. *)
Lemma X17_outage_only_forwards_witness :
  detect_loop full_mask four_detections config_standalone loop_init
    [placeholder_tick; placeholder_tick; placeholder_tick]
  = ([EvFrameOut false; EvFrameOut false; EvFrameOut false],
     Running loop_init).
Proof.
  apply (X17_outage_only_forwards full_mask four_detections
           config_standalone loop_init
           [placeholder_tick; placeholder_tick; placeholder_tick] eq_refl).
  repeat constructor; left; split; reflexivity.
Defined.

(** * Further properties of the Redis helpers *)

(** What [push_alert] does to the store.  The series and the camera
    records are never touched.  Either the queue is as it was, at most
    one identifier was taken and the call returned [False]; or one
    identifier was taken and the alert was queued under it, which is
    the case whenever the call returned [True]. *)
Lemma push_alert_store (env : redis_env) (s : redis_state)
    (cam : Z) (name : string) (count : Z) (message level : string)
    (screenshot_path : option string) (max_threshold_total : option Z) :
  let r := push_alert env cam name count message level screenshot_path
             max_threshold_total s in
  let st := store s in
  let st' := store (snd (fst r)) in
  crowd st' = crowd st /\ crowd_expire st' = crowd_expire st /\
  camera st' = camera st /\
  ((returned r = Some false /\ alerts_queue st' = alerts_queue st /\
    (alert_counter st' = alert_counter st \/
     alert_counter st' = alert_counter st + 1)) \/
   ((returned r = Some true \/ returned r = Some false) /\
    alert_counter st' = alert_counter st + 1 /\
    exists a, alerts_queue st' = alerts_queue st ++ [a] /\
              alert_id a = alert_counter st + 1 /\
              alert_cam_id a = cam /\ alert_count a = count /\
              alert_threshold a = max_threshold_total)).
Proof.
  all_answers env s;
    destruct incr as [[| |?]|]; destruct rpush as [[| |?]|];
    cbn; (split; [reflexivity|]); (split; [reflexivity|]);
    (split; [reflexivity|]);
    first [ left; split; [reflexivity|]; split; [reflexivity|];
            first [left; reflexivity | right; reflexivity]
          | right; split; [first [left; reflexivity | right; reflexivity]|];
            split; [reflexivity|];
            eexists; split; [reflexivity|]; repeat split; reflexivity ].
Qed.

(** What [update_crowd_count] does to the store: nothing, and then it
    returned [False]; or the whole pipeline, which is the case whenever
    it returned [True]. *)
Lemma update_crowd_count_store (env : redis_env) (s : redis_state)
    (cam count : Z) :
  let r := update_crowd_count env cam count s in
  let st := store s in
  let st' := store (snd (fst r)) in
  alert_counter st' = alert_counter st /\
  alerts_queue st' = alerts_queue st /\ camera st' = camera st /\
  ((returned r = Some false /\ crowd st' = crowd st /\
    crowd_expire st' = crowd_expire st) \/
   ((returned r = Some true \/ returned r = Some false) /\
    crowd st' =
      <[cam := take (Z.to_nat MAX_ENTRIES)
                 ((env_time env, count) :: default [] (crowd st !! cam))]>
        (crowd st) /\
    crowd_expire st' = <[cam := MAX_ENTRIES * 2]> (crowd_expire st))).
Proof.
  all_answers env s; destruct execute as [[| |?]|];
    cbn; (split; [reflexivity|]); (split; [reflexivity|]);
    (split; [reflexivity|]);
    first [ left; repeat split; reflexivity
          | right; split; [first [left; reflexivity | right; reflexivity]|];
            split; reflexivity ].
Qed.

(** What [insert_camera_data] does to the store. *)
Lemma insert_camera_data_store (env : redis_env) (s : redis_state)
    (cam count : Z) :
  let r := insert_camera_data env cam count s in
  let st := store s in
  let st' := store (snd (fst r)) in
  alert_counter st' = alert_counter st /\
  alerts_queue st' = alerts_queue st /\
  crowd st' = crowd st /\ crowd_expire st' = crowd_expire st /\
  ((returned r = Some false /\ camera st' = camera st) \/
   ((returned r = Some true \/ returned r = Some false) /\
    camera st' = <[cam := (count, env_strftime env)]> (camera st))).
Proof.
  all_answers env s; destruct set_ as [[| |?]|];
    cbn; (split; [reflexivity|]); (split; [reflexivity|]);
    (split; [reflexivity|]); (split; [reflexivity|]);
    first [ left; repeat split; reflexivity
          | right; split; [first [left; reflexivity | right; reflexivity]|];
            reflexivity ].
Qed.

(** A call that obtains no client sends no command. *)
Lemma no_client_no_command (c : redis_call) (s : redis_state) :
  client_obtained (call_env c) s = false ->
  store (after_call c s) = store s /\ call_result c s = Some false.
Proof.
  unfold client_obtained.
  destruct c as [env cam name count msg lvl shot thr
                |env cam count|env cam count];
    cbn [call_env after_call call_result];
    all_answers env s; cbn; intros H; try discriminate H;
    split; reflexivity.
Qed.

Lemma ids_in_order_counter (st st' : redis_store) :
  alerts_queue st' = alerts_queue st ->
  alert_counter st <= alert_counter st' ->
  ids_in_order st -> ids_in_order st'.
Proof.
  intros Hq Hc [Hs Hb]. split.
  - rewrite Hq. exact Hs.
  - rewrite Hq. eapply List.Forall_impl; [|exact Hb].
    intros a Ha. simpl in Ha. lia.
Qed.

Lemma ids_in_order_push (st st' : redis_store) (a : alert) :
  alerts_queue st' = alerts_queue st ++ [a] ->
  alert_counter st' = alert_counter st + 1 ->
  alert_id a = alert_counter st + 1 ->
  ids_in_order st -> ids_in_order st'.
Proof.
  intros Hq Hc Ha [Hs Hb]. split.
  - rewrite Hq. intros i j x y Hij Hi Hj.
    destruct (decide (j < length (alerts_queue st))%nat) as [Hlt|Hge].
    + rewrite lookup_app_l in Hi by lia.
      rewrite lookup_app_l in Hj by lia.
      eauto.
    + rewrite lookup_app_r in Hj by lia.
      destruct (j - length (alerts_queue st))%nat as [|k] eqn:Ek;
        simpl in Hj; [|discriminate].
      assert (Hy : y = a) by congruence.
      subst y.
      assert (Hi' : alerts_queue st !! i = Some x).
      { rewrite lookup_app_l in Hi by lia. exact Hi. }
      rewrite Forall_lookup in Hb. specialize (Hb _ _ Hi'). simpl in Hb.
      lia.
  - rewrite Hq, Hc. apply Forall_app. split.
    + eapply List.Forall_impl; [|exact Hb]. intros x Hx. simpl in Hx. lia.
    + constructor; [lia | constructor].
Qed.

Lemma after_call_ids (c : redis_call) (s : redis_state) :
  ids_in_order (store s) ->
  ids_in_order (store (after_call c s)) /\
  alert_counter (store s) <= alert_counter (store (after_call c s)) /\
  (length (alerts_queue (store s))
     <= length (alerts_queue (store (after_call c s))))%nat.
Proof.
  intros H. destruct c as [env cam name count msg lvl shot thr
                          |env cam count|env cam count]; simpl.
  - destruct (push_alert_store env s cam name count msg lvl shot thr)
      as (_ & _ & _ & [(_ & Hq & Hc)|(_ & Hc & a & Hq & Ha & _)]).
    + split; [|split].
      * eapply ids_in_order_counter; [exact Hq| |exact H].
        destruct Hc as [->| ->]; lia.
      * destruct Hc as [->| ->]; lia.
      * rewrite Hq. lia.
    + split; [|split].
      * eapply ids_in_order_push; eauto.
      * lia.
      * rewrite Hq, length_app. simpl. lia.
  - destruct (update_crowd_count_store env s cam count)
      as (Hc & Hq & _). split; [|split].
    + eapply ids_in_order_counter; [exact Hq| |exact H]. lia.
    + lia.
    + rewrite Hq. lia.
  - destruct (insert_camera_data_store env s cam count)
      as (Hc & Hq & _). split; [|split].
    + eapply ids_in_order_counter; [exact Hq| |exact H]. lia.
    + lia.
    + rewrite Hq. lia.
Qed.

Lemma ids_in_order_NoDup (st : redis_store) :
  ids_in_order st -> NoDup (map alert_id (alerts_queue st)).
Proof.
  intros [Hs _]. apply NoDup_alt. intros i j x Hi Hj.
  rewrite list_lookup_fmap in Hi, Hj.
  destruct (alerts_queue st !! i) as [a|] eqn:Ei; [|discriminate].
  destruct (alerts_queue st !! j) as [b|] eqn:Ej; [|discriminate].
  simpl in Hi, Hj.
  destruct (lt_eq_lt_dec i j) as [[Hlt|Heq]|Hgt]; [|exact Heq|].
  - specialize (Hs _ _ _ _ Hlt Ei Ej).
    assert (alert_id a = alert_id b) by congruence. lia.
  - specialize (Hs _ _ _ _ Hgt Ej Ei).
    assert (alert_id a = alert_id b) by congruence. lia.
Qed.

(** X18: however the three helpers are called, and whatever the server
    answers, the alerts in the queue keep strictly increasing
    identifiers, none above the counter; so no two queued alerts share
    an identifier, the counter never goes down and the queue never
    loses an alert. *)
Theorem X18_alert_ids_increase (cs : list redis_call) (s : redis_state) :
  ids_in_order (store s) ->
  ids_in_order (store (after_calls cs s)) /\
  NoDup (map alert_id (alerts_queue (store (after_calls cs s)))) /\
  alert_counter (store s) <= alert_counter (store (after_calls cs s)) /\
  (length (alerts_queue (store s))
     <= length (alerts_queue (store (after_calls cs s))))%nat.
Proof.
  intros H.
  cut (ids_in_order (store (after_calls cs s)) /\
       alert_counter (store s) <= alert_counter (store (after_calls cs s)) /\
       (length (alerts_queue (store s))
          <= length (alerts_queue (store (after_calls cs s))))%nat).
  { intros (A & B & C). repeat split; try apply A; auto.
    apply ids_in_order_NoDup, A. }
  revert s H. induction cs as [|c cs IH]; intros s H.
  - simpl. repeat split; try apply H; lia.
  - change (after_calls (c :: cs) s) with (after_calls cs (after_call c s)).
    destruct (after_call_ids c s H) as (A & B & C).
    destruct (IH _ A) as (A' & B' & C').
    split; [exact A'|]. split; lia.
Qed.

Lemma X18_alert_ids_increase_witness :
  ids_in_order (store redis_fresh) /\
  NoDup (map alert_id (alerts_queue (store redis_two_alerts))) /\
  map alert_id (alerts_queue (store redis_two_alerts)) = [1; 2].
Proof.
  assert (H : ids_in_order (store redis_fresh)).
  { split; [|constructor]. intros i j a b _ Hi. destruct i; discriminate. }
  split; [exact H|]. split; [|reflexivity].
  exact (proj1 (proj2 (X18_alert_ids_increase
    [CallPushAlert redis_up 7 "Gate" 12 "High crowd density" "warning"
       (Some "http://host/uploads/a.jpg") (Some 10);
     CallUpdateCrowdCount redis_up 7 12;
     CallPushAlert redis_up 7 "Gate" 15 "High crowd density" "warning"
       None (Some 10)] redis_fresh H))).
Defined.

(** X19: when [update_crowd_count] returns [True], the series of the
    camera starts with the new reading, keeps the older readings in
    order up to 6000 entries in all, and expires after 12000 seconds;
    the series of the other cameras, the alerts and the camera records
    are untouched. *)
Theorem X19_crowd_series_bounded (env : redis_env) (s : redis_state)
    (cam count : Z) :
  let r := update_crowd_count env cam count s in
  let st := store s in
  let st' := store (snd (fst r)) in
  let old := default [] (crowd st !! cam) in
  returned r = Some true ->
  (exists series,
      crowd st' !! cam = Some series /\
      series !! 0%nat = Some (env_time env, count) /\
      drop 1 series = take (Z.to_nat 5999) old /\
      Z.of_nat (length series) = Z.min 6000 (Z.of_nat (length old) + 1)) /\
  crowd_expire st' !! cam = Some 12000 /\
  (forall other, other <> cam ->
     crowd st' !! other = crowd st !! other /\
     crowd_expire st' !! other = crowd_expire st !! other) /\
  alerts_queue st' = alerts_queue st /\
  alert_counter st' = alert_counter st /\
  camera st' = camera st.
Proof.
  pose proof (update_crowd_count_store env s cam count) as L.
  cbv zeta in L. cbv zeta. intros Hr.
  destruct L as (Hc & Hq & Hcam & [(Hf & _)|(_ & Hcr & Hex)]);
    [congruence|].
  assert (E : Z.to_nat MAX_ENTRIES = S (Z.to_nat 5999))
    by (unfold MAX_ENTRIES; lia).
  rewrite E in Hcr.
  split; [|split; [|split; [|auto]]].
  - eexists. split; [rewrite Hcr; apply lookup_insert_eq|].
    split; [reflexivity|]. split; [reflexivity|].
    rewrite firstn_cons. simpl length. rewrite length_take. lia.
  - rewrite Hex. rewrite lookup_insert_eq. reflexivity.
  - intros other Ho. rewrite Hcr, Hex.
    rewrite !lookup_insert_ne by congruence. auto.
Qed.

Lemma X19_crowd_series_bounded_witness :
  returned (update_crowd_count redis_up 7 12 redis_two_alerts) = Some true /\
  crowd_expire
    (store (snd (fst (update_crowd_count redis_up 7 12 redis_two_alerts))))
    !! 7 = Some 12000.
Proof.
  split; [reflexivity|].
  exact (proj1 (proj2 (X19_crowd_series_bounded redis_up redis_two_alerts
                         7 12 eq_refl))).
Defined.

(** X20: what a call can touch, and what it has done when it says so.
    A call that obtains no client sends nothing: it returns [False] and
    leaves the store as it was.  Whatever the server answers, and even
    if it applied a command whose reply never arrived, [push_alert]
    touches only the counter and the queue (at most one identifier is
    taken and at most one alert, of this camera and count, is
    appended), [update_crowd_count] only the series and the expiry of
    its camera, and [insert_camera_data] only the record of its camera.
    A call that returns [True] has queued the alert under the new
    identifier, put the reading at the head of the series, or written
    the record. *)
Theorem X20_calls_touch_only_their_keys (c : redis_call) (s : redis_state) :
  let st := store s in
  let st' := store (after_call c s) in
  (client_obtained (call_env c) s = false ->
   st' = st /\ call_result c s = Some false) /\
  match c with
  | CallPushAlert env cam name count message level shot thr =>
      crowd st' = crowd st /\ crowd_expire st' = crowd_expire st /\
      camera st' = camera st /\
      alert_counter st <= alert_counter st' <= alert_counter st + 1 /\
      (alerts_queue st' = alerts_queue st \/
       exists a, alerts_queue st' = alerts_queue st ++ [a] /\
                 alert_cam_id a = cam /\ alert_count a = count) /\
      (call_result c s = Some true ->
       alert_counter st' = alert_counter st + 1 /\
       exists a, alerts_queue st' = alerts_queue st ++ [a] /\
                 alert_id a = alert_counter st + 1 /\
                 alert_cam_id a = cam /\ alert_count a = count /\
                 alert_threshold a = thr)
  | CallUpdateCrowdCount env cam count =>
      alert_counter st' = alert_counter st /\
      alerts_queue st' = alerts_queue st /\ camera st' = camera st /\
      (forall other, other <> cam ->
         crowd st' !! other = crowd st !! other /\
         crowd_expire st' !! other = crowd_expire st !! other) /\
      (call_result c s = Some true ->
       crowd_expire st' !! cam = Some (MAX_ENTRIES * 2) /\
       exists older, crowd st' !! cam = Some ((env_time env, count) :: older))
  | CallInsertCameraData env cam count =>
      alert_counter st' = alert_counter st /\
      alerts_queue st' = alerts_queue st /\
      crowd st' = crowd st /\ crowd_expire st' = crowd_expire st /\
      (forall other, other <> cam ->
         camera st' !! other = camera st !! other) /\
      (call_result c s = Some true ->
       camera st' !! cam = Some (count, env_strftime env))
  end.
Proof.
  cbv zeta. split; [apply no_client_no_command|].
  destruct c as [env cam name count msg lvl shot thr
                |env cam count|env cam count]; cbn [after_call call_result].
  - pose proof (push_alert_store env s cam name count msg lvl shot thr) as L.
    cbv zeta in L.
    destruct L as (H1 & H2 & H3 & [(Hf & Hq & Hc)|(_ & Hc & a & Hq & Ha)]).
    + split; [exact H1|]. split; [exact H2|]. split; [exact H3|].
      split; [destruct Hc as [->| ->]; lia|].
      split; [left; exact Hq | intros Ht; congruence].
    + split; [exact H1|]. split; [exact H2|]. split; [exact H3|].
      split; [lia|]. split.
      * right. exists a. destruct Ha as (_ & A & B & _). auto.
      * intros _. split; [exact Hc|]. exists a. auto.
  - pose proof (update_crowd_count_store env s cam count) as L.
    cbv zeta in L.
    destruct L as (H1 & H2 & H3 & [(Hf & Hcr & Hex)|(_ & Hcr & Hex)]);
      (split; [exact H1|]); (split; [exact H2|]); (split; [exact H3|]);
      (split;
       [intros other Ho; rewrite Hcr, Hex;
        rewrite ?lookup_insert_ne by congruence; auto|]).
    + intros Ht. congruence.
    + intros _. rewrite Hcr, Hex, !lookup_insert_eq.
      split; [reflexivity|].
      assert (E : Z.to_nat MAX_ENTRIES = S (Z.to_nat 5999))
        by (unfold MAX_ENTRIES; lia).
      rewrite E. eexists. reflexivity.
  - pose proof (insert_camera_data_store env s cam count) as L.
    cbv zeta in L.
    destruct L as (H1 & H2 & H3 & H4 & [(Hf & Hcam)|(_ & Hcam)]);
      (split; [exact H1|]); (split; [exact H2|]); (split; [exact H3|]);
      (split; [exact H4|]);
      (split;
       [intros other Ho; rewrite Hcam;
        rewrite ?lookup_insert_ne by congruence; auto|]).
    + intros Ht. congruence.
    + intros _. rewrite Hcam. apply lookup_insert_eq.
Qed.

(** X21: [get_redis_client] reuses the cached client, silently and
    without connecting, when its ping answers; it connects afresh when
    there is no cached client, or the ping answers [False] or fails
    with a connection error, and then returns a client exactly when
    the connection succeeds.  A client it returns is the cached one
    afterwards, and the data in the store is never touched. *)
Theorem X21_client_reuse_and_reconnect (env : redis_env) (s : redis_state) :
  let r := get_redis_client env s in
  store (snd (fst r)) = store s /\
  (client_obtained env s = true <->
   (redis_client s <> None /\ env_cached_ping env = inl true) \/
   ((redis_client s = None \/ env_cached_ping env = inl false \/
     env_cached_ping env = inr ConnectionLost) /\
    env_connect env = None)) /\
  (client_obtained env s = true ->
   redis_client (snd (fst r)) = Some RedisClient) /\
  (redis_client s <> None -> env_cached_ping env = inl true ->
   r = (inl (Some RedisClient), s, [])).
Proof.
  all_answers env s; cbn; (split; [reflexivity|]); (split; [split|]).
  all: try (intros H;
            first [ discriminate H
                  | left; split; [discriminate | reflexivity]
                  | right; split; [|reflexivity];
                    first [ left; reflexivity
                          | right; left; reflexivity
                          | right; right; reflexivity ] ]).
  all: try (intros [[H1 H2]|[[H1|[H1|H1]] H2]];
            first [reflexivity | congruence | discriminate]).
  all: split; [intros H; first [discriminate H | reflexivity]|];
    intros H1 H2; first [reflexivity | congruence | discriminate].
Qed.

(** * Further properties of the stream source *)

Lemma streamer_step_written (s s' : streamer) :
  streamer_step s s' ->
  (written s -> written s') /\
  (latest_frame s <> None -> latest_frame s' <> None) /\
  width s' = width s /\ height s' = height s.
Proof.
  unfold written. destruct 1 as [s Hr|s|s now Hr|s f now|s]; simpl;
    repeat split; auto; discriminate.
Qed.

(** X22: once the reader thread has written to the streamer, [read]
    hands out a frame at every later moment, whatever the threads do
    in between: the stored frame when the stream is live, a
    placeholder when it is not.  A stored frame is never lost, and the
    size the streamer was created with never changes. *)
Theorem X22_read_yields_frame_after_first_write
    (draw : Q -> image -> image) (s s' : streamer) (now : Q) :
  written s -> rtc streamer_step s s' ->
  (exists frame, snd (read draw s' now) = Some frame) /\
  (fst (read draw s' now) = true -> snd (read draw s' now) = latest_frame s') /\
  (latest_frame s <> None -> latest_frame s' <> None) /\
  width s' = width s /\ height s' = height s.
Proof.
  intros Hw Hsteps.
  assert (H : written s' /\
              (latest_frame s <> None -> latest_frame s' <> None) /\
              width s' = width s /\ height s' = height s).
  { induction Hsteps as [s|s s1 s2 Hstep Hrest IH]; [auto|].
    destruct (streamer_step_written _ _ Hstep) as (A & B & C & D).
    destruct (IH (A Hw)) as (A' & B' & C' & D').
    repeat split; auto; congruence. }
  destruct H as (Hw' & Hkeep & Hwd & Hht).
  repeat split; auto.
  - unfold read. destruct (is_reconnecting s') eqn:E; simpl.
    + eauto.
    + destruct Hw' as [Hw'|Hw']; [congruence|].
      destruct (latest_frame s'); [eauto | congruence].
  - unfold read. destruct (is_reconnecting s'); simpl;
      [discriminate | reflexivity].
Qed.

Lemma X22_read_yields_frame_after_first_write_witness :
  written streamer_with_frame /\
  exists frame,
    snd (read (fun _ im => im)
           {| width := 2; height := 2; running := true;
              latest_frame := Some (zeros 2 2); last_frame_time := 5%Q;
              is_reconnecting := true |} 6%Q) = Some frame.
Proof.
  assert (Hw : written streamer_with_frame) by (right; discriminate).
  split; [exact Hw|].
  refine (proj1 (X22_read_yields_frame_after_first_write
                   (fun _ im => im) streamer_with_frame _ 6%Q Hw _)).
  apply rtc_once. exact (step_cleanup streamer_with_frame).
Defined.

(** * Properties of the mailer *)


(** [get_ses_client] returns what it leaves in [SES_CLIENT]: the
    cached client if there is one, a new one if the initialisation
    goes through, and [None] with an error logged otherwise. *)
Lemma get_ses_client_spec (env : mail_env) (SES_CLIENT : option ses_client) :
  exists c l,
    get_ses_client env SES_CLIENT = (c, c, l) /\
    (c = Some SesClient <-> ses_available env SES_CLIENT = true) /\
    (c = None <-> ses_available env SES_CLIENT = false) /\
    (c = None -> has_level ERROR l = true).
Proof.
  destruct env as [k sk cr qu ex rd sd].
  destruct SES_CLIENT as [[]|]; [|destruct k, sk, cr as [[|?]|], qu as [[|?]|]];
    do 2 eexists; (split; [reflexivity|]); cbn;
    repeat split; intros; first [reflexivity | congruence | discriminate].
Qed.



(** X24: the SES client is created once and kept: after any series of
    send attempts [SES_CLIENT] holds a client exactly when it held one
    before or one of the attempts managed to initialise it.  A failed
    initialisation is tried again by the next attempt, and a failure to
    send never discards the client. *)
Theorem X24_ses_client_created_once (attempts : list (mail_env * mail_args))
    (SES_CLIENT : option ses_client) :
  client_after attempts SES_CLIENT = Some SesClient <->
  SES_CLIENT = Some SesClient \/
  Exists (fun at_ => ses_initialises (fst at_) = true) attempts.
Proof.
  revert SES_CLIENT. induction attempts as [|[env a] rest IH]; intros c.
  - simpl. split; [auto|]. intros [H|H]; [exact H | inversion H].
  - change (client_after ((env, a) :: rest) c)
      with (client_after rest
              (send_client (_send_email_sync_target env a c))).
    rewrite IH. rewrite Exists_cons.
    assert (E : send_client (_send_email_sync_target env a c) = Some SesClient
                <-> c = Some SesClient \/ ses_initialises env = true).
    { unfold _send_email_sync_target.
      destruct (get_ses_client_spec env c) as (c' & l & -> & Hsome & _).
      assert (E' : forall o : send_outcome,
                 send_client o = c' ->
                 (send_client o = Some SesClient <->
                  c = Some SesClient \/ ses_initialises env = true)).
      { intros o ->. rewrite Hsome. unfold ses_available.
        destruct c as [[]|]; [tauto|].
        split; [auto | intros [H|H]; [discriminate | exact H]]. }
      apply E'.
      destruct c' as [[]|]; [|reflexivity].
      destruct (m_recipient_emails a); [reflexivity|].
      destruct (image_exists env); [|reflexivity].
      destruct (image_read env) as [e|];
        [destruct (is_Exception e); reflexivity|].
      destruct (ses_send env) as [[|?]|]; reflexivity. }
    simpl fst. rewrite E. tauto.
Qed.
(** * Properties of the supervisors *)

Lemma is_live_standalone_is_webcam (src : string) :
  is_live_standalone src = is_webcam src.
Proof. unfold is_live_standalone, is_webcam. apply orb_comm. Qed.

Lemma is_live_web_standalone (src : string) :
  is_live_web src = true -> is_live_standalone src = true.
Proof.
  unfold is_live_web, is_live_standalone. intros ->. reflexivity.
Qed.

(** A source made of digits starts with none of the URL schemes. *)
Lemma isnumeric_not_url (src : string) :
  isnumeric src = true -> is_live_web src = false.
Proof.
  unfold isnumeric, is_live_web. destruct src as [|c rest]; [discriminate|].
  intros H. apply andb_true_iff in H as [_ H].
  cbn [list_ascii_of_string forallb] in H.
  apply andb_true_iff in H as [Hc _].
  unfold lower. cbn [list_ascii_of_string map string_of_list_ascii].
  destruct c as [[] [] [] [] [] [] [] []]; try discriminate Hc; reflexivity.
Qed.

Lemma runs_app (a b : list sup_event) : (runs (a ++ b) = runs a + runs b)%nat.
Proof. unfold runs. rewrite List.filter_app, length_app. reflexivity. Qed.

Lemma slept_app (a b : list sup_event) : slept (a ++ b) = slept a + slept b.
Proof.
  unfold slept. induction a as [|[| |n] a IH]; simpl; try lia.
Qed.

Section SupervisorExtras.

Variable fillPoly : nat -> nat -> list (Z * Z) -> list (list bool).
Variable detect_in_roi : image -> list box.

Local Abbreviation standalone := (main_loop fillPoly detect_in_roi).
Local Abbreviation thread_loop :=
  (detection_thread_loop fillPoly detect_in_roi).
Local Abbreviation thread := (run_detection_thread fillPoly detect_in_roi).
Local Abbreviation crash := (crashes fillPoly detect_in_roi).
Local Abbreviation finish := (returns fillPoly detect_in_roi).

(** [detect] returns only from a source that is not live. *)
Lemma detect_returns_static (cfg : config) (s : session) :
  finish cfg s -> is_webcam (source cfg) = false.
Proof.
  unfold returns, detect. destruct s as [init stop ticks keys]. simpl.
  destruct init as [|[] e].
  2-5: unfold critical_handler;
       destruct (is_Exception e); simpl;
       try destruct (is_webcam (source cfg)); simpl;
       try destruct stop; simpl; discriminate.
  destruct (is_webcam (source cfg)) eqn:Ew; [|reflexivity].
  assert (H : forall ticks st,
             snd (detect_loop fillPoly detect_in_roi cfg st ticks)
               <> Finished).
  { clear ticks. induction ticks as [|t ticks IH]; intros st;
      [discriminate|].
    cbn [detect_loop]. rewrite Ew.
    destruct (t_read t) as [[] [im|]].
    - destruct (b_raised (frame_body fillPoly detect_in_roi cfg st t im))
        as [e|].
      + destruct (is_Exception e); [|discriminate].
        specialize (IH (b_state (frame_body fillPoly detect_in_roi cfg st t im))).
        destruct (detect_loop fillPoly detect_in_roi cfg _ ticks). exact IH.
      + specialize (IH (b_state (frame_body fillPoly detect_in_roi cfg st t im))).
        destruct (detect_loop fillPoly detect_in_roi cfg _ ticks). exact IH.
    - specialize (IH st).
      destruct (detect_loop fillPoly detect_in_roi cfg st ticks). exact IH.
    - destruct (t_fault_sink t); [discriminate|].
      specialize (IH st).
      destruct (detect_loop fillPoly detect_in_roi cfg st ticks). exact IH.
    - specialize (IH st).
      destruct (detect_loop fillPoly detect_in_roi cfg st ticks). exact IH. }
  specialize (H ticks loop_init).
  destruct (detect_loop fillPoly detect_in_roi cfg loop_init ticks)
    as [evs [st| |e]]; simpl in *.
  - discriminate.
  - congruence.
  - unfold critical_handler. destruct (is_Exception e); simpl;
      try rewrite Ew; simpl; try destruct stop; simpl; discriminate.
Qed.

(** X25: on a network source both supervisors survive every crash of
    [detect]: after each [Exception] they sleep ten seconds and call
    [detect] again, and after any number of crashes they go on as if
    freshly started. *)
Theorem X25_supervisors_restart_network_source (cfg : config)
    (crashed rest : list session) :
  is_live_web (source cfg) = true ->
  Forall (crash cfg) crashed ->
  (exists evs,
      standalone cfg (crashed ++ rest)
        = (evs ++ fst (standalone cfg rest), snd (standalone cfg rest)) /\
      runs evs = length crashed /\
      slept evs = 10 * Z.of_nat (length crashed)) /\
  (exists evs,
      thread_loop cfg (crashed ++ rest)
        = (evs ++ fst (thread_loop cfg rest),
           snd (thread_loop cfg rest)) /\
      runs evs = length crashed /\
      slept evs = 10 * Z.of_nat (length crashed)).
Proof.
  intros Hweb Hall. pose proof (is_live_web_standalone _ Hweb) as Hst.
  induction Hall as [|s crashed (e & Hr & He) Hall [(ev1 & A1 & B1 & C1)
                                                    (ev2 & A2 & B2 & C2)]].
  - split; exists []; simpl;
      (split; [apply surjective_pairing | split; reflexivity]).
  - split.
    + cbn [app main_loop]. rewrite Hst.
      destruct (detect fillPoly detect_in_roi cfg (s_init s)
                  (s_stop_fault s) (s_ticks s)) as [evs r].
      simpl in Hr. subst r. rewrite He. rewrite A1.
      exists ([SupDetect evs; SupLog ERROR "Detection process crashed";
               SupLog INFO "Reconnecting in 10 seconds..."; SupSleep 10]
                ++ ev1).
      split; [reflexivity|].
      rewrite runs_app, slept_app, B1, C1. unfold runs, slept.
      cbn [List.filter length fold_right]. split; lia.
    + cbn [app detection_thread_loop].
      rewrite Hweb.
      destruct (detect fillPoly detect_in_roi cfg (s_init s)
                  (s_stop_fault s) (s_ticks s)) as [evs r].
      simpl in Hr. subst r. rewrite He. rewrite A2.
      exists ([SupLog INFO "Attempting to start detection on source";
               SupDetect evs; SupLog ERROR "Detection thread crashed";
               SupLog INFO
                 "Live stream connection lost. Retrying in 10 seconds...";
               SupSleep 10] ++ ev2).
      split; [reflexivity|].
      rewrite runs_app, slept_app, B2, C2. unfold runs, slept.
      cbn [List.filter length fold_right]. split; lia.
Qed.


(** X26: on an ASCII source that is not live (it starts with none of
    the URL schemes and is not made of digits) the standalone program
    calls [detect] once and never again, whatever happens.  If [detect]
    raises an [Exception] the program leaves its loop at once; if
    [detect] returns, the program waits until [q] is pressed.  (Beyond
    ASCII, [str.isnumeric] accepts characters that the model of
    [isnumeric] does not.) *)
Theorem X26_standalone_static_runs_once (cfg : config) (s : session)
    (rest : list session) :
  is_ascii (source cfg) = true ->
  is_live_standalone (source cfg) = false ->
  standalone cfg (s :: rest) = standalone cfg [s] /\
  runs (fst (standalone cfg (s :: rest))) = 1%nat /\
  slept (fst (standalone cfg (s :: rest))) = 0 /\
  (crash cfg s -> snd (standalone cfg (s :: rest)) = SupExited) /\
  (finish cfg s ->
   snd (standalone cfg (s :: rest))
     = if existsb (fun key => Z.land key 255 =? 113) (s_keys s)
       then SupExited else SupWaitsForKey).
Proof.
  intros _ Hst. unfold crashes, returns. cbn [main_loop]. rewrite Hst.
  destruct (detect fillPoly detect_in_roi cfg (s_init s)
              (s_stop_fault s) (s_ticks s)) as [evs [st| |e]];
    cbn [negb snd];
    [ | destruct (existsb (fun key => Z.land key 255 =? 113) (s_keys s))
      | destruct (is_Exception e) eqn:Ee ];
    (split; [reflexivity|]); (split; [reflexivity|]);
    (split; [reflexivity|]);
    (split; [intros (e' & H & He') | intros H]);
    first [reflexivity | discriminate H | congruence].
Qed.

(** X27: the web thread calls [detect] again as soon as it returns: a
    source that has been read to its end is started over at once,
    without a pause, as many times as it ends.  Only a source that is
    not live ever ends. *)
Theorem X27_web_thread_replays_finished_source (cfg : config)
    (finished rest : list session) :
  Forall (finish cfg) finished ->
  (exists evs,
      thread_loop cfg (finished ++ rest)
        = (evs ++ fst (thread_loop cfg rest), snd (thread_loop cfg rest)) /\
      runs evs = length finished /\
      slept evs = 0) /\
  (finished <> [] -> is_webcam (source cfg) = false).
Proof.
  intros Hall. split.
  - induction Hall as [|s finished Hr Hall (ev & A & B & C)].
    + exists []. simpl.
      split; [apply surjective_pairing | split; reflexivity].
    + cbn [app detection_thread_loop]. unfold returns in Hr.
      destruct (detect fillPoly detect_in_roi cfg (s_init s)
                  (s_stop_fault s) (s_ticks s)) as [evs r].
      simpl in Hr. subst r. rewrite A.
      exists ([SupLog INFO "Attempting to start detection on source";
               SupDetect evs] ++ ev).
      split; [reflexivity|].
      rewrite runs_app, slept_app, B, C. unfold runs, slept.
      cbn [List.filter length fold_right]. split; lia.
  - destruct Hall as [|s finished Hr _]; [congruence|].
    intros _. exact (detect_returns_static cfg s Hr).
Qed.

(** X28: a crash of [detect] on a local camera, whose source is a
    number, ends the web thread for good, while the standalone program
    sleeps ten seconds and calls [detect] again. *)
Theorem X28_web_thread_gives_up_on_local_camera (cfg : config) (s : session)
    (rest : list session) :
  isnumeric (source cfg) = true ->
  crash cfg s ->
  (snd (thread cfg (s :: rest)) = SupExited /\
   runs (fst (thread cfg (s :: rest))) = 1%nat /\
   slept (fst (thread cfg (s :: rest))) = 0) /\
  (snd (standalone cfg (s :: rest)) = snd (standalone cfg rest) /\
   runs (fst (standalone cfg (s :: rest)))
     = S (runs (fst (standalone cfg rest))) /\
   slept (fst (standalone cfg (s :: rest)))
     = 10 + slept (fst (standalone cfg rest))).
Proof.
  intros Hnum (e & Hr & He).
  pose proof (isnumeric_not_url _ Hnum) as Hweb.
  assert (Hst : is_live_standalone (source cfg) = true).
  { unfold is_live_standalone. rewrite Hnum. apply orb_true_r. }
  unfold run_detection_thread. cbn [main_loop detection_thread_loop].
  rewrite Hweb, Hst.
  destruct (detect fillPoly detect_in_roi cfg (s_init s)
              (s_stop_fault s) (s_ticks s)) as [evs r].
  simpl in Hr. subst r. rewrite He.
  split; [repeat split|].
  destruct (main_loop fillPoly detect_in_roi cfg rest) as [evs' r'].
  repeat split.
Qed.

End SupervisorExtras.

Lemma X25_supervisors_restart_network_source_witness :
  is_live_web (source config_rtsp) = true /\
  Forall (crashes full_mask no_detections config_rtsp)
         [failing_session; failing_session] /\
  exists evs,
    main_loop full_mask no_detections config_rtsp
      ([failing_session; failing_session] ++ [])
      = (evs ++ [], SupCallsDetect) /\
    runs evs = 2%nat /\ slept evs = 20.
Proof.
  assert (H : Forall (crashes full_mask no_detections config_rtsp)
                     [failing_session; failing_session]).
  { repeat constructor; exists OSError; split; reflexivity. }
  split; [reflexivity|]. split; [exact H|].
  exact (proj1 (X25_supervisors_restart_network_source full_mask
                  no_detections config_rtsp
                  [failing_session; failing_session] [] eq_refl H)).
Defined.

Lemma X26_standalone_static_runs_once_witness :
  is_ascii (source config_file) = true /\
  is_live_standalone (source config_file) = false /\
  main_loop full_mask no_detections config_file
    [finished_session; failing_session]
  = main_loop full_mask no_detections config_file [finished_session].
Proof.
  split; [reflexivity|]. split; [reflexivity|].
  exact (proj1 (X26_standalone_static_runs_once full_mask no_detections
                  config_file finished_session [failing_session]
                  eq_refl eq_refl)).
Defined.

Lemma X27_web_thread_replays_finished_source_witness :
  Forall (returns full_mask no_detections config_file)
         [finished_session; finished_session] /\
  exists evs,
    detection_thread_loop full_mask no_detections config_file
      ([finished_session; finished_session] ++ [])
      = (evs ++ [], SupCallsDetect) /\
    runs evs = 2%nat /\ slept evs = 0.
Proof.
  assert (H : Forall (returns full_mask no_detections config_file)
                     [finished_session; finished_session]).
  { repeat constructor. }
  split; [exact H|].
  exact (proj1 (X27_web_thread_replays_finished_source full_mask
                  no_detections config_file
                  [finished_session; finished_session] [] H)).
Defined.

Lemma X28_web_thread_gives_up_on_local_camera_witness :
  isnumeric (source config_standalone) = true /\
  crashes full_mask no_detections config_standalone failing_session /\
  snd (run_detection_thread full_mask no_detections config_standalone
         [failing_session; failing_session]) = SupExited.
Proof.
  assert (H : crashes full_mask no_detections config_standalone
                failing_session).
  { exists OSError. split; reflexivity. }
  split; [reflexivity|]. split; [exact H|].
  exact (proj1 (proj1 (X28_web_thread_gives_up_on_local_camera full_mask
                         no_detections config_standalone failing_session
                         [failing_session] eq_refl H))).
Defined.

